(** * A simulated trading engine: ledger, order simulator, risk gate, signals

    Shallow embedding of the Python sources
    [trade_executor.py], [portfolio_manager.py], [risk_manager.py],
    [trading_strategy.py] and the constants of [config.py].

    Modelling decisions, shared by the whole development:
    - Python floats of the ledger and of the order simulator are exact
      rationals [Q]; rounding, overflow and signed zeros are not modelled.
      Equalities between amounts are therefore stated with [==], and they
      are equalities of exact arithmetic: in the program they hold up to
      the rounding of each operation.  Module [Doubles] repeats the
      arithmetic of a fill in IEEE binary64, for the places where the
      difference shows.
    - Indicator series (pandas columns) live in the extended domain [fval]
      (finite rational, +inf, -inf, NaN), because the signal generators depend
      on the NaN warm-up of rolling windows and on division by zero.
    - Dictionaries are [gmap]s; the [orders] dictionary, whose iteration order
      matters, is the list of its values in insertion order.
    - [uuid4] identifiers are fresh natural numbers; [datetime.now()] fields
      are left out; log lines are kept only where they are the sole carrier
      of information (rejection reasons, stop-loss triggers).
    - The trade file can be written: [_execute_order] is the run of its
      [try] block to the end.  The run in which [_log_trade] raises is
      [_execute_order_except]. *)

From Stdlib Require Import QArith Qabs Lqa Lia PrimFloat.
From stdpp Require Import gmap strings list fin_maps.

(** ** Comparisons on rationals, as Python writes them *)

Module Num.

Definition Qleb (x y : Q) : bool := Qle_bool x y.
Definition Qltb (x y : Q) : bool := negb (Qle_bool y x).
Definition Qgeb (x y : Q) : bool := Qle_bool y x.
Definition Qgtb (x y : Q) : bool := negb (Qle_bool x y).
(** Truthiness of a float: [0.0] is falsy. *)
Definition Qtruthy (x : Q) : bool := negb (Qeq_bool x 0).

End Num.

(** ** config.py *)

Module Config.

Definition INITIAL_BALANCE : Q := 10000.
Definition MAX_POSITION_SIZE : Q := 0.5.
Definition MIN_TRADE_AMOUNT : Q := 10.
Definition STOP_LOSS_PCT : Q := 2.
Definition TAKE_PROFIT_PCT : Q := 5.
Definition MAX_DAILY_TRADES : nat := 50.
Definition MAX_DAILY_LOSS_PCT : Q := 10.
Definition BACKTEST_COMMISSION : Q := 0.001.
Definition BACKTEST_SLIPPAGE : Q := 0.0005.

End Config.

(** ** Marking positions to market

    The loop body that [TradeExecutor.get_position_value] and
    [PortfolioManager.get_total_value] share: a position that is open and
    priced adds [quantity * price] to the running total. *)

Module Valuation.
Import Num.
Local Open Scope Q_scope.

Definition mark {A} (quantity : A -> Q) (prices : gmap string Q)
    (symbol : string) (position : A) (total : Q) : Q :=
  if Qgtb (quantity position) 0 then
    match prices !! symbol with
    | Some price => total + quantity position * price
    | None => total
    end
  else total.

End Valuation.

(** ** trade_executor.py *)

Module TradeExecutor.
Import Num.
Local Open Scope Q_scope.

Inductive OrderType := MARKET | LIMIT | STOP_LOSS | TAKE_PROFIT.
Inductive OrderStatus := PENDING | FILLED | CANCELLED | REJECTED | EXPIRED.
Inductive OrderSide := BUY | SELL.

Definition OrderType_eqb (a b : OrderType) : bool :=
  match a, b with
  | MARKET, MARKET | LIMIT, LIMIT | STOP_LOSS, STOP_LOSS
  | TAKE_PROFIT, TAKE_PROFIT => true
  | _, _ => false
  end.

Definition is_pending (s : OrderStatus) : bool :=
  match s with PENDING => true | _ => false end.

(** class Trade *)
Record Trade := mkTrade {
  trd_id : nat;
  trd_order_id : nat;
  trd_symbol : string;
  trd_side : OrderSide;
  trd_quantity : Q;
  trd_price : Q;
  trd_total : Q;
  trd_commission : Q
}.

(** [Trade.__init__]: [total = quantity * price]. *)
Definition new_Trade (id order_id : nat) (symbol : string) (side : OrderSide)
    (quantity price commission : Q) : Trade :=
  mkTrade id order_id symbol side quantity price (quantity * price) commission.

(** class Order.  [place_order] is the only place that builds orders and it
    always passes a price, so [ord_price] is a number; [stop_price] stays
    optional. *)
Record Order := mkOrder {
  ord_id : nat;
  ord_symbol : string;
  ord_side : OrderSide;
  ord_type : OrderType;
  ord_quantity : Q;
  ord_price : Q;
  ord_stop_price : option Q;
  ord_filled_quantity : Q;
  ord_remaining_quantity : Q;
  ord_avg_fill_price : Q;
  ord_status : OrderStatus;
  ord_fills : list Trade;
  ord_commission : Q
}.

(** [Order.__init__] *)
Definition new_Order (id : nat) (symbol : string) (side : OrderSide)
    (order_type : OrderType) (quantity price : Q) (stop_price : option Q)
    : Order :=
  mkOrder id symbol side order_type quantity price stop_price
          0 quantity 0 PENDING [] 0.

(** class Position *)
Record Position := mkPosition {
  pos_symbol : string;
  pos_quantity : Q;
  pos_avg_price : Q;
  pos_realized_pnl : Q;
  pos_unrealized_pnl : Q;
  pos_total_cost : Q;
  pos_total_commission : Q
}.

(** [Position.__init__] *)
Definition new_Position (symbol : string) : Position :=
  mkPosition symbol 0 0 0 0 0 0.

(** [Position.update_position] *)
Definition update_position (self : Position) (trade : Trade) : Position :=
  let self1 :=
    match trd_side trade with
    | BUY =>
        let new_total_cost := pos_total_cost self + trd_total trade in
        let new_quantity := pos_quantity self + trd_quantity trade in
        let avg :=
          if Qgtb new_quantity 0 then new_total_cost / new_quantity
          else pos_avg_price self in
        mkPosition (pos_symbol self) new_quantity avg
                   (pos_realized_pnl self) (pos_unrealized_pnl self)
                   new_total_cost (pos_total_commission self)
    | SELL =>
        if Qgtb (pos_quantity self) 0 then
          let sell_cost := trd_quantity trade * pos_avg_price self in
          let realized_pnl := trd_total trade - sell_cost in
          let realized := pos_realized_pnl self + realized_pnl in
          let quantity := pos_quantity self - trd_quantity trade in
          if Qleb quantity 0 then
            mkPosition (pos_symbol self) 0 0 realized
                       (pos_unrealized_pnl self) 0 (pos_total_commission self)
          else
            mkPosition (pos_symbol self) quantity (pos_avg_price self) realized
                       (pos_unrealized_pnl self)
                       (pos_total_cost self - sell_cost)
                       (pos_total_commission self)
        else self
    end in
  mkPosition (pos_symbol self1) (pos_quantity self1) (pos_avg_price self1)
             (pos_realized_pnl self1) (pos_unrealized_pnl self1)
             (pos_total_cost self1)
             (pos_total_commission self1 + trd_commission trade).

(** [Position.calculate_unrealized_pnl] *)
Definition calculate_unrealized_pnl (self : Position) (current_price : Q)
    : Position :=
  let u :=
    if Qgtb (pos_quantity self) 0 && Qgtb current_price 0
    then pos_quantity self * current_price - pos_total_cost self
    else 0 in
  mkPosition (pos_symbol self) (pos_quantity self) (pos_avg_price self)
             (pos_realized_pnl self) u (pos_total_cost self)
             (pos_total_commission self).

(** class TradeExecutor: the instance attributes. *)
Record t := mkExecutor {
  initial_balance : Q;
  available_balance : Q;
  orders : list Order;
  trades : list Trade;
  positions : gmap string Position;
  current_prices : gmap string Q;
  max_position_size : Q;
  commission_rate : Q;
  slippage : Q;
  total_trades : nat;
  winning_trades : nat;
  losing_trades : nat;
  total_commission : Q
}.

(** [TradeExecutor.__init__], with the three rates as arguments (the source
    reads them from [config]). *)
Definition init (initial_balance max_position_size commission_rate slippage : Q)
    : t :=
  mkExecutor initial_balance initial_balance [] [] ∅ ∅
             max_position_size commission_rate slippage 0 0 0 0.

(** The module-level instance [trade_executor = TradeExecutor()]. *)
Definition trade_executor : t :=
  init Config.INITIAL_BALANCE Config.MAX_POSITION_SIZE
       Config.BACKTEST_COMMISSION Config.BACKTEST_SLIPPAGE.

Definition set_orders (os : list Order) (st : t) : t :=
  mkExecutor (initial_balance st) (available_balance st) os (trades st)
             (positions st) (current_prices st) (max_position_size st)
             (commission_rate st) (slippage st) (total_trades st)
             (winning_trades st) (losing_trades st) (total_commission st).

(** [get_position_value]: sum of [quantity * price] over the positions that
    are open and priced. *)
Definition get_position_value (st : t) : Q :=
  map_fold (fun symbol position total_value =>
              if Qgtb (pos_quantity position) 0 then
                match current_prices st !! symbol with
                | Some current_price =>
                    total_value + pos_quantity position * current_price
                | None => total_value
                end
              else total_value)
           0 (positions st).

(** [get_total_value] *)
Definition get_total_value (st : t) : Q :=
  available_balance st + get_position_value st.

(** The reason logged by [_risk_check] before it returns [False]. *)
Inductive RiskReject :=
  | AmountTooSmall        (* 交易金额过小 *)
  | InsufficientBalance   (* 余额不足 *)
  | InsufficientPosition  (* 持仓不足 *)
  | PositionLimitExceeded (* 超过最大仓位限制 *).

(** [available_qty = position.quantity if position else 0], the quantity
    [_risk_check] reports as held. *)
Definition available_qty (st : t) (symbol : string) : Q :=
  match positions st !! symbol with
  | Some position => pos_quantity position
  | None => 0
  end.

(** [_risk_check]: [None] is [return True]; [Some r] is [return False] after
    logging reason [r]. *)
Definition _risk_check (st : t) (symbol : string) (side : OrderSide)
    (quantity price : Q) : option RiskReject :=
  let order_value := quantity * price in
  if Qltb order_value Config.MIN_TRADE_AMOUNT then Some AmountTooSmall
  else
    let first :=
      match side with
      | BUY =>
          let required_balance := order_value * (1 + commission_rate st) in
          if Qltb (available_balance st) required_balance
          then Some InsufficientBalance else None
      | SELL =>
          match positions st !! symbol with
          | None => Some InsufficientPosition
          | Some position =>
              if Qltb (pos_quantity position) quantity
              then Some InsufficientPosition else None
          end
      end in
    match first with
    | Some r => Some r
    | None =>
        match side with
        | BUY =>
            let total_value := get_total_value st in
            let position_limit := total_value * max_position_size st in
            if Qgtb order_value position_limit
            then Some PositionLimitExceeded else None
        | SELL => None
        end
    end.

(** [_update_balance_and_position] *)
Definition _update_balance_and_position (st : t) (trade : Trade) : t :=
  let symbol := trd_symbol trade in
  let position0 :=
    match positions st !! symbol with
    | Some p => p
    | None => new_Position symbol
    end in
  let position := update_position position0 trade in
  let positions' := <[symbol := position]> (positions st) in
  match trd_side trade with
  | BUY =>
      mkExecutor (initial_balance st)
                 (available_balance st - (trd_total trade + trd_commission trade))
                 (orders st) (trades st) positions' (current_prices st)
                 (max_position_size st) (commission_rate st) (slippage st)
                 (total_trades st) (winning_trades st) (losing_trades st)
                 (total_commission st)
  | SELL =>
      let win := Qgtb (pos_realized_pnl position) 0 in
      mkExecutor (initial_balance st)
                 (available_balance st + (trd_total trade - trd_commission trade))
                 (orders st) (trades st) positions' (current_prices st)
                 (max_position_size st) (commission_rate st) (slippage st)
                 (total_trades st)
                 (if win then S (winning_trades st) else winning_trades st)
                 (if win then losing_trades st else S (losing_trades st))
                 (total_commission st)
  end.

(** [_execute_order], when its [try] block runs to the end.  The order
    object lives in [self.orders] and is mutated in place; here the mutated
    order is returned next to the new state and the caller puts it back
    where it took it.  The arithmetic of the block cannot raise; its one
    statement that can is [_log_trade], which appends to the trade file:
    see [_execute_order_except]. *)
Definition _execute_order (st : t) (order : Order) (execution_price : Q)
    : Order * t :=
  let execution_price :=
    match ord_side order with
    | BUY => execution_price * (1 + slippage st)
    | SELL => execution_price * (1 - slippage st)
    end in
  let trade_value := ord_quantity order * execution_price in
  let commission := trade_value * commission_rate st in
  let trade :=
    new_Trade (length (trades st)) (ord_id order) (ord_symbol order)
              (ord_side order) (ord_quantity order) execution_price commission in
  let order' :=
    mkOrder (ord_id order) (ord_symbol order) (ord_side order) (ord_type order)
            (ord_quantity order) (ord_price order) (ord_stop_price order)
            (ord_quantity order) 0 execution_price FILLED
            (ord_fills order ++ [trade]) commission in
  let st1 := _update_balance_and_position st trade in
  (order',
   mkExecutor (initial_balance st1) (available_balance st1) (orders st1)
              (trades st1 ++ [trade]) (positions st1) (current_prices st1)
              (max_position_size st1) (commission_rate st1) (slippage st1)
              (S (total_trades st1)) (winning_trades st1) (losing_trades st1)
              (total_commission st1 + commission)).

(** [_execute_order] when [_log_trade] raises.  It is the last statement
    of the [try] block but for a log line, so the order, the balance, the
    position, the trade list and the counters have all been written; the
    [except] branch then sets the status of the order to REJECTED and
    undoes nothing. *)
Definition _execute_order_except (st : t) (order : Order)
    (execution_price : Q) : Order * t :=
  let '(order', st') := _execute_order st order execution_price in
  (mkOrder (ord_id order') (ord_symbol order') (ord_side order')
           (ord_type order') (ord_quantity order') (ord_price order')
           (ord_stop_price order') (ord_filled_quantity order')
           (ord_remaining_quantity order') (ord_avg_fill_price order')
           REJECTED (ord_fills order') (ord_commission order'),
   st').

(** The body of the [for] loop of [_check_pending_orders]: whether the order
    triggers at [current_price], and at which execution price. *)
Definition fill_price (order : Order) (current_price : Q) : option Q :=
  match ord_type order with
  | LIMIT =>
      match ord_side order with
      | BUY => if Qleb current_price (ord_price order)
               then Some (ord_price order) else None
      | SELL => if Qgeb current_price (ord_price order)
                then Some (ord_price order) else None
      end
  | STOP_LOSS =>
      match ord_stop_price order with
      | Some stop_price =>
          if Qtruthy stop_price then
            match ord_side order with
            | BUY => if Qgeb current_price stop_price
                     then Some current_price else None
            | SELL => if Qleb current_price stop_price
                      then Some current_price else None
            end
          else None
      | None => None
      end
  | TAKE_PROFIT =>
      if Qtruthy (ord_price order) then
        match ord_side order with
        | BUY => if Qleb current_price (ord_price order)
                 then Some (ord_price order) else None
        | SELL => if Qgeb current_price (ord_price order)
                  then Some (ord_price order) else None
        end
      else None
  | MARKET => None
  end.

(** The loop of [_check_pending_orders] over the orders in dictionary order.
    The source first collects the pending orders of the symbol and then
    executes them; executing an order changes no other order, so testing the
    status when the order is reached selects the same orders. *)
Fixpoint scan_orders (symbol : string) (current_price : Q)
    (os : list Order) (st : t) : list Order * t :=
  match os with
  | [] => ([], st)
  | order :: rest =>
      let '(order', st') :=
        if is_pending (ord_status order) && String.eqb (ord_symbol order) symbol
        then
          match fill_price order current_price with
          | Some execution_price => _execute_order st order execution_price
          | None => (order, st)
          end
        else (order, st) in
      let '(rest', st'') := scan_orders symbol current_price rest st' in
      (order' :: rest', st'')
  end.

(** What the loop leaves in place of one order, when it reaches that order
    in state [sti]. *)
Definition scanned (symbol : string) (current_price : Q) (sti : t)
    (order : Order) : Order :=
  if is_pending (ord_status order) && String.eqb (ord_symbol order) symbol then
    match fill_price order current_price with
    | Some execution_price => fst (_execute_order sti order execution_price)
    | None => order
    end
  else order.

(** [_check_pending_orders] *)
Definition _check_pending_orders (st : t) (symbol : string) (current_price : Q)
    : t :=
  let '(os, st') := scan_orders symbol current_price (orders st) st in
  set_orders os st'.

(** [update_price] *)
Definition update_price (st : t) (symbol : string) (price : Q) : t :=
  let prices' := <[symbol := price]> (current_prices st) in
  let positions' :=
    match positions st !! symbol with
    | Some p => <[symbol := calculate_unrealized_pnl p price]> (positions st)
    | None => positions st
    end in
  let st1 :=
    mkExecutor (initial_balance st) (available_balance st) (orders st)
               (trades st) positions' prices' (max_position_size st)
               (commission_rate st) (slippage st) (total_trades st)
               (winning_trades st) (losing_trades st) (total_commission st) in
  _check_pending_orders st1 symbol price.

(** [place_order]: [None] where the source returns [None]; otherwise the
    identifier of the order that was created.  [price = None] is the
    default argument. *)
Definition place_order (st : t) (symbol : string) (side : OrderSide)
    (order_type : OrderType) (quantity : Q) (price : option Q)
    (stop_price : option Q) : option nat * t :=
  if Qleb quantity 0 then (None, st)
  else
    match current_prices st !! symbol with
    | None => (None, st)
    | Some current_price =>
        let price' :=
          match order_type with
          | MARKET => Some current_price
          | _ => price
          end in
        match price' with
        | None => (None, st)
        | Some price =>
            match _risk_check st symbol side quantity price with
            | Some _ => (None, st)
            | None =>
                let order :=
                  new_Order (length (orders st)) symbol side order_type
                            quantity price stop_price in
                match order_type with
                | MARKET =>
                    let '(order', st') := _execute_order st order current_price in
                    (Some (ord_id order),
                     set_orders (orders st ++ [order']) st')
                | _ => (Some (ord_id order),
                        set_orders (orders st ++ [order]) st)
                end
            end
        end
    end.

(** [cancel_order] *)
Definition cancel_order (st : t) (order_id : nat) : bool * t :=
  match list_find (fun o => Nat.eqb (ord_id o) order_id) (orders st) with
  | Some (i, order) =>
      if is_pending (ord_status order) then
        let order' :=
          mkOrder (ord_id order) (ord_symbol order) (ord_side order)
                  (ord_type order) (ord_quantity order) (ord_price order)
                  (ord_stop_price order) (ord_filled_quantity order)
                  (ord_remaining_quantity order) (ord_avg_fill_price order)
                  CANCELLED (ord_fills order) (ord_commission order) in
        (true, set_orders (<[i := order']> (orders st)) st)
      else (false, st)
  | None => (false, st)
  end.

(** [execute_signal]; of the signal only [signal.signal_type] is read, and
    [position_size_pct] defaults to 0.1. *)
Definition execute_signal (st : t) (signal_type symbol : string)
    (position_size_pct : Q) : option nat * t :=
  if negb (String.eqb signal_type "BUY" || String.eqb signal_type "SELL")
  then (None, st)
  else
    match current_prices st !! symbol with
    | None => (None, st)
    | Some current_price =>
        if negb (Qtruthy current_price) then (None, st)
        else if String.eqb signal_type "BUY" then
          let max_investment := available_balance st * position_size_pct in
          let quantity := max_investment / current_price in
          if Qltb (quantity * current_price) Config.MIN_TRADE_AMOUNT
          then (None, st)
          else place_order st symbol BUY MARKET quantity None None
        else
          match positions st !! symbol with
          | None => (None, st)
          | Some position =>
              if Qleb (pos_quantity position) 0 then (None, st)
              else place_order st symbol SELL MARKET (pos_quantity position)
                               None None
          end
    end.

(** [get_total_pnl] *)
Definition get_total_pnl (st : t) : Q := get_total_value st - initial_balance st.

(** [get_positions]: the positions that are open. *)
Definition get_positions (st : t) : gmap string Position :=
  filter (fun kv => Qgtb (pos_quantity (snd kv)) 0 = true) (positions st).

(** Python's [xs[start:]] for an integer [start] of either sign. *)
Definition slice_from {A} (start : Z) (xs : list A) : list A :=
  if (start <? 0)%Z then drop (length xs - Z.to_nat (- start)) xs
  else drop (Z.to_nat start) xs.

(** [get_recent_trades]; [limit] defaults to 20. *)
Definition get_recent_trades (st : t) (limit : Z) : list Trade :=
  match trades st with
  | [] => []
  | _ => slice_from (- limit) (trades st)
  end.

(** [get_open_orders] *)
Definition get_open_orders (st : t) : list Order :=
  List.filter (fun order => is_pending (ord_status order)) (orders st).

(** *** Invariants of the ledger *)

(** A position is consistent when its quantity is not negative, its total
    cost is its quantity at its average price, and a flat position has no
    average price. *)
Definition position_ok (p : Position) : Prop :=
  0 <= pos_quantity p /\
  pos_total_cost p == pos_quantity p * pos_avg_price p /\
  (pos_quantity p == 0 -> pos_avg_price p == 0).

Definition is_sell (trade : Trade) : bool :=
  match trd_side trade with SELL => true | BUY => false end.

(** The books are consistent when every position is and the counters agree
    with the trade list: every trade is counted, and every SELL is counted
    as won or lost. *)
Definition books_ok (st : t) : Prop :=
  map_Forall (fun _ p => position_ok p) (positions st) /\
  total_trades st = length (trades st) /\
  (winning_trades st + losing_trades st)%nat
    = length (List.filter is_sell (trades st)).

(** Every order carries its place in the order book as identifier and has a
    positive quantity. *)
Definition orders_ok (os : list Order) : Prop :=
  forall i o, os !! i = Some o -> ord_id o = i /\ 0 < ord_quantity o.

Definition ledger_ok (st : t) : Prop := books_ok st /\ orders_ok (orders st).

(** A position is sound when its quantity is not negative and a flat
    position has neither an average price nor a cost.  The code establishes
    this by comparisons and by assigning [0.0], never by arithmetic that
    has to cancel. *)
Definition position_sound (p : Position) : Prop :=
  0 <= pos_quantity p /\
  (pos_quantity p == 0 -> pos_avg_price p == 0 /\ pos_total_cost p == 0).

(** The books are sound when every position is and the counters agree with
    the trade list. *)
Definition books_sound (st : t) : Prop :=
  map_Forall (fun _ p => position_sound p) (positions st) /\
  total_trades st = length (trades st) /\
  (winning_trades st + losing_trades st)%nat
    = length (List.filter is_sell (trades st)).

Definition ledger_sound (st : t) : Prop :=
  books_sound st /\ orders_ok (orders st).

(** The states an executor goes through: created by [__init__], then moved
    by the public operations. *)
Inductive reachable : t -> Prop :=
  | reach_init initial_balance max_position_size commission_rate slippage :
      reachable (init initial_balance max_position_size commission_rate
                      slippage)
  | reach_update_price st symbol price :
      reachable st -> reachable (update_price st symbol price)
  | reach_place_order st symbol side order_type quantity price stop_price :
      reachable st ->
      reachable (snd (place_order st symbol side order_type quantity price
                                  stop_price))
  | reach_cancel_order st order_id :
      reachable st -> reachable (snd (cancel_order st order_id))
  | reach_execute_signal st signal_type symbol position_size_pct :
      reachable st ->
      reachable (snd (execute_signal st signal_type symbol position_size_pct)).

End TradeExecutor.

(** ** The arithmetic of a fill in binary64

    The amounts of [trade_executor.py] are Python floats, that is IEEE
    binary64 numbers.  This module repeats [Position.update_position],
    [_update_balance_and_position] and the arithmetic of [_execute_order],
    operation by operation, on primitive binary64 floats.  Of the executor
    it keeps the attributes that this arithmetic reads or writes. *)

Module Doubles.
#[local] Set Warnings "-inexact-float".
Local Open Scope float_scope.

(** class Trade *)
Record Trade := mkTrade {
  trd_symbol : string;
  trd_side : TradeExecutor.OrderSide;
  trd_quantity : float;
  trd_price : float;
  trd_total : float;
  trd_commission : float
}.

(** [Trade.__init__]: [total = quantity * price]. *)
Definition new_Trade (symbol : string) (side : TradeExecutor.OrderSide)
    (quantity price commission : float) : Trade :=
  mkTrade symbol side quantity price (quantity * price) commission.

(** class Position *)
Record Position := mkPosition {
  pos_quantity : float;
  pos_avg_price : float;
  pos_realized_pnl : float;
  pos_unrealized_pnl : float;
  pos_total_cost : float;
  pos_total_commission : float
}.

(** [Position.__init__] *)
Definition new_Position : Position := mkPosition 0 0 0 0 0 0.

(** [Position.update_position] *)
Definition update_position (self : Position) (trade : Trade) : Position :=
  let self1 :=
    match trd_side trade with
    | TradeExecutor.BUY =>
        let new_total_cost := pos_total_cost self + trd_total trade in
        let new_quantity := pos_quantity self + trd_quantity trade in
        let avg :=
          if 0 <? new_quantity then new_total_cost / new_quantity
          else pos_avg_price self in
        mkPosition new_quantity avg (pos_realized_pnl self)
                   (pos_unrealized_pnl self) new_total_cost
                   (pos_total_commission self)
    | TradeExecutor.SELL =>
        if 0 <? pos_quantity self then
          let sell_cost := trd_quantity trade * pos_avg_price self in
          let realized_pnl := trd_total trade - sell_cost in
          let realized := pos_realized_pnl self + realized_pnl in
          let quantity := pos_quantity self - trd_quantity trade in
          if quantity <=? 0 then
            mkPosition 0 0 realized (pos_unrealized_pnl self) 0
                       (pos_total_commission self)
          else
            mkPosition quantity (pos_avg_price self) realized
                       (pos_unrealized_pnl self)
                       (pos_total_cost self - sell_cost)
                       (pos_total_commission self)
        else self
    end in
  mkPosition (pos_quantity self1) (pos_avg_price self1)
             (pos_realized_pnl self1) (pos_unrealized_pnl self1)
             (pos_total_cost self1)
             (pos_total_commission self1 + trd_commission trade).

(** The attributes of the executor that a fill reads or writes. *)
Record t := mkLedger {
  available_balance : float;
  positions : gmap string Position;
  commission_rate : float;
  slippage : float;
  winning_trades : nat;
  losing_trades : nat
}.

(** [TradeExecutor.__init__] *)
Definition init (initial_balance commission_rate slippage : float) : t :=
  mkLedger initial_balance ∅ commission_rate slippage 0 0.

(** [_update_balance_and_position] *)
Definition _update_balance_and_position (st : t) (trade : Trade) : t :=
  let symbol := trd_symbol trade in
  let position0 :=
    match positions st !! symbol with
    | Some p => p
    | None => new_Position
    end in
  let position := update_position position0 trade in
  let positions' := <[symbol := position]> (positions st) in
  match trd_side trade with
  | TradeExecutor.BUY =>
      mkLedger (available_balance st - (trd_total trade + trd_commission trade))
               positions' (commission_rate st) (slippage st)
               (winning_trades st) (losing_trades st)
  | TradeExecutor.SELL =>
      let win := 0 <? pos_realized_pnl position in
      mkLedger (available_balance st + (trd_total trade - trd_commission trade))
               positions' (commission_rate st) (slippage st)
               (if win then S (winning_trades st) else winning_trades st)
               (if win then losing_trades st else S (losing_trades st))
  end.

(** [_execute_order] for an order of the given symbol, side and quantity:
    slippage, commission, the trade, and the update of balance and
    position. *)
Definition _execute_order (st : t) (symbol : string) (side : TradeExecutor.OrderSide)
    (quantity execution_price : float) : t :=
  let execution_price :=
    match side with
    | TradeExecutor.BUY => execution_price * (1 + slippage st)
    | TradeExecutor.SELL => execution_price * (1 - slippage st)
    end in
  let trade_value := quantity * execution_price in
  let commission := trade_value * commission_rate st in
  let trade := new_Trade symbol side quantity execution_price commission in
  _update_balance_and_position st trade.

(** A BUY fill of [q] at [p] followed by a SELL fill of [q] at [p], with no
    slippage and no commission, from a balance of [balance] and no
    position. *)
Definition round_trip (balance q p : float) : t :=
  let st := init balance 0 0 in
  let st1 := _execute_order st "BTCUSDT" TradeExecutor.BUY q p in
  _execute_order st1 "BTCUSDT" TradeExecutor.SELL q p.

End Doubles.

(** ** portfolio_manager.py *)

Module PortfolioManager.
Import Num.
Local Open Scope Q_scope.

(** A position is the dictionary [{'quantity': .., 'avg_price': ..}]. *)
Record PositionEntry := mkEntry {
  quantity : Q;
  avg_price : Q
}.

(** One element of [trade_history] (without its timestamp). *)
Record TradeRecord := mkRecord {
  rec_symbol : string;
  rec_side : string;
  rec_quantity : Q;
  rec_price : Q;
  rec_total : Q
}.

(** One element of [balance_history] (without its timestamp). *)
Record BalanceRecord := mkBalance {
  bal_total_value : Q;
  bal_available_balance : Q;
  bal_position_value : Q
}.

Record t := mkPortfolio {
  initial_balance : Q;
  available_balance : Q;
  positions : gmap string PositionEntry;
  trade_history : list TradeRecord;
  balance_history : list BalanceRecord
}.

(** [PortfolioManager.__init__] *)
Definition init (initial_balance : Q) : t :=
  mkPortfolio initial_balance initial_balance ∅ []
              [mkBalance initial_balance initial_balance 0].

(** [get_position] *)
Definition get_position (self : t) (symbol : string) : PositionEntry :=
  match positions self !! symbol with
  | Some p => p
  | None => mkEntry 0 0
  end.

(** [update_position]: the returned boolean is the value the source returns
    ([False] after logging 持仓不足, [True] at the end).  The entry of the
    symbol is created before the side is looked at, and stays. *)
Definition update_position (self : t) (symbol side : string)
    (quantity price : Q) : bool * t :=
  let position :=
    match positions self !! symbol with
    | Some p => p
    | None => mkEntry 0 0
    end in
  let record := mkRecord symbol side quantity price (quantity * price) in
  if String.eqb side "BUY" then
    let total_cost :=
      PortfolioManager.quantity position * avg_price position
      + quantity * price in
    let total_quantity := PortfolioManager.quantity position + quantity in
    let avg :=
      if Qgtb total_quantity 0 then total_cost / total_quantity
      else avg_price position in
    (true,
     mkPortfolio (initial_balance self)
                 (available_balance self - quantity * price)
                 (<[symbol := mkEntry total_quantity avg]> (positions self))
                 (trade_history self ++ [record])
                 (balance_history self))
  else if String.eqb side "SELL" then
    if Qgeb (PortfolioManager.quantity position) quantity then
      let q' := PortfolioManager.quantity position - quantity in
      let avg := if Qeq_bool q' 0 then 0 else avg_price position in
      (true,
       mkPortfolio (initial_balance self)
                   (available_balance self + quantity * price)
                   (<[symbol := mkEntry q' avg]> (positions self))
                   (trade_history self ++ [record])
                   (balance_history self))
    else
      (false,
       mkPortfolio (initial_balance self) (available_balance self)
                   (<[symbol := position]> (positions self))
                   (trade_history self) (balance_history self))
  else
    (true,
     mkPortfolio (initial_balance self) (available_balance self)
                 (<[symbol := position]> (positions self))
                 (trade_history self ++ [record])
                 (balance_history self)).

(** [get_total_value] *)
Definition get_total_value (self : t) (current_prices : gmap string Q) : Q :=
  available_balance self +
  map_fold (fun symbol position position_value =>
              if Qgtb (PortfolioManager.quantity position) 0 then
                match current_prices !! symbol with
                | Some price =>
                    position_value + PortfolioManager.quantity position * price
                | None => position_value
                end
              else position_value)
           0 (positions self).

(** [_calculate_trade_pnl]: 这里需要更复杂的逻辑来匹配买卖订单; the source
    returns [0.0] for every trade. *)
Definition _calculate_trade_pnl (self : t) (trade : TradeRecord) : Q := 0.

(** [_calculate_unrealized_pnl] *)
Definition _calculate_unrealized_pnl (self : t) (current_prices : gmap string Q)
    : Q :=
  map_fold (fun symbol position unrealized_pnl =>
              if Qgtb (PortfolioManager.quantity position) 0 then
                match current_prices !! symbol with
                | Some price =>
                    unrealized_pnl
                    + (PortfolioManager.quantity position * price
                       - PortfolioManager.quantity position
                         * avg_price position)
                | None => unrealized_pnl
                end
              else unrealized_pnl)
           0 (positions self).

(** The dictionary returned by [get_portfolio_summary]. *)
Record Summary := mkSummary {
  sum_total_value : Q;
  sum_available_balance : Q;
  sum_position_value : Q;
  sum_unrealized_pnl : Q;
  sum_total_pnl : Q;
  sum_total_return_pct : Q;
  sum_win_rate : Q;
  sum_total_trades : nat
}.

Definition is_sell (trade : TradeRecord) : bool :=
  String.eqb (rec_side trade) "SELL".

(** [get_portfolio_summary]; [None] is the ZeroDivisionError of
    [total_pnl / self.initial_balance] for an initial balance of 0. *)
Definition get_portfolio_summary (self : t) (current_prices : gmap string Q)
    : option Summary :=
  let total_value := get_total_value self current_prices in
  let position_value := total_value - available_balance self in
  let total_pnl := total_value - initial_balance self in
  let profitable_trades :=
    length (List.filter
              (fun trade => is_sell trade
                            && Qgtb (_calculate_trade_pnl self trade) 0)
              (trade_history self)) in
  let sell_trades := length (List.filter is_sell (trade_history self)) in
  let win_rate :=
    inject_Z (Z.of_nat profitable_trades)
    / inject_Z (Z.of_nat (Nat.max sell_trades 1)) * 100 in
  if Qeq_bool (initial_balance self) 0 then None
  else
    Some (mkSummary total_value (available_balance self) position_value
                    (_calculate_unrealized_pnl self current_prices) total_pnl
                    (total_pnl / initial_balance self * 100) win_rate
                    (length (List.filter is_sell (trade_history self)))).

End PortfolioManager.

(** ** risk_manager.py *)

Module RiskManager.
Import Num.
Local Open Scope Q_scope.

(** What [check_position_risk] reports: the log line of [_trigger_stop_loss]
    (执行止损) or of [_trigger_take_profit] (执行止盈).  The source sends no
    order; the log line is the whole liquidation intent. *)
Inductive RiskEvent :=
  | StopLossTriggered (symbol : string) (current_price : Q)
  | TakeProfitTriggered (symbol : string) (current_price : Q).

(** Calendar days are numbered. *)
Record t := mkRisk {
  daily_trades : gmap nat nat;
  daily_loss : gmap nat Q;
  position_limits : gmap string Q;
  stop_loss_orders : gmap string Q;
  take_profit_orders : gmap string Q;
  max_position_size : Q;
  stop_loss_pct : Q;
  take_profit_pct : Q;
  max_daily_trades : nat;
  max_daily_loss_pct : Q
}.

(** [RiskManager.__init__] *)
Definition init : t :=
  mkRisk ∅ ∅ ∅ ∅ ∅ Config.MAX_POSITION_SIZE
         (Config.STOP_LOSS_PCT / 100) (Config.TAKE_PROFIT_PCT / 100)
         Config.MAX_DAILY_TRADES (Config.MAX_DAILY_LOSS_PCT / 100).

(** [_check_position_limit]: the limit is a fraction of [INITIAL_BALANCE]
    (这里需要获取当前总资产价值来计算仓位比例 / 简化实现，假设总资产为初始资金). *)
Definition _check_position_limit (self : t) (symbol : string)
    (position_value : Q) : bool :=
  let max_position_value := Config.INITIAL_BALANCE * max_position_size self in
  if Qgtb position_value max_position_value then false else true.

(** [can_trade]; [today] is [datetime.now().date()], and [None] for
    [quantity] or [current_price] is the default argument. *)
Definition can_trade (self : t) (today : nat) (symbol side : string)
    (quantity current_price : option Q) : bool :=
  let daily_count := default 0%nat (daily_trades self !! today) in
  if (max_daily_trades self <=? daily_count)%nat then false
  else
    let daily_loss := default 0 (daily_loss self !! today) in
    if Qgeb daily_loss (max_daily_loss_pct self) then false
    else
      match quantity, current_price with
      | Some q, Some p =>
          if String.eqb side "BUY" && Qtruthy q && Qtruthy p then
            let position_value := q * p in
            if negb (_check_position_limit self symbol position_value)
            then false else true
          else true
      | _, _ => true
      end.

(** [record_trade] *)
Definition record_trade (self : t) (today : nat) (symbol side : string)
    (quantity price : Q) : t :=
  mkRisk (<[today := S (default 0%nat (daily_trades self !! today))]>
            (daily_trades self))
         (daily_loss self) (position_limits self) (stop_loss_orders self)
         (take_profit_orders self) (max_position_size self)
         (stop_loss_pct self) (take_profit_pct self) (max_daily_trades self)
         (max_daily_loss_pct self).

Definition set_stops (sl tp : gmap string Q) (self : t) : t :=
  mkRisk (daily_trades self) (daily_loss self) (position_limits self) sl tp
         (max_position_size self) (stop_loss_pct self) (take_profit_pct self)
         (max_daily_trades self) (max_daily_loss_pct self).

(** [_trigger_stop_loss] *)
Definition _trigger_stop_loss (self : t) (symbol : string) (current_price : Q)
    : list RiskEvent * t :=
  ([StopLossTriggered symbol current_price],
   set_stops (delete symbol (stop_loss_orders self)) (take_profit_orders self)
             self).

(** [_trigger_take_profit] *)
Definition _trigger_take_profit (self : t) (symbol : string)
    (current_price : Q) : list RiskEvent * t :=
  ([TakeProfitTriggered symbol current_price],
   set_stops (stop_loss_orders self) (delete symbol (take_profit_orders self))
             self).

(** [check_position_risk] *)
Definition check_position_risk (self : t) (symbol : string)
    (current_price : Q) : list RiskEvent * t :=
  let '(ev1, self1) :=
    match stop_loss_orders self !! symbol with
    | Some stop_price =>
        if Qleb current_price stop_price
        then _trigger_stop_loss self symbol current_price
        else ([], self)
    | None => ([], self)
    end in
  let '(ev2, self2) :=
    match take_profit_orders self1 !! symbol with
    | Some target_price =>
        if Qgeb current_price target_price
        then _trigger_take_profit self1 symbol current_price
        else ([], self1)
    | None => ([], self1)
    end in
  (ev1 ++ ev2, self2).

(** [set_stop_loss]; [side] defaults to ['LONG']. *)
Definition set_stop_loss (self : t) (symbol : string) (entry_price : Q)
    (side : string) : t :=
  let stop_price :=
    if String.eqb side "LONG" then entry_price * (1 - stop_loss_pct self)
    else entry_price * (1 + stop_loss_pct self) in
  set_stops (<[symbol := stop_price]> (stop_loss_orders self))
            (take_profit_orders self) self.

(** [set_take_profit] *)
Definition set_take_profit (self : t) (symbol : string) (entry_price : Q)
    (side : string) : t :=
  let target_price :=
    if String.eqb side "LONG" then entry_price * (1 + take_profit_pct self)
    else entry_price * (1 - take_profit_pct self) in
  set_stops (stop_loss_orders self)
            (<[symbol := target_price]> (take_profit_orders self)) self.

(** A run of price ticks through [check_position_risk], collecting what each
    tick reports. *)
Fixpoint run_ticks (self : t) (ticks : list (string * Q))
    : list (list RiskEvent) * t :=
  match ticks with
  | [] => ([], self)
  | (symbol, price) :: rest =>
      let '(ev, self1) := check_position_risk self symbol price in
      let '(evs, self2) := run_ticks self1 rest in
      (ev :: evs, self2)
  end.

Definition is_stop_loss_for (symbol : string) (e : RiskEvent) : bool :=
  match e with
  | StopLossTriggered s _ => String.eqb s symbol
  | TakeProfitTriggered _ _ => false
  end.

Definition is_take_profit_for (symbol : string) (e : RiskEvent) : bool :=
  match e with
  | StopLossTriggered _ _ => false
  | TakeProfitTriggered s _ => String.eqb s symbol
  end.

(** [reset_daily_limits].  Day 0 is [date.min], where
    [today - timedelta(days=1)] raises OverflowError ([None]). *)
Definition reset_daily_limits (self : t) (today : nat) : option t :=
  match today with
  | O => None
  | S yesterday =>
      Some (mkRisk (delete yesterday (daily_trades self))
                   (delete yesterday (daily_loss self))
                   (position_limits self) (stop_loss_orders self)
                   (take_profit_orders self) (max_position_size self)
                   (stop_loss_pct self) (take_profit_pct self)
                   (max_daily_trades self) (max_daily_loss_pct self))
  end.

(** The dictionary returned by [get_risk_metrics]. *)
Record RiskMetrics := mkMetrics {
  m_daily_trades : nat;
  m_max_daily_trades : nat;
  m_daily_loss : Q;
  m_max_daily_loss : Q;
  m_active_stop_losses : nat;
  m_active_take_profits : nat;
  m_max_position_size : Q
}.

(** [get_risk_metrics] *)
Definition get_risk_metrics (self : t) (today : nat) : RiskMetrics :=
  mkMetrics (default 0%nat (daily_trades self !! today))
            (max_daily_trades self)
            (default 0 (daily_loss self !! today))
            (max_daily_loss_pct self)
            (size (stop_loss_orders self))
            (size (take_profit_orders self))
            (max_position_size self).

(** A run of [record_trade] calls on one day. *)
Fixpoint record_trades (self : t) (today : nat)
    (trades : list (string * string * Q * Q)) : t :=
  match trades with
  | [] => self
  | (symbol, side, quantity, price) :: rest =>
      record_trades (record_trade self today symbol side quantity price)
                    today rest
  end.

(** The states a risk manager goes through: created by [__init__], then
    moved by its methods. *)
Inductive reachable : t -> Prop :=
  | reach_init : reachable init
  | reach_record_trade self today symbol side quantity price :
      reachable self ->
      reachable (record_trade self today symbol side quantity price)
  | reach_check_position_risk self symbol current_price :
      reachable self ->
      reachable (snd (check_position_risk self symbol current_price))
  | reach_set_stop_loss self symbol entry_price side :
      reachable self -> reachable (set_stop_loss self symbol entry_price side)
  | reach_set_take_profit self symbol entry_price side :
      reachable self ->
      reachable (set_take_profit self symbol entry_price side)
  | reach_reset_daily_limits self today self' :
      reachable self -> reset_daily_limits self today = Some self' ->
      reachable self'.

End RiskManager.

(** ** Floating-point values of indicator series *)

Module Float.
Import Num.
Local Open Scope Q_scope.

(** A float64 without rounding: a rational, an infinity or NaN. *)
Inductive fval := Fin (q : Q) | PInf | NInf | NaN.

Definition fneg (x : fval) : fval :=
  match x with
  | Fin q => Fin (- q) | PInf => NInf | NInf => PInf | NaN => NaN
  end.

Definition fabs (x : fval) : fval :=
  match x with
  | Fin q => Fin (Qabs q) | PInf | NInf => PInf | NaN => NaN
  end.

Definition fadd (x y : fval) : fval :=
  match x, y with
  | NaN, _ | _, NaN => NaN
  | Fin a, Fin b => Fin (a + b)
  | PInf, NInf | NInf, PInf => NaN
  | PInf, _ | _, PInf => PInf
  | NInf, _ | _, NInf => NInf
  end.

Definition fsub (x y : fval) : fval := fadd x (fneg y).

(** Sign of a rational as an infinity; [NaN] for zero. *)
Definition inf_of_sign (q : Q) : fval :=
  if Qgtb q 0 then PInf else if Qltb q 0 then NInf else NaN.

Definition fmul (x y : fval) : fval :=
  match x, y with
  | NaN, _ | _, NaN => NaN
  | Fin a, Fin b => Fin (a * b)
  | Fin a, PInf | PInf, Fin a => inf_of_sign a
  | Fin a, NInf | NInf, Fin a => inf_of_sign (- a)
  | PInf, PInf | NInf, NInf => PInf
  | PInf, NInf | NInf, PInf => NInf
  end.

(** numpy division: a zero divisor gives an infinity or NaN, never an
    exception (the zero is taken as positive). *)
Definition fdiv (x y : fval) : fval :=
  match x, y with
  | NaN, _ | _, NaN => NaN
  | Fin a, Fin b => if Qeq_bool b 0 then inf_of_sign a else Fin (a / b)
  | Fin _, PInf | Fin _, NInf => Fin 0
  | PInf, Fin b => if Qltb b 0 then NInf else PInf
  | NInf, Fin b => if Qltb b 0 then PInf else NInf
  | _, _ => NaN
  end.

(** Comparisons; every comparison with NaN is [False]. *)
Definition fle (x y : fval) : bool :=
  match x, y with
  | NaN, _ | _, NaN => false
  | Fin a, Fin b => Qleb a b
  | NInf, _ | _, PInf => true
  | _, _ => false
  end.

Definition flt (x y : fval) : bool :=
  match x, y with
  | NaN, _ | _, NaN => false
  | Fin a, Fin b => Qltb a b
  | PInf, _ | _, NInf => false
  | _, _ => true
  end.

Definition fge (x y : fval) : bool := fle y x.
Definition fgt (x y : fval) : bool := flt y x.

(** Python's [min(a, b)]: [b] when [b < a], else [a]. *)
Definition fmin (a b : fval) : fval := if flt b a then b else a.

Definition fsum (xs : list fval) : fval := foldr fadd (Fin 0) xs.

Definition of_nat (n : nat) : fval := Fin (inject_Z (Z.of_nat n)).

End Float.

(** ** pandas: the DataFrame and the Series operations the strategies use *)

Module Pandas.
Import Num Float.
Local Open Scope Q_scope.

(** A frame: the length of its index and its columns by name. *)
Record DataFrame := mkFrame {
  rows : nat;
  columns : gmap string (list fval)
}.

(** Every column of a frame is as long as its index. *)
Definition well_formed (data : DataFrame) : Prop :=
  forall name series, columns data !! name = Some series ->
                      length series = rows data.

(** [data[name] = series] *)
Definition set_column (data : DataFrame) (name : string) (series : list fval)
    : DataFrame :=
  mkFrame (rows data) (<[name := series]> (columns data)).

(** [series.iloc[-k]] for [k >= 1]; [None] is IndexError. *)
Definition iloc_back (k : nat) (series : list fval) : option fval :=
  if (length series <? k)%nat then None
  else series !! (length series - k)%nat.

(** What pandas does to a series before it rolls a window over it
    ([BaseWindow._prep_values]): an infinity becomes NaN. *)
Definition prep_value (x : fval) : fval :=
  match x with
  | Fin q => Fin q
  | PInf | NInf | NaN => NaN
  end.

(** [series.rolling(window=w).mean()]: entry [i] is the mean of the [w]
    entries ending at [i]; NaN while fewer than [w] entries are available,
    for an empty window, or when the window holds a NaN or an infinity. *)
Definition rolling_mean (w : nat) (series : list fval) : list fval :=
  imap (fun i _ =>
          if (w =? 0)%nat || (S i <? w)%nat then NaN
          else fdiv (fsum (take w (drop (S i - w) (map prep_value series))))
                    (of_nat w))
       series.

(** [series.diff()] *)
Definition diff (series : list fval) : list fval :=
  match series with
  | [] => []
  | _ :: rest => NaN :: zip_with fsub rest series
  end.

(** [series.where(cond, 0)] *)
Definition where_ (cond : fval -> bool) (series : list fval) : list fval :=
  map (fun x => if cond x then x else Fin 0) series.

(** [x == x], the test pandas uses for "is an observation": false for NaN
    only. *)
Definition is_observation (x : fval) : bool :=
  match x with NaN => false | _ => true end.

(** [x == y] on floats. *)
Definition feq (x y : fval) : bool :=
  match x, y with
  | Fin a, Fin b => Qeq_bool a b
  | PInf, PInf | NInf, NInf => true
  | _, _ => false
  end.

(** The loop of pandas' [ewm] kernel for [adjust=True], [ignore_na=False]
    and [min_periods=0], from the second entry on: [weighted] is the average
    so far, [old_wt] the weight it carries, [seen] whether an observation
    has been met.  The average of observations [x_0 .. x_t] is
    [(x_t + (1-a) x_{t-1} + ...) / (1 + (1-a) + ...)]; a NaN entry repeats
    the average and ages its weight. *)
Fixpoint ewm_from (a : Q) (weighted : fval) (old_wt : Q) (seen : bool)
    (series : list fval) : list fval :=
  match series with
  | [] => []
  | cur :: rest =>
      let seen' := seen || is_observation cur in
      let '(weighted', old_wt') :=
        if is_observation weighted then
          let old_wt := old_wt * (1 - a) in
          if is_observation cur then
            ((if feq weighted cur then weighted
              else fdiv (fadd (fmul (Fin old_wt) weighted) (fmul (Fin 1) cur))
                        (Fin (old_wt + 1))),
             old_wt + 1)
          else (weighted, old_wt)
        else if is_observation cur then (cur, old_wt)
        else (weighted, old_wt) in
      (if seen' then weighted' else NaN)
        :: ewm_from a weighted' old_wt' seen' rest
  end.

(** [series.ewm(span=s).mean()], [a = 2/(s+1)].  [None] is the ValueError
    that pandas raises for [span < 1]. *)
Definition ewm_mean (span : nat) (series : list fval) : option (list fval) :=
  if (span <? 1)%nat then None
  else
    let a := 2 / (inject_Z (Z.of_nat span) + 1) in
    match series with
    | [] => Some []
    | x :: rest =>
        Some ((if is_observation x then x else NaN)
                :: ewm_from a x 1 (is_observation x) rest)
    end.

End Pandas.

(** ** trading_strategy.py *)

Module TradingStrategy.
Import Num Float Pandas.
Local Open Scope Q_scope.

Inductive MetaValue := MFloat (x : fval) | MText (s : string).

(** class TradingSignal (without its timestamp) *)
Record TradingSignal := mkSignal {
  signal_type : string;
  strength : fval;
  price : fval;
  metadata : list (string * MetaValue)
}.

(** The attributes of the base class [TradingStrategy]. *)
Record Base := mkBase {
  name : string;
  signals_history : list TradingSignal;
  last_signal : option TradingSignal
}.

Definition new_Base (name : string) : Base := mkBase name [] None.

(** [validate_data] for a frame that is not [None]. *)
Definition validate_data (data : DataFrame) : bool :=
  if (rows data =? 0)%nat then false
  else
    forallb (fun col => bool_decide (is_Some (columns data !! col)))
            ["open"; "high"; "low"; "close"; "volume"]%string.

(** [add_signal] *)
Definition add_signal (self : Base) (signal : TradingSignal) : Base :=
  let history := signals_history self ++ [signal] in
  let history' :=
    if (1000 <? length history)%nat
    then drop (length history - 1000) history else history in
  mkBase (name self) history' (Some signal).

(** *** class DualMAStrategy *)

Record DualMAStrategy := mkDualMA {
  dma_base : Base;
  short_period : nat;
  long_period : nat;
  signal_threshold : Q;
  last_ma_cross : option string
}.

(** The [try] block of [DualMAStrategy.generate_signal] up to the signal and
    the cross it records; [None] is "no signal" or a caught exception. *)
Definition dual_ma_signal (self : DualMAStrategy) (data : DataFrame)
    : option (TradingSignal * string) :=
  close ← columns data !! "close"%string;
  let short_ma := rolling_mean (short_period self) close in
  let long_ma := rolling_mean (long_period self) close in
  current_short ← iloc_back 1 short_ma;
  current_long ← iloc_back 1 long_ma;
  prev_short ← (if (1 <? length short_ma)%nat then iloc_back 2 short_ma
                 else Some current_short);
  prev_long ← (if (1 <? length long_ma)%nat then iloc_back 2 long_ma
                else Some current_long);
  current_price ← iloc_back 1 close;
  let gap := fdiv (fabs (fsub current_short current_long)) current_long in
  let threshold := Fin (signal_threshold self / 100) in
  if fle prev_short prev_long && fgt current_short current_long
     && fgt gap threshold then
    Some (mkSignal "BUY" (fmin (fmul gap (Fin 10)) (Fin 1)) current_price
                   [("short_ma", MFloat current_short);
                    ("long_ma", MFloat current_long);
                    ("cross_type", MText "golden_cross")]%string,
          "golden"%string)
  else if fge prev_short prev_long && flt current_short current_long
          && fgt gap threshold then
    Some (mkSignal "SELL" (fmin (fmul gap (Fin 10)) (Fin 1)) current_price
                   [("short_ma", MFloat current_short);
                    ("long_ma", MFloat current_long);
                    ("cross_type", MText "death_cross")]%string,
          "death"%string)
  else None.

(** [DualMAStrategy.generate_signal]; the frame is only read. *)
Definition dual_ma_generate_signal (self : DualMAStrategy) (data : DataFrame)
    : option TradingSignal * DualMAStrategy :=
  if negb (validate_data data)
     || (rows data <? Nat.max (short_period self) (long_period self))%nat
  then (None, self)
  else
    match dual_ma_signal self data with
    | Some (signal, cross) =>
        (Some signal,
         mkDualMA (add_signal (dma_base self) signal) (short_period self)
                  (long_period self) (signal_threshold self) (Some cross))
    | None => (None, self)
    end.

(** *** class RSIStrategy *)

Record RSIStrategy := mkRSI {
  rsi_base : Base;
  period : nat;
  overbought : Q;
  oversold : Q
}.

(** [_calculate_rsi] *)
Definition _calculate_rsi (prices : list fval) (period : nat) : list fval :=
  let delta := diff prices in
  let gain := rolling_mean period (where_ (fun d => fgt d (Fin 0)) delta) in
  let loss :=
    rolling_mean period (map fneg (where_ (fun d => flt d (Fin 0)) delta)) in
  let rs := zip_with fdiv gain loss in
  map (fun r => fsub (Fin 100) (fdiv (Fin 100) (fadd (Fin 1) r))) rs.

(** The first statement of the [try] block: the column is computed and
    stored in the caller's frame when the frame has none. *)
Definition rsi_prepare (self : RSIStrategy) (data : DataFrame)
    : option DataFrame :=
  match columns data !! "rsi"%string with
  | Some _ => Some data
  | None =>
      close ← columns data !! "close"%string;
      Some (set_column data "rsi" (_calculate_rsi close (period self)))
  end.

(** The rest of the [try] block, on the prepared frame. *)
Definition rsi_signal (self : RSIStrategy) (data : DataFrame)
    : option TradingSignal :=
  rsi ← columns data !! "rsi"%string;
  current_rsi ← iloc_back 1 rsi;
  prev_rsi ← (if (1 <? rows data)%nat then iloc_back 2 rsi
               else Some current_rsi);
  close ← columns data !! "close"%string;
  current_price ← iloc_back 1 close;
  if fge prev_rsi (Fin (oversold self))
     && flt current_rsi (Fin (oversold self)) then
    let strength :=
      fdiv (fsub (Fin (oversold self)) current_rsi) (Fin (oversold self)) in
    Some (mkSignal "BUY" (fmin strength (Fin 1)) current_price
                   [("rsi", MFloat current_rsi);
                    ("condition", MText "oversold")]%string)
  else if fle prev_rsi (Fin (overbought self))
          && fgt current_rsi (Fin (overbought self)) then
    let strength :=
      fdiv (fsub current_rsi (Fin (overbought self)))
           (Fin (100 - overbought self)) in
    Some (mkSignal "SELL" (fmin strength (Fin 1)) current_price
                   [("rsi", MFloat current_rsi);
                    ("condition", MText "overbought")]%string)
  else None.

(** [RSIStrategy.generate_signal]: the signal, the strategy and the frame
    after the call. *)
Definition rsi_generate_signal (self : RSIStrategy) (data : DataFrame)
    : option TradingSignal * RSIStrategy * DataFrame :=
  if negb (validate_data data) || (rows data <? period self + 1)%nat
  then (None, self, data)
  else
    match rsi_prepare self data with
    | None => (None, self, data)
    | Some data1 =>
        match rsi_signal self data1 with
        | Some signal =>
            (Some signal,
             mkRSI (add_signal (rsi_base self) signal) (period self)
                   (overbought self) (oversold self),
             data1)
        | None => (None, self, data1)
        end
    end.

(** *** class MACDStrategy *)

Record MACDStrategy := mkMACD {
  macd_base : Base;
  fast_period : nat;
  slow_period : nat;
  signal_period : nat
}.

(** [_calculate_macd]: the columns macd, signal and histogram. *)
Definition _calculate_macd (self : MACDStrategy) (prices : list fval)
    : option (list fval * list fval * list fval) :=
  ema_fast ← ewm_mean (fast_period self) prices;
  ema_slow ← ewm_mean (slow_period self) prices;
  let macd := zip_with fsub ema_fast ema_slow in
  macd_signal ← ewm_mean (signal_period self) macd;
  let histogram := zip_with fsub macd macd_signal in
  Some (macd, macd_signal, histogram).

(** The first statement of the [try] block: three columns are stored in the
    caller's frame when it has no [macd] column. *)
Definition macd_prepare (self : MACDStrategy) (data : DataFrame)
    : option DataFrame :=
  match columns data !! "macd"%string with
  | Some _ => Some data
  | None =>
      close ← columns data !! "close"%string;
      '(macd, macd_signal, histogram) ← _calculate_macd self close;
      Some (set_column
              (set_column (set_column data "macd" macd)
                          "macd_signal" macd_signal)
              "macd_histogram" histogram)
  end.

(** The rest of the [try] block, on the prepared frame. *)
Definition macd_signal_of (self : MACDStrategy) (data : DataFrame)
    : option TradingSignal :=
  macd ← columns data !! "macd"%string;
  current_macd ← iloc_back 1 macd;
  sig ← columns data !! "macd_signal"%string;
  current_signal ← iloc_back 1 sig;
  hist ← columns data !! "macd_histogram"%string;
  current_histogram ← iloc_back 1 hist;
  prev_histogram ← (if (1 <? rows data)%nat then iloc_back 2 hist
                     else Some current_histogram);
  close ← columns data !! "close"%string;
  current_price ← iloc_back 1 close;
  let strength :=
    fmin (fmul (fdiv (fabs current_histogram) (fabs current_signal)) (Fin 2))
         (Fin 1) in
  if fle prev_histogram (Fin 0) && fgt current_histogram (Fin 0) then
    Some (mkSignal "BUY" strength current_price
                   [("macd", MFloat current_macd);
                    ("signal", MFloat current_signal);
                    ("histogram", MFloat current_histogram);
                    ("cross_type", MText "bullish")]%string)
  else if fge prev_histogram (Fin 0) && flt current_histogram (Fin 0) then
    Some (mkSignal "SELL" strength current_price
                   [("macd", MFloat current_macd);
                    ("signal", MFloat current_signal);
                    ("histogram", MFloat current_histogram);
                    ("cross_type", MText "bearish")]%string)
  else None.

(** [MACDStrategy.generate_signal] *)
Definition macd_generate_signal (self : MACDStrategy) (data : DataFrame)
    : option TradingSignal * MACDStrategy * DataFrame :=
  let min_periods :=
    (Nat.max (slow_period self) (signal_period self) + 1)%nat in
  if negb (validate_data data) || (rows data <? min_periods)%nat
  then (None, self, data)
  else
    match macd_prepare self data with
    | None => (None, self, data)
    | Some data1 =>
        match macd_signal_of self data1 with
        | Some signal =>
            (Some signal,
             mkMACD (add_signal (macd_base self) signal) (fast_period self)
                    (slow_period self) (signal_period self),
             data1)
        | None => (None, self, data1)
        end
    end.

(** *** The signal generators as one tagged type *)

Inductive Strategy :=
  | DualMA (s : DualMAStrategy)
  | RSI (s : RSIStrategy)
  | MACD (s : MACDStrategy).

(** [strategy.generate_signal(data)] by dynamic dispatch. *)
Definition generate_signal (self : Strategy) (data : DataFrame)
    : option TradingSignal * Strategy * DataFrame :=
  match self with
  | DualMA s =>
      let '(r, s') := dual_ma_generate_signal s data in (r, DualMA s', data)
  | RSI s =>
      let '(r, s', data') := rsi_generate_signal s data in (r, RSI s', data')
  | MACD s =>
      let '(r, s', data') := macd_generate_signal s data in (r, MACD s', data')
  end.

(** The periods a generator is configured with. *)
Definition periods (self : Strategy) : list nat :=
  match self with
  | DualMA s => [short_period s; long_period s]
  | RSI s => [period s]
  | MACD s => [fast_period s; slow_period s; signal_period s]
  end.

(** The periods the generator's own length guard looks at. *)
Definition guard_periods (self : Strategy) : list nat :=
  match self with
  | DualMA s => [short_period s; long_period s]
  | RSI s => [period s]
  | MACD s => [slow_period s; signal_period s]
  end.

(** The columns a generator may store in the caller's frame. *)
Definition indicator_columns : list string :=
  ["rsi"; "macd"; "macd_signal"; "macd_histogram"]%string.


(** The cross a dual-MA signal records: ['golden'] with a BUY, ['death']
    with a SELL. *)
Definition cross_of (signal : TradingSignal) : string :=
  if String.eqb (signal_type signal) "BUY" then "golden" else "death".


(** A signal is well-shaped for a frame when it is a BUY or a SELL and its
    price is the last close of the frame. *)
Definition buy_or_sell_at_close (data : DataFrame) (signal : TradingSignal)
    : Prop :=
  (signal_type signal = "BUY"%string \/ signal_type signal = "SELL"%string) /\
  exists close,
    columns data !! "close"%string = Some close /\
    iloc_back 1 close = Some (price signal).

Definition is_finite (x : fval) : bool :=
  match x with Fin _ => true | _ => false end.

(** What a call may do to the caller's frame: the index is kept and so is
    every column that is not an indicator column. *)
Definition same_outside_indicators (data data' : DataFrame) : Prop :=
  rows data' = rows data /\
  forall name, name ∉ indicator_columns ->
               columns data' !! name = columns data !! name.

End TradingStrategy.

(** ** trading_strategy.py: CombinedStrategy and StrategyManager

    Strategy objects are shared: the manager's dictionary, its active
    strategy and the combined strategy all hold references to the same
    generator objects.  The generators therefore live in a store, addressed
    by position, and the holders keep addresses. *)

Module StrategyManager.
Import Num Float Pandas TradingStrategy.
Local Open Scope Q_scope.

(** class CombinedStrategy.  [cmb_strategies] are the addresses of its
    generators (DualMA, RSI or MACD objects); a combined strategy inside
    another one is not modelled. *)
Record CombinedStrategy := mkCombined {
  cmb_base : Base;
  cmb_strategies : list nat;
  cmb_weights : list Q
}.

(** [CombinedStrategy.__init__]; [None] is the ValueError for weights and
    strategies of different lengths, and no weights means weight 1 each. *)
Definition new_Combined (strategies : list nat) (weights : option (list Q))
    : option CombinedStrategy :=
  let weights :=
    match weights with
    | Some (w :: ws) => w :: ws
    | _ => repeat 1 (length strategies)
    end in
  if (length weights =? length strategies)%nat
  then Some (mkCombined (new_Base "CombinedStrategy") strategies weights)
  else None.

(** [strategy.generate_signal(data)] on the generator at address [r]: the
    object in the store is the one that changes. *)
Definition call_generator (store : list Strategy) (r : nat) (data : DataFrame)
    : option TradingSignal * list Strategy * DataFrame :=
  match store !! r with
  | Some s =>
      let '(signal, s', data') := generate_signal s data in
      (signal, <[r := s']> store, data')
  | None => (None, store, data)
  end.

(** The first loop of [CombinedStrategy.generate_signal], from index [i] on:
    each generator is called on the same frame, and the signals are
    collected with their weights.  [None] in the first component is the
    IndexError of [self.weights[i]]; the loop stops there. *)
Fixpoint collect_signals (weights : list Q) (i : nat) (children : list nat)
    (store : list Strategy) (data : DataFrame)
    (collected : list (TradingSignal * Q))
    : option (list (TradingSignal * Q)) * list Strategy * DataFrame :=
  match children with
  | [] => (Some collected, store, data)
  | r :: rest =>
      let '(signal, store', data') := call_generator store r data in
      match signal with
      | Some s =>
          match weights !! i with
          | Some w =>
              collect_signals weights (S i) rest store' data'
                              (collected ++ [(s, w)])
          | None => (None, store', data')
          end
      | None => collect_signals weights (S i) rest store' data' collected
      end
  end.

(** The second loop: the BUY and the SELL strength, each signal weighted by
    its weight over the total weight of the signals that were emitted.
    [None] is the ZeroDivisionError for a total weight of 0. *)
Definition weigh_signals (collected : list (TradingSignal * Q))
    : option (fval * fval) :=
  let total_weight := foldr Qplus 0 (map snd collected) in
  match collected with
  | [] => Some (Fin 0, Fin 0)
  | _ =>
      if Qeq_bool total_weight 0 then None
      else
        Some (fold_left
                (fun strengths sw =>
                   let normalized_weight := snd sw / total_weight in
                   let weighted :=
                     fmul (strength (fst sw)) (Fin normalized_weight) in
                   if String.eqb (signal_type (fst sw)) "BUY"
                   then (fadd (fst strengths) weighted, snd strengths)
                   else if String.eqb (signal_type (fst sw)) "SELL"
                   then (fst strengths, fadd (snd strengths) weighted)
                   else strengths)
                collected (Fin 0, Fin 0))
  end.

(** The signal the combined strategy settles on, if any. *)
Definition final_signal (buy_strength sell_strength current_price : fval)
    (component_signals : nat) : option TradingSignal :=
  let metadata :=
    [("buy_strength", MFloat buy_strength);
     ("sell_strength", MFloat sell_strength);
     ("component_signals", MFloat (of_nat component_signals))]%string in
  if fgt buy_strength sell_strength && fgt buy_strength (Fin 0.5)
  then Some (mkSignal "BUY" buy_strength current_price metadata)
  else if fgt sell_strength buy_strength && fgt sell_strength (Fin 0.5)
  then Some (mkSignal "SELL" sell_strength current_price metadata)
  else None.

(** [CombinedStrategy.generate_signal]: the signal, the combined strategy,
    the store of its generators and the frame after the call.  An exception
    inside the [try] block gives no signal; what the generators did before
    it stays done. *)
Definition combined_generate_signal (self : CombinedStrategy)
    (store : list Strategy) (data : DataFrame)
    : option TradingSignal * CombinedStrategy * list Strategy * DataFrame :=
  if negb (validate_data data) then (None, self, store, data)
  else
    let '(collected, store', data') :=
      collect_signals (cmb_weights self) 0 (cmb_strategies self) store data
                      [] in
    let result :=
      collected ← collected;
      match collected with
      | [] => None
      | _ =>
          '(buy_strength, sell_strength) ← weigh_signals collected;
          close ← columns data' !! "close"%string;
          current_price ← iloc_back 1 close;
          final_signal buy_strength sell_strength current_price
                       (length collected)
      end in
    match result with
    | Some signal =>
        (Some signal,
         mkCombined (add_signal (cmb_base self) signal) (cmb_strategies self)
                    (cmb_weights self),
         store', data')
    | None => (None, self, store', data')
    end.

(** A reference to a strategy object. *)
Inductive Ref := Generator (r : nat) | Combined (r : nat).

(** class StrategyManager: the two stores, the dictionary [strategies] in
    insertion order, and the active strategy. *)
Record t := mkManager {
  generators : list Strategy;
  combined : list CombinedStrategy;
  strategies : list (string * Ref);
  active_strategy : option Ref
}.

(** [d[key] = value] on a dictionary kept in insertion order. *)
Fixpoint dict_set {V} (d : list (string * V)) (key : string) (value : V)
    : list (string * V) :=
  match d with
  | [] => [(key, value)]
  | (k, v) :: rest =>
      if String.eqb k key then (k, value) :: rest
      else (k, v) :: dict_set rest key value
  end.

Fixpoint dict_get {V} (d : list (string * V)) (key : string) : option V :=
  match d with
  | [] => None
  | (k, v) :: rest => if String.eqb k key then Some v else dict_get rest key
  end.

Definition dict_del {V} (d : list (string * V)) (key : string)
    : list (string * V) :=
  List.filter (fun kv => negb (String.eqb (fst kv) key)) d.

(** [add_strategy] *)
Definition add_strategy (self : t) (name : string) (strategy : Ref) : t :=
  mkManager (generators self) (combined self)
            (dict_set (strategies self) name strategy) (active_strategy self).

(** [remove_strategy] *)
Definition remove_strategy (self : t) (name : string) : t :=
  mkManager (generators self) (combined self)
            (dict_del (strategies self) name) (active_strategy self).

(** [set_active_strategy] *)
Definition set_active_strategy (self : t) (name : string) : bool * t :=
  match dict_get (strategies self) name with
  | Some strategy =>
      (true,
       mkManager (generators self) (combined self) (strategies self)
                 (Some strategy))
  | None => (false, self)
  end.

(** [get_active_strategy] *)
Definition get_active_strategy (self : t) : option Ref := active_strategy self.

(** [strategy.generate_signal(data)] through a reference. *)
Definition call (self : t) (strategy : Ref) (data : DataFrame)
    : option TradingSignal * t * DataFrame :=
  match strategy with
  | Generator r =>
      let '(signal, store', data') :=
        call_generator (generators self) r data in
      (signal,
       mkManager store' (combined self) (strategies self)
                 (active_strategy self),
       data')
  | Combined r =>
      match combined self !! r with
      | Some c =>
          let '(signal, c', store', data') :=
            combined_generate_signal c (generators self) data in
          (signal,
           mkManager store' (<[r := c']> (combined self)) (strategies self)
                     (active_strategy self),
           data')
      | None => (None, self, data)
      end
  end.

(** [StrategyManager.generate_signal] *)
Definition generate_signal (self : t) (data : DataFrame)
    : option TradingSignal * t * DataFrame :=
  match active_strategy self with
  | Some strategy => call self strategy data
  | None => (None, self, data)
  end.

(** The loop of [get_all_signals] over the dictionary entries. *)
Fixpoint all_signals (entries : list (string * Ref)) (self : t)
    (data : DataFrame)
    : list (string * option TradingSignal) * t * DataFrame :=
  match entries with
  | [] => ([], self, data)
  | (name, strategy) :: rest =>
      let '(signal, self', data') := call self strategy data in
      let '(signals, self'', data'') := all_signals rest self' data' in
      ((name, signal) :: signals, self'', data'')
  end.

(** [get_all_signals] *)
Definition get_all_signals (self : t) (data : DataFrame)
    : list (string * option TradingSignal) * t * DataFrame :=
  all_signals (strategies self) self data.

(** [StrategyManager.__init__] with [_init_default_strategies]: the three
    generators with the parameters of [STRATEGY_CONFIG], the combined
    strategy over the same three objects, and [dual_ma] active.  The display
    names of the strategy objects, which the code only writes to its log,
    are written in ASCII. *)
Definition init : t :=
  mkManager
    [DualMA (mkDualMA (new_Base "DualMA") 10 30 0.1 None);
     RSI (mkRSI (new_Base "RSI") 14 70 30);
     MACD (mkMACD (new_Base "MACD") 12 26 9)]
    [mkCombined (new_Base "CombinedStrategy") [0; 1; 2]%nat [0.5; 0.3; 0.2]]
    [("dual_ma", Generator 0); ("rsi", Generator 1); ("macd", Generator 2);
     ("combined", Combined 0)]%string
    (Some (Generator 0)).

(** The base of a generator that has recorded the signal [r], if any, two
    times. *)
Definition recorded_twice (r : option TradingSignal) (base : Base) : Base :=
  match r with
  | Some signal => add_signal (add_signal base signal) signal
  | None => base
  end.

End StrategyManager.

(** ** Concrete runs used by the examples, witnesses and counterexamples *)

Module Scenario.
Import Num Float Pandas.
Local Open Scope Q_scope.

Definition sym : string := "BTCUSDT".

(** *** The worked scenario of the ledger: commission 0.1%, no slippage *)

Definition s0 : TradeExecutor.t := TradeExecutor.init 10000 0.5 0.001 0.

Definition buy_order : TradeExecutor.Order :=
  TradeExecutor.new_Order 0 sym TradeExecutor.BUY TradeExecutor.MARKET
                          0.1 50000 None.

(** BUY fill of 0.1 at 50000. *)
Definition s1 : TradeExecutor.t :=
  snd (TradeExecutor._execute_order s0 buy_order 50000).

(** Price update to 60000. *)
Definition s2 : TradeExecutor.t := TradeExecutor.update_price s1 sym 60000.

Definition sell_order : TradeExecutor.Order :=
  TradeExecutor.new_Order 1 sym TradeExecutor.SELL TradeExecutor.MARKET
                          0.1 60000 None.

(** SELL fill of 0.1 at 60000. *)
Definition s3 : TradeExecutor.t :=
  snd (TradeExecutor._execute_order s2 sell_order 60000).

(** The same scenario through the public operations. *)
Definition api0 : TradeExecutor.t := TradeExecutor.update_price s0 sym 50000.
Definition api1 : option nat * TradeExecutor.t :=
  TradeExecutor.place_order api0 sym TradeExecutor.BUY TradeExecutor.MARKET
                            0.1 None None.
Definition api2 : TradeExecutor.t :=
  TradeExecutor.update_price (snd api1) sym 60000.
Definition api3 : option nat * TradeExecutor.t :=
  TradeExecutor.place_order api2 sym TradeExecutor.SELL TradeExecutor.MARKET
                            0.1 None None.

(** A position of 0.1 bought at 50000. *)
Definition held : TradeExecutor.Position :=
  TradeExecutor.update_position (TradeExecutor.new_Position sym)
    (TradeExecutor.new_Trade 0 0 sym TradeExecutor.BUY 0.1 50000 5).

(** *** A round trip without slippage and commission *)

Definition flat0 : TradeExecutor.t := TradeExecutor.init 10000 0.5 0 0.

(** The same executor after a BUY fill of 0.1 at 50000 and a SELL fill of
    0.1 at 60000: the symbol is flat again and has realized 1000. *)
Definition retraded : TradeExecutor.t :=
  snd (TradeExecutor._execute_order
         (snd (TradeExecutor._execute_order flat0 buy_order 50000))
         sell_order 60000).

(** *** Pending limit orders under the default configuration *)

(** The executor as the program creates it, with a first price of 50000. *)
Definition live0 : TradeExecutor.t :=
  TradeExecutor.update_price TradeExecutor.trade_executor sym 50000.

Definition place_limit_buy (st : TradeExecutor.t) : TradeExecutor.t :=
  snd (TradeExecutor.place_order st sym TradeExecutor.BUY TradeExecutor.LIMIT
                                 0.1 (Some 49000) None).

(** One resting LIMIT BUY of 0.1 at 49000, then a tick at 48000. *)
Definition limit1 : TradeExecutor.t := place_limit_buy live0.
Definition limit1_tick : TradeExecutor.t :=
  TradeExecutor.update_price limit1 sym 48000.

(** Three such orders, each admitted against the same balance, then the
    tick that fills them all. *)
Definition limit3 : TradeExecutor.t :=
  place_limit_buy (place_limit_buy (place_limit_buy live0)).
Definition limit3_tick : TradeExecutor.t :=
  TradeExecutor.update_price limit3 sym 48000.

(** Two MARKET BUYs under the default configuration at 50000: 0.0999, and
    then 0.09984, whose value with commission is within the balance that
    is left and whose cost with slippage is not. *)
Definition market1 : option nat * TradeExecutor.t :=
  TradeExecutor.place_order live0 sym TradeExecutor.BUY TradeExecutor.MARKET
                            0.0999 None None.
Definition market2 : option nat * TradeExecutor.t :=
  TradeExecutor.place_order (snd market1) sym TradeExecutor.BUY
                            TradeExecutor.MARKET 0.09984 None None.

(** *** A sell request below the minimum trade amount *)

Definition tiny_quantity : Q := 0.0001.

(** *** The risk gate after a loss *)

(** Buy 0.09 at 50000, then the price halves. *)
Definition loss1 : TradeExecutor.t :=
  snd (TradeExecutor.place_order live0 sym TradeExecutor.BUY
                                 TradeExecutor.MARKET 0.09 None None).
Definition loss2 : TradeExecutor.t := TradeExecutor.update_price loss1 sym 25000.

(** A resting STOP_LOSS SELL for the 0.09 bought, with stop price 45000. *)
Definition stop1 : TradeExecutor.t :=
  snd (TradeExecutor.place_order loss1 sym TradeExecutor.SELL
         TradeExecutor.STOP_LOSS 0.09 (Some 45000) (Some 45000)).

(** *** Stop-loss *)

Definition armed : RiskManager.t :=
  RiskManager.set_stop_loss RiskManager.init sym 50000 "LONG".

(** The armed risk manager after two trades on day 6 and one on day 7. *)
Definition traded : RiskManager.t :=
  RiskManager.record_trade
    (RiskManager.record_trade
       (RiskManager.record_trade armed 6 sym "BUY" 0.1 50000)
       6 sym "SELL" 0.1 50500)
    7 sym "BUY" 0.1 50200.

Definition stop_ticks : list (string * Q) :=
  [(sym, 49500); ("ETHUSDT"%string, 100); (sym, 48900); (sym, 48000);
   (sym, 47000)].

(** *** Candle frames *)

(** A frame whose five OHLCV columns all hold the given closes. *)
Definition frame (close : list Q) : DataFrame :=
  let c := map Fin close in
  mkFrame (length close)
          (list_to_map [("open"%string, c); ("high"%string, c);
                        ("low"%string, c); ("close"%string, c);
                        ("volume"%string, c)]).

Definition macd_fast_long : TradingStrategy.MACDStrategy :=
  TradingStrategy.mkMACD (TradingStrategy.new_Base "MACD") 3 1 2.


Definition dual_1_2 : TradingStrategy.DualMAStrategy :=
  TradingStrategy.mkDualMA (TradingStrategy.new_Base "DualMA") 1 2 0.1 None.

End Scenario.

(** ** Properties *)

Section QBool.
Import Num.
Local Open Scope Q_scope.

Lemma Qleb_le x y : Qleb x y = true <-> x <= y.
Proof. apply Qle_bool_iff. Qed.

Lemma Qleb_gt x y : Qleb x y = false <-> y < x.
Proof.
  unfold Qleb. rewrite <- not_true_iff_false, Qle_bool_iff.
  split; [apply Qnot_le_lt | apply Qlt_not_le].
Qed.

Lemma Qltb_lt x y : Qltb x y = true <-> x < y.
Proof. unfold Qltb. rewrite negb_true_iff. apply Qleb_gt. Qed.

Lemma Qltb_ge x y : Qltb x y = false <-> y <= x.
Proof. unfold Qltb. rewrite negb_false_iff. apply Qle_bool_iff. Qed.

Lemma Qgtb_gt x y : Qgtb x y = true <-> y < x.
Proof. unfold Qgtb. rewrite negb_true_iff. apply Qleb_gt. Qed.

Lemma Qgtb_le x y : Qgtb x y = false <-> x <= y.
Proof. unfold Qgtb. rewrite negb_false_iff. apply Qle_bool_iff. Qed.

Lemma Qgeb_ge x y : Qgeb x y = true <-> y <= x.
Proof. apply Qle_bool_iff. Qed.

Lemma Qgeb_lt x y : Qgeb x y = false <-> x < y.
Proof. apply Qleb_gt. Qed.

End QBool.

(** *** The ledger and the order simulator *)

Section Ledger.
Import Num TradeExecutor.
Local Open Scope Q_scope.
#[local] Set Warnings "-inexact-float".

Lemma execute_order_balance st o p :
  available_balance (snd (_execute_order st o p)) =
  match ord_side o with
  | BUY =>
      available_balance st
      - (ord_quantity o * (p * (1 + slippage st))
         + ord_quantity o * (p * (1 + slippage st)) * commission_rate st)
  | SELL =>
      available_balance st
      + (ord_quantity o * (p * (1 - slippage st))
         - ord_quantity o * (p * (1 - slippage st)) * commission_rate st)
  end.
Proof.
  unfold _execute_order, _update_balance_and_position.
  destruct (ord_side o); reflexivity.
Qed.

Lemma execute_order_rates st o p :
  slippage (snd (_execute_order st o p)) = slippage st /\
  commission_rate (snd (_execute_order st o p)) = commission_rate st /\
  max_position_size (snd (_execute_order st o p)) = max_position_size st /\
  current_prices (snd (_execute_order st o p)) = current_prices st /\
  orders (snd (_execute_order st o p)) = orders st.
Proof.
  unfold _execute_order, _update_balance_and_position.
  destruct (ord_side o); repeat split; reflexivity.
Qed.

Lemma execute_order_position st o p :
  positions (snd (_execute_order st o p)) !! ord_symbol o =
  Some (update_position
          (match positions st !! ord_symbol o with
           | Some pos => pos
           | None => new_Position (ord_symbol o)
           end)
          (new_Trade (length (trades st)) (ord_id o) (ord_symbol o) (ord_side o)
             (ord_quantity o)
             (match ord_side o with
              | BUY => p * (1 + slippage st)
              | SELL => p * (1 - slippage st)
              end)
             (ord_quantity o *
              (match ord_side o with
              | BUY => p * (1 + slippage st)
              | SELL => p * (1 - slippage st)
              end) * commission_rate st))).
Proof.
  unfold _execute_order, _update_balance_and_position.
  cbn [trd_symbol new_Trade trd_side].
  destruct (ord_side o); cbn [snd positions]; rewrite lookup_insert_eq;
  destruct (positions st !! ord_symbol o); reflexivity.
Qed.

(** C1: from a balance of 10000 with commission 0.1% and no slippage, a BUY
    fill of 0.1 at 50000 leaves 4995 available and the position at quantity
    0.1, average price 50000; the update to 60000 sets the unrealized PnL to
    1000; the SELL fill of 0.1 at 60000 leaves 10989 available.  The realized
    PnL of the position is the gross 1000: the commissions (5 + 6) are kept
    apart, in the position's and the executor's commission totals.  The same
    run through [place_order] gives the same balance. *)
Theorem ledger_scenario :
  available_balance Scenario.s1 == 4995 /\
  (exists p, positions Scenario.s1 !! Scenario.sym = Some p /\
             pos_quantity p == 0.1 /\ pos_avg_price p == 50000) /\
  (exists p, positions Scenario.s2 !! Scenario.sym = Some p /\
             pos_unrealized_pnl p == 1000) /\
  (exists p, positions Scenario.s3 !! Scenario.sym = Some p /\
             pos_quantity p == 0 /\
             pos_realized_pnl p == 1000 /\ pos_total_commission p == 11) /\
  total_commission Scenario.s3 == 11 /\
  available_balance Scenario.s3 == 10989 /\
  available_balance (snd Scenario.api3) == 10989.
Proof.
  split; [vm_compute; reflexivity|].
  split; [eexists; split; [vm_compute; reflexivity|
                           split; vm_compute; reflexivity]|].
  split; [eexists; split; [vm_compute; reflexivity| vm_compute; reflexivity]|].
  split; [eexists; split; [vm_compute; reflexivity|
                           repeat split; vm_compute; reflexivity]|].
  repeat split; vm_compute; reflexivity.
Qed.

(** The realized PnL after the scenario is 1000, not 994. *)
Lemma ledger_scenario_pnl_is_gross :
  exists p, positions Scenario.s3 !! Scenario.sym = Some p /\
            pos_realized_pnl p == 1000 /\ ~ pos_realized_pnl p == 994.
Proof.
  eexists; split; [vm_compute; reflexivity|].
  split; [vm_compute; reflexivity | vm_compute; discriminate].
Qed.

Lemma round_trip_balance_eq b q p s c :
  s == 0 -> c == 0 ->
  b - (q * (p * (1 + s)) + q * (p * (1 + s)) * c)
    + (q * (p * (1 - s)) - q * (p * (1 - s)) * c) == b.
Proof. intros Hs Hc. rewrite Hs, Hc. ring. Qed.

Lemma round_trip_pnl_eq r0 q0 tc0 q p s :
  s == 0 -> q0 == 0 -> tc0 == 0 -> ~ q == 0 ->
  r0 + (q * (p * (1 - s)) - q * ((tc0 + q * (p * (1 + s))) / (q0 + q)))
  == r0.
Proof.
  intros Hs Hq0 Htc Hq. rewrite Hs, Hq0, Htc. field.
  intros E. apply Hq. lra.
Qed.

(** C4: with slippage 0 and commission 0, from a state that holds nothing
    of the symbol (no position object, or a flat one without cost), a BUY
    fill of [q] at [p] followed by a SELL fill of [q] at [p] gives back the
    available balance and adds nothing to the realized PnL of the position,
    which is therefore 0 for a symbol that had no position object.  This is
    the statement of exact arithmetic: the amounts are rationals, and the
    program reaches the two values up to the rounding of its binary64
    operations. *)
Theorem round_trip st o1 o2 symbol q p :
  slippage st == 0 -> commission_rate st == 0 ->
  (forall pos0, positions st !! symbol = Some pos0 ->
                pos_quantity pos0 == 0 /\ pos_total_cost pos0 == 0) ->
  ord_side o1 = BUY -> ord_symbol o1 = symbol -> ord_quantity o1 = q ->
  ord_side o2 = SELL -> ord_symbol o2 = symbol -> ord_quantity o2 = q ->
  let st1 := snd (_execute_order st o1 p) in
  let st2 := snd (_execute_order st1 o2 p) in
  available_balance st2 == available_balance st /\
  exists pos,
    positions st2 !! symbol = Some pos /\
    pos_realized_pnl pos ==
      match positions st !! symbol with
      | Some pos0 => pos_realized_pnl pos0
      | None => 0
      end.
Proof.
  intros Hs Hc Hflat Hb1 Hy1 Hq1 Hb2 Hy2 Hq2 st1 st2.
  destruct (execute_order_rates st o1 p) as (Es & Ec & _).
  split.
  - unfold st2. rewrite execute_order_balance, Hb2. unfold st1.
    rewrite execute_order_balance, Hb1, Es, Ec, Hq1, Hq2.
    apply round_trip_balance_eq; assumption.
  - pose proof (execute_order_position st1 o2 p) as H2.
    pose proof (execute_order_position st o1 p) as H1.
    rewrite Hy2 in H2. rewrite Hy1 in H1. fold st1 in H1. fold st2 in H2.
    rewrite H1 in H2. eexists; split; [exact H2|].
    rewrite Hb1, Hb2, Hq1, Hq2. unfold st1. rewrite Es.
    set (pos0 := match positions st !! symbol with
                 | Some pos => pos
                 | None => new_Position symbol
                 end).
    assert (Hpos0 : pos_quantity pos0 == 0 /\ pos_total_cost pos0 == 0).
    { unfold pos0. destruct (positions st !! symbol) as [pos|] eqn:E.
      - apply (Hflat pos eq_refl).
      - split; reflexivity. }
    assert (Hprior : match positions st !! symbol with
                     | Some pos => pos_realized_pnl pos
                     | None => 0
                     end = pos_realized_pnl pos0).
    { unfold pos0. destruct (positions st !! symbol); reflexivity. }
    rewrite Hprior. destruct Hpos0 as [Hq0 Htc0].
    unfold update_position, new_Trade.
    cbn [trd_side trd_total trd_quantity trd_commission pos_total_cost
         pos_quantity pos_avg_price pos_realized_pnl pos_symbol
         pos_unrealized_pnl pos_total_commission].
    destruct (Qgtb (pos_quantity pos0 + q) 0) eqn:Hpos;
      cbn [trd_side trd_total trd_quantity trd_commission pos_total_cost
           pos_quantity pos_avg_price pos_realized_pnl pos_symbol
           pos_unrealized_pnl pos_total_commission];
      rewrite ?Hpos.
    + apply Qgtb_gt in Hpos.
      assert (Hq : ~ q == 0)
        by (intros E; rewrite Hq0, E in Hpos; revert Hpos;
            apply Qlt_irrefl).
      destruct (Qleb _ 0); cbn [pos_realized_pnl];
        apply round_trip_pnl_eq; assumption.
    + cbn [pos_realized_pnl]. reflexivity.
Qed.

Lemma round_trip_witness :
  let st1 :=
    snd (_execute_order Scenario.flat0 Scenario.buy_order 50000) in
  let st2 := snd (_execute_order st1 Scenario.sell_order 50000) in
  available_balance st2 == available_balance Scenario.flat0 /\
  exists pos, positions st2 !! Scenario.sym = Some pos /\
              pos_realized_pnl pos == 0.
Proof.
  apply (round_trip Scenario.flat0 Scenario.buy_order Scenario.sell_order
                    Scenario.sym 0.1 50000); try reflexivity.
  intros pos0 E. discriminate E.
Defined.

(** In binary64 the pair does not give the balance back: from a balance of
    1000.1, a BUY fill of 0.7 at 100.1 and the SELL fill of 0.7 at 100.1
    leave 1000.0999999999999, that is [(1000.1 - 70.07) + 70.07]; the
    realized PnL of the position is 0 there.  And the realized PnL of a
    position is cumulative: on a symbol that is flat after having realized
    1000, the pair leaves the realized PnL at 1000, not at 0. *)
Lemma round_trip_drift_and_prior_pnl :
  (let st2 := Doubles.round_trip 1000.1 0.7 100.1 in
   Doubles.available_balance st2 = 1000.0999999999999%float /\
   PrimFloat.ltb (Doubles.available_balance st2) 1000.1 = true /\
   exists pos,
     Doubles.positions st2 !! "BTCUSDT"%string = Some pos /\
     Doubles.pos_realized_pnl pos = 0%float) /\
  (let st := Scenario.retraded in
   let st1 := snd (_execute_order st Scenario.buy_order 50000) in
   let st2 := snd (_execute_order st1 Scenario.sell_order 50000) in
   slippage st == 0 /\ commission_rate st == 0 /\
   (exists pos0, positions st !! Scenario.sym = Some pos0 /\
                 pos_quantity pos0 == 0) /\
   available_balance st2 == available_balance st /\
   exists pos, positions st2 !! Scenario.sym = Some pos /\
               pos_realized_pnl pos == 1000 /\
               ~ pos_realized_pnl pos == 0).
Proof.
  split.
  - cbv zeta. split; [vm_compute; reflexivity|].
    split; [vm_compute; reflexivity|].
    eexists. split; vm_compute; reflexivity.
  - cbv zeta. split; [reflexivity|]. split; [reflexivity|].
    split; [eexists; split; vm_compute; reflexivity|].
    split; [vm_compute; reflexivity|].
    eexists. split; [vm_compute; reflexivity|].
    split; [vm_compute; reflexivity | vm_compute; discriminate].
Qed.

(** **** Admission *)

Lemma risk_check_sell_rejected st symbol quantity price :
  available_qty st symbol < quantity ->
  exists r, _risk_check st symbol SELL quantity price = Some r.
Proof.
  unfold available_qty, _risk_check. intros H.
  destruct (Qltb (quantity * price) Config.MIN_TRADE_AMOUNT); [eauto|].
  destruct (positions st !! symbol) as [pos|]; [|eauto].
  apply Qltb_lt in H. rewrite H. eauto.
Qed.

Lemma risk_check_sell_reason st symbol quantity price :
  available_qty st symbol < quantity ->
  Config.MIN_TRADE_AMOUNT <= quantity * price ->
  _risk_check st symbol SELL quantity price = Some InsufficientPosition.
Proof.
  unfold available_qty, _risk_check. intros H Hmin.
  apply Qltb_ge in Hmin. rewrite Hmin.
  destruct (positions st !! symbol) as [pos|]; [|reflexivity].
  apply Qltb_lt in H. rewrite H. reflexivity.
Qed.

Lemma place_order_sell_short st symbol order_type quantity price stop_price :
  available_qty st symbol < quantity ->
  place_order st symbol SELL order_type quantity price stop_price = (None, st).
Proof.
  intros H. unfold place_order.
  destruct (Qleb quantity 0); [reflexivity|].
  destruct (current_prices st !! symbol) as [cp|]; [|reflexivity].
  destruct (match order_type with MARKET => Some cp | _ => price end) as [pr|];
    [|reflexivity].
  destruct (risk_check_sell_rejected st symbol quantity pr H) as [r ->].
  reflexivity.
Qed.

Lemma risk_check_admitted st symbol side quantity price :
  _risk_check st symbol side quantity price = None ->
  Config.MIN_TRADE_AMOUNT <= quantity * price /\
  match side with
  | BUY =>
      quantity * price * (1 + commission_rate st) <= available_balance st /\
      quantity * price <= get_total_value st * max_position_size st
  | SELL =>
      exists position, positions st !! symbol = Some position /\
                       quantity <= pos_quantity position
  end.
Proof.
  unfold _risk_check.
  destruct (Qltb (quantity * price) Config.MIN_TRADE_AMOUNT) eqn:E1;
    [discriminate|].
  apply Qltb_ge in E1. destruct side.
  - destruct (Qltb (available_balance st) _) eqn:E2; [discriminate|].
    destruct (Qgtb (quantity * price) _) eqn:E3; [discriminate|].
    intros _. apply Qltb_ge in E2. apply Qgtb_le in E3. auto.
  - destruct (positions st !! symbol) as [position|]; [|discriminate].
    destruct (Qltb (pos_quantity position) quantity) eqn:E2; [discriminate|].
    intros _. apply Qltb_ge in E2. eauto.
Qed.

Lemma market_buy_cost b q p c s :
  0 <= s -> q * p * (1 + c) <= b ->
  - (s * b) <= b - (q * (p * (1 + s)) + q * (p * (1 + s)) * c).
Proof.
  intros Hs Hb.
  assert (H : (q * p * (1 + c)) * (1 + s) <= b * (1 + s))
    by (apply Qmult_le_compat_r; lra).
  lra.
Qed.

Lemma market_sell_proceeds b q p c s :
  0 <= s -> s <= 1 -> c <= 1 -> 0 <= b -> 0 <= q * p ->
  - (s * b) <= b + (q * (p * (1 - s)) - q * (p * (1 - s)) * c).
Proof.
  intros Hs0 Hs1 Hc Hb Hv.
  assert (H1 : 0 <= (q * p) * (1 - s)) by (apply Qmult_le_0_compat; lra).
  assert (H2 : 0 <= (q * p) * (1 - s) * (1 - c))
    by (apply Qmult_le_0_compat; lra).
  assert (H3 : 0 <= s * b) by (apply Qmult_le_0_compat; lra).
  lra.
Qed.

Lemma place_order_balance st symbol side order_type quantity price stop_price
    id st' :
  0 <= slippage st -> slippage st <= 1 -> commission_rate st <= 1 ->
  0 <= available_balance st ->
  place_order st symbol side order_type quantity price stop_price
    = (Some id, st') ->
  - (slippage st * available_balance st) <= available_balance st'.
Proof.
  intros Hs0 Hs1 Hc Hb. unfold place_order.
  assert (Hkeep : - (slippage st * available_balance st)
                  <= available_balance st).
  { assert (0 <= slippage st * available_balance st)
      by (apply Qmult_le_0_compat; assumption).
    lra. }
  destruct (Qleb quantity 0); [discriminate|].
  destruct (current_prices st !! symbol) as [cp|]; [|discriminate].
  destruct (match order_type with MARKET => Some cp | _ => price end)
    as [pr|] eqn:Hpr; [|discriminate].
  destruct (_risk_check st symbol side quantity pr) eqn:Hr; [discriminate|].
  apply risk_check_admitted in Hr. destruct Hr as [Hmin Hside].
  destruct order_type; try (intros [= _ <-]; exact Hkeep).
  injection Hpr as <-.
  destruct (_execute_order st _ cp) as [o' st1] eqn:He.
  intros [= _ <-].
  assert (Hbal : available_balance st1 =
                 available_balance (snd (_execute_order st
                   (new_Order (length (orders st)) symbol side MARKET quantity
                              cp stop_price) cp)))
    by (rewrite He; reflexivity).
  unfold set_orders; cbn [available_balance].
  rewrite Hbal, execute_order_balance. cbn [ord_side new_Order ord_quantity].
  destruct side.
  - destruct Hside as [Hreq _]. apply market_buy_cost; assumption.
  - apply market_sell_proceeds; try assumption.
    unfold Config.MIN_TRADE_AMOUNT in Hmin. lra.
Qed.

Lemma execute_order_except st o p :
  ord_status (fst (_execute_order_except st o p)) = REJECTED /\
  snd (_execute_order_except st o p) = snd (_execute_order st o p).
Proof. split; reflexivity. Qed.

(** **** The pending-order scan *)

Lemma scan_orders_lookup symbol p os : forall st i o,
  os !! i = Some o ->
  exists sti,
    slippage sti = slippage st /\ commission_rate sti = commission_rate st /\
    fst (scan_orders symbol p os st) !! i = Some (scanned symbol p sti o).
Proof.
  induction os as [|o0 rest IH]; intros st i o Hi; [discriminate|].
  cbn [scan_orders].
  destruct (if is_pending (ord_status o0) && String.eqb (ord_symbol o0) symbol
            then match fill_price o0 p with
                 | Some ep => _execute_order st o0 ep
                 | None => (o0, st)
                 end
            else (o0, st)) as [o0' st'] eqn:Hhead.
  destruct (scan_orders symbol p rest st') as [rest' st''] eqn:Hrest.
  destruct i as [|i]; cbn [fst].
  - injection Hi as Hi. exists st. repeat split. cbn [lookup list_lookup].
    f_equal. change o0' with (fst (o0', st')). rewrite <- Hhead, Hi.
    unfold scanned.
    destruct (is_pending (ord_status o) && String.eqb (ord_symbol o) symbol);
      [destruct (fill_price o p)|]; reflexivity.
  - assert (Hrates : slippage st' = slippage st /\
                     commission_rate st' = commission_rate st).
    { destruct (is_pending (ord_status o0) && String.eqb (ord_symbol o0) symbol);
        [destruct (fill_price o0 p) as [ep|]|].
      - pose proof (execute_order_rates st o0 ep) as (Es & Ec & _).
        rewrite Hhead in Es, Ec. auto.
      - injection Hhead as _ <-; auto.
      - injection Hhead as _ <-; auto. }
    destruct Hrates as [Hs' Hc'].
    destruct (IH st' i o Hi) as (sti & Es & Ec & Hl).
    rewrite Hrest in Hl. exists sti.
    rewrite <- Hs', <- Hc'. repeat split; assumption.
Qed.

Lemma scan_orders_length symbol p os : forall st,
  length (fst (scan_orders symbol p os st)) = length os.
Proof.
  induction os as [|o0 rest IH]; intros st; [reflexivity|].
  cbn [scan_orders].
  destruct (if is_pending (ord_status o0) && String.eqb (ord_symbol o0) symbol
            then _ else _) as [o0' st'].
  specialize (IH st'). destruct (scan_orders symbol p rest st') as [rest' st''].
  cbn in *. congruence.
Qed.

Lemma update_price_orders st symbol p i o :
  orders st !! i = Some o ->
  exists sti,
    slippage sti = slippage st /\ commission_rate sti = commission_rate st /\
    orders (update_price st symbol p) !! i = Some (scanned symbol p sti o).
Proof.
  intros Hi. unfold update_price, _check_pending_orders.
  set (st1 := mkExecutor _ _ _ _ _ _ _ _ _ _ _ _ _).
  destruct (scan_orders_lookup symbol p (orders st1) st1 i o Hi)
    as (sti & Es & Ec & Hl).
  destruct (scan_orders symbol p (orders st1) st1) as [os st'] eqn:Hscan.
  exists sti. repeat split; assumption.
Qed.

(** C2 (the code does not do what the claim says): the available balance
    is tested when an order is submitted and never when it is filled, and
    nothing is set aside for an order that rests.
    - Submission: [_risk_check] admits a BUY whose value with commission is
      within the balance, and the fill of a MARKET order then also takes
      the slippage; an accepted submission from a balance that is not
      negative leaves the balance at or above minus the slippage rate times
      the balance it started from, which is 0 without slippage.
    - REJECTED is written by the [except] branch of [_execute_order] alone,
      after the fill has moved the ledger: the state is the one of the
      completed fill.
    - Three LIMIT BUYs of 0.1 at 49000, each admitted against the same
      untouched 10000, are all FILLED by the tick at 48000, and the balance
      ends at -4722.05735.
    - Under the default rates, the MARKET BUY of 0.0999 at 50000 followed by
      the MARKET BUY of 0.09984 is accepted twice, and the balance ends
      below 0. *)
Theorem balance_unguarded_at_fill :
  (forall st symbol side order_type quantity price stop_price id st',
     0 <= slippage st -> slippage st <= 1 -> commission_rate st <= 1 ->
     0 <= available_balance st ->
     place_order st symbol side order_type quantity price stop_price
       = (Some id, st') ->
     - (slippage st * available_balance st) <= available_balance st') /\
  (forall st o p,
     ord_status (fst (_execute_order_except st o p)) = REJECTED /\
     snd (_execute_order_except st o p) = snd (_execute_order st o p)) /\
  (map ord_status (orders Scenario.limit3) = [PENDING; PENDING; PENDING] /\
   available_balance Scenario.limit3 == 10000 /\
   map ord_status (orders Scenario.limit3_tick) = [FILLED; FILLED; FILLED] /\
   available_balance Scenario.limit3_tick == - 4722.05735) /\
  (fst Scenario.market1 = Some 0%nat /\ fst Scenario.market2 = Some 1%nat /\
   0 <= available_balance (snd Scenario.market1) /\
   available_balance (snd Scenario.market2) < 0).
Proof.
  split; [exact place_order_balance|]. split; [exact execute_order_except|].
  split.
  - repeat split; vm_compute; reflexivity.
  - split; [vm_compute; reflexivity|]. split; [vm_compute; reflexivity|].
    split; [vm_compute; discriminate | vm_compute; reflexivity].
Qed.

Lemma balance_unguarded_at_fill_witness :
  - (slippage Scenario.live0 * available_balance Scenario.live0)
  <= available_balance (snd Scenario.market1).
Proof.
  apply (proj1 balance_unguarded_at_fill Scenario.live0 Scenario.sym BUY
           MARKET 0.0999 None None 0%nat (snd Scenario.market1));
    [vm_compute; discriminate | vm_compute; discriminate
    | vm_compute; discriminate | vm_compute; discriminate
    | vm_compute; reflexivity].
Defined.

(** C8: a PENDING LIMIT BUY order is FILLED by a tick of its symbol at or
    below its limit price, a PENDING LIMIT SELL order by a tick at or above
    it; the average fill price is the limit price with the slippage applied,
    [limit * (1 + slippage)] for a BUY and [limit * (1 - slippage)] for a
    SELL. *)
Theorem limit_fill st i o symbol p :
  orders st !! i = Some o ->
  ord_status o = PENDING -> ord_type o = LIMIT -> ord_symbol o = symbol ->
  (ord_side o = BUY /\ p <= ord_price o \/
   ord_side o = SELL /\ ord_price o <= p) ->
  exists o',
    orders (update_price st symbol p) !! i = Some o' /\
    ord_id o' = ord_id o /\ ord_status o' = FILLED /\
    ord_avg_fill_price o' =
    ord_price o * match ord_side o with
                  | BUY => 1 + slippage st
                  | SELL => 1 - slippage st
                  end.
Proof.
  intros Hi Hst Hty Hsym Hcross.
  destruct (update_price_orders st symbol p i o Hi) as (sti & Es & _ & Hl).
  eexists; split; [exact Hl|].
  unfold scanned. rewrite Hst, Hsym, String.eqb_refl. cbn [is_pending andb].
  assert (Hfp : fill_price o p = Some (ord_price o)).
  { unfold fill_price. rewrite Hty.
    destruct Hcross as [[-> H]|[-> H]].
    - apply Qleb_le in H. rewrite H. reflexivity.
    - apply Qgeb_ge in H. rewrite H. reflexivity. }
  rewrite Hfp. unfold _execute_order.
  cbn [fst ord_id ord_status ord_avg_fill_price].
  rewrite Es. destruct (ord_side o); auto.
Qed.

Lemma limit_fill_witness :
  exists o',
    orders (update_price Scenario.limit1 Scenario.sym 48000) !! 0%nat
      = Some o' /\
    ord_id o' = 0%nat /\ ord_status o' = FILLED /\
    ord_avg_fill_price o' = 49000 * (1 + slippage Scenario.limit1).
Proof.
  apply (limit_fill Scenario.limit1 0
           (new_Order 0 Scenario.sym BUY LIMIT 0.1 49000 None)
           Scenario.sym 48000);
    [vm_compute; reflexivity | reflexivity | reflexivity | reflexivity
    | left; split; [reflexivity | vm_compute; discriminate]].
Defined.

(** Under the default slippage the order fills at 49024.5, not at its limit
    price 49000. *)
Lemma limit_fill_not_at_limit :
  exists o,
    orders Scenario.limit1 !! 0%nat = Some o /\
    ord_status o = PENDING /\ ord_type o = LIMIT /\ ord_side o = BUY /\
    ord_price o == 49000 /\
    exists o',
      orders Scenario.limit1_tick !! 0%nat = Some o' /\
      ord_status o' = FILLED /\
      ord_avg_fill_price o' == 49024.5 /\
      ~ ord_avg_fill_price o' == ord_price o.
Proof.
  eexists; split; [vm_compute; reflexivity|].
  repeat (split; [reflexivity|]).
  eexists; split; [vm_compute; reflexivity|].
  split; [reflexivity|]. split; [vm_compute; reflexivity|].
  vm_compute; discriminate.
Qed.

End Ledger.

(** *** The portfolio manager *)

Section Portfolio.
Import Num PortfolioManager.
Local Open Scope Q_scope.

Lemma get_position_insert_same self symbol s :
  match <[symbol := get_position self symbol]> (positions self) !! s with
  | Some p => p
  | None => mkEntry 0 0
  end = get_position self s.
Proof.
  unfold get_position.
  destruct (decide (symbol = s)) as [->|Hne].
  - rewrite lookup_insert_eq. reflexivity.
  - rewrite lookup_insert_ne by exact Hne. reflexivity.
Qed.

(** C10: called with a side that is neither 'BUY' nor 'SELL',
    [update_position] leaves the quantity and average price of every
    position and the available balance as they were, appends a trade record
    for the call to the trade history and returns True. *)
Theorem update_position_other_side self symbol side quantity price :
  side <> "BUY"%string -> side <> "SELL"%string ->
  let r := update_position self symbol side quantity price in
  fst r = true /\
  available_balance (snd r) = available_balance self /\
  (forall s, get_position (snd r) s = get_position self s) /\
  trade_history (snd r) =
    trade_history self
    ++ [mkRecord symbol side quantity price (quantity * price)].
Proof.
  intros Hb Hs. unfold update_position.
  apply String.eqb_neq in Hb, Hs. rewrite Hb, Hs. cbn [fst snd].
  repeat split.
  intros s. unfold get_position at 1. cbn [positions].
  apply (get_position_insert_same self symbol s).
Qed.

Lemma update_position_other_side_witness :
  let r := update_position (init 10000) Scenario.sym "HOLD" 1 50000 in
  fst r = true /\
  available_balance (snd r) = available_balance (init 10000) /\
  (forall s, get_position (snd r) s = get_position (init 10000) s) /\
  trade_history (snd r) =
    trade_history (init 10000)
    ++ [mkRecord Scenario.sym "HOLD" 1 50000 (1 * 50000)].
Proof.
  apply (update_position_other_side (init 10000) Scenario.sym "HOLD" 1 50000);
    discriminate.
Defined.

Lemma update_position_sell_short self symbol quantity price :
  PortfolioManager.quantity (get_position self symbol) < quantity ->
  let r := update_position self symbol "SELL" quantity price in
  fst r = false /\
  available_balance (snd r) = available_balance self /\
  (forall s, get_position (snd r) s = get_position self s) /\
  trade_history (snd r) = trade_history self.
Proof.
  intros Hlt. unfold update_position. cbn [String.eqb Ascii.eqb Bool.eqb andb].
  change (match positions self !! symbol with
          | Some p => p | None => mkEntry 0 0 end)
    with (get_position self symbol).
  apply Qgeb_lt in Hlt. rewrite Hlt. cbn [fst snd].
  repeat split.
  intros s. unfold get_position at 1. cbn [positions].
  apply (get_position_insert_same self symbol s).
Qed.

End Portfolio.

Section SellShort.
Import Num.
Local Open Scope Q_scope.

(** C3: a SELL request for more than the quantity held fails and changes
    nothing.  In the executor [place_order] returns no order and the state
    it was given; the reason [_risk_check] logs is InsufficientPosition
    whenever the order value reaches the minimum trade amount (a smaller
    order is turned down for its amount first).  In the portfolio manager
    [update_position] returns False, and every position, the available
    balance and the trade history are as before. *)
Theorem sell_short_rejected :
  (forall st symbol order_type quantity price stop_price,
     TradeExecutor.available_qty st symbol < quantity ->
     TradeExecutor.place_order st symbol TradeExecutor.SELL order_type
                               quantity price stop_price = (None, st) /\
     forall p,
       Config.MIN_TRADE_AMOUNT <= quantity * p ->
       TradeExecutor._risk_check st symbol TradeExecutor.SELL quantity p
         = Some TradeExecutor.InsufficientPosition) /\
  (forall self symbol quantity price,
     PortfolioManager.quantity (PortfolioManager.get_position self symbol)
       < quantity ->
     let r :=
       PortfolioManager.update_position self symbol "SELL" quantity price in
     fst r = false /\
     PortfolioManager.available_balance (snd r)
       = PortfolioManager.available_balance self /\
     (forall s, PortfolioManager.get_position (snd r) s
                = PortfolioManager.get_position self s) /\
     PortfolioManager.trade_history (snd r)
       = PortfolioManager.trade_history self).
Proof.
  split.
  - intros st symbol order_type quantity price stop_price H. split.
    + apply place_order_sell_short, H.
    + intros p Hmin. apply risk_check_sell_reason; assumption.
  - exact update_position_sell_short.
Qed.

Lemma sell_short_rejected_witness :
  TradeExecutor.place_order (snd Scenario.api1) Scenario.sym
    TradeExecutor.SELL TradeExecutor.MARKET 0.2 None None
    = (None, snd Scenario.api1) /\
  TradeExecutor._risk_check (snd Scenario.api1) Scenario.sym
    TradeExecutor.SELL 0.2 50000 = Some TradeExecutor.InsufficientPosition /\
  fst (PortfolioManager.update_position (PortfolioManager.init 10000)
         Scenario.sym "SELL" 1 50000) = false.
Proof.
  split; [|split].
  - apply (proj1 sell_short_rejected (snd Scenario.api1) Scenario.sym
             TradeExecutor.MARKET 0.2 None None).
    vm_compute; reflexivity.
  - apply (proj1 sell_short_rejected (snd Scenario.api1) Scenario.sym
             TradeExecutor.MARKET 0.2 None None);
      [vm_compute; reflexivity | vm_compute; discriminate].
  - apply (proj2 sell_short_rejected (PortfolioManager.init 10000)
             Scenario.sym 1 50000).
    vm_compute; reflexivity.
Defined.

(** A SELL of 0.0001 at 50000 without a position: more than is held, yet the
    reason is the order value (5 < 10), not the position. *)
Lemma sell_short_tiny_reason :
  TradeExecutor.available_qty Scenario.live0 Scenario.sym
    < Scenario.tiny_quantity /\
  TradeExecutor._risk_check Scenario.live0 Scenario.sym TradeExecutor.SELL
                            Scenario.tiny_quantity 50000
    = Some TradeExecutor.AmountTooSmall /\
  TradeExecutor.AmountTooSmall <> TradeExecutor.InsufficientPosition.
Proof.
  split; [vm_compute; reflexivity|].
  split; [vm_compute; reflexivity | discriminate].
Qed.

End SellShort.

(** *** The risk manager *)

Section Risk.
Import Num RiskManager.
Local Open Scope Q_scope.

Lemma set_stop_loss_long self symbol entry_price :
  stop_loss_orders (set_stop_loss self symbol entry_price "LONG") !! symbol =
  Some (entry_price * (1 - stop_loss_pct self)).
Proof. unfold set_stop_loss. cbn. apply lookup_insert_eq. Qed.

(** A tick while no stop is armed for [symbol]. *)
Lemma tick_unarmed self symbol s p :
  stop_loss_orders self !! symbol = None ->
  existsb (is_stop_loss_for symbol) (fst (check_position_risk self s p))
    = false /\
  stop_loss_orders (snd (check_position_risk self s p)) !! symbol = None.
Proof.
  intros Hnone. unfold check_position_risk.
  destruct (stop_loss_orders self !! s) as [sp|] eqn:Hs.
  - assert (Hne : s <> symbol) by congruence.
    assert (Heqb : String.eqb s symbol = false)
      by (apply String.eqb_neq; exact Hne).
    destruct (Qleb p sp); cbn [_trigger_stop_loss set_stops take_profit_orders];
      destruct (take_profit_orders self !! s) as [tp|];
      try destruct (Qgeb p tp);
      cbn [fst snd app existsb is_stop_loss_for _trigger_take_profit set_stops
           stop_loss_orders orb];
      rewrite ?Heqb; split; try reflexivity;
      rewrite ?lookup_delete_ne by exact Hne; assumption.
  - destruct (take_profit_orders self !! s) as [tp|];
      try destruct (Qgeb p tp);
      cbn [fst snd app existsb is_stop_loss_for _trigger_take_profit set_stops
           stop_loss_orders orb]; split; try reflexivity; assumption.
Qed.

(** A tick that does not reach the armed stop of [symbol]. *)
Lemma tick_above self symbol stop s p :
  stop_loss_orders self !! symbol = Some stop ->
  (s = symbol -> stop < p) ->
  existsb (is_stop_loss_for symbol) (fst (check_position_risk self s p))
    = false /\
  stop_loss_orders (snd (check_position_risk self s p)) !! symbol = Some stop.
Proof.
  intros Harm Habove. unfold check_position_risk.
  destruct (String.eqb_spec s symbol) as [->|Hne].
  - rewrite Harm. specialize (Habove eq_refl). apply Qleb_gt in Habove.
    rewrite Habove.
    destruct (take_profit_orders self !! symbol) as [tp|];
      try destruct (Qgeb p tp);
      cbn [fst snd app existsb is_stop_loss_for _trigger_take_profit set_stops
           stop_loss_orders orb]; split; try reflexivity; assumption.
  - assert (Heqb : String.eqb s symbol = false)
      by (apply String.eqb_neq; exact Hne).
    destruct (stop_loss_orders self !! s) as [sp|] eqn:Hs;
      [destruct (Qleb p sp)|];
      cbn [_trigger_stop_loss set_stops take_profit_orders];
      destruct (take_profit_orders self !! s) as [tp|];
      try destruct (Qgeb p tp);
      cbn [fst snd app existsb is_stop_loss_for _trigger_take_profit set_stops
           stop_loss_orders orb];
      rewrite ?Heqb; split; try reflexivity;
      rewrite ?lookup_delete_ne by exact Hne; assumption.
Qed.

(** The tick that reaches the armed stop. *)
Lemma tick_trigger self symbol stop p :
  stop_loss_orders self !! symbol = Some stop ->
  p <= stop ->
  In (StopLossTriggered symbol p) (fst (check_position_risk self symbol p)) /\
  stop_loss_orders (snd (check_position_risk self symbol p)) !! symbol = None.
Proof.
  intros Harm Hle. unfold check_position_risk. rewrite Harm.
  apply Qleb_le in Hle. rewrite Hle.
  cbn [_trigger_stop_loss set_stops take_profit_orders].
  destruct (take_profit_orders self !! symbol) as [tp|];
    try destruct (Qgeb p tp);
    cbn [fst snd app _trigger_take_profit set_stops stop_loss_orders];
    (split; [left; reflexivity | apply lookup_delete_eq]).
Qed.

Lemma run_ticks_unarmed symbol ticks : forall self,
  stop_loss_orders self !! symbol = None ->
  Forall (fun ev => existsb (is_stop_loss_for symbol) ev = false)
         (fst (run_ticks self ticks)) /\
  stop_loss_orders (snd (run_ticks self ticks)) !! symbol = None.
Proof.
  induction ticks as [|[s p] rest IH]; intros self Hnone; cbn [run_ticks].
  - split; [constructor | assumption].
  - destruct (tick_unarmed self symbol s p Hnone) as [Hev Hst].
    destruct (check_position_risk self s p) as [ev self1].
    destruct (IH self1 Hst) as [Hevs Hst'].
    destruct (run_ticks self1 rest) as [evs self2].
    split; [constructor; assumption | assumption].
Qed.

Lemma run_ticks_above symbol stop ticks : forall self,
  stop_loss_orders self !! symbol = Some stop ->
  Forall (fun t => fst t = symbol -> stop < snd t) ticks ->
  Forall (fun ev => existsb (is_stop_loss_for symbol) ev = false)
         (fst (run_ticks self ticks)) /\
  stop_loss_orders (snd (run_ticks self ticks)) !! symbol = Some stop.
Proof.
  induction ticks as [|[s p] rest IH]; intros self Harm Hall; cbn [run_ticks].
  - split; [constructor | assumption].
  - inversion Hall as [|? ? Hhd Htl]; subst.
    destruct (tick_above self symbol stop s p Harm Hhd) as [Hev Hst].
    destruct (check_position_risk self s p) as [ev self1].
    destruct (IH self1 Hst Htl) as [Hevs Hst'].
    destruct (run_ticks self1 rest) as [evs self2].
    split; [constructor; assumption | assumption].
Qed.

Lemma run_ticks_app ticks1 : forall self ticks2,
  run_ticks self (ticks1 ++ ticks2) =
  (fst (run_ticks self ticks1)
     ++ fst (run_ticks (snd (run_ticks self ticks1)) ticks2),
   snd (run_ticks (snd (run_ticks self ticks1)) ticks2)).
Proof.
  induction ticks1 as [|[s p] rest IH]; intros self ticks2; cbn [run_ticks app].
  - cbn. destruct (run_ticks self ticks2); reflexivity.
  - destruct (check_position_risk self s p) as [ev self1].
    rewrite IH. destruct (run_ticks self1 rest) as [evs1 self2]. cbn [fst snd].
    destruct (run_ticks self2 ticks2) as [evs2 self3]. reflexivity.
Qed.

Lemma run_ticks_length ticks : forall self,
  length (fst (run_ticks self ticks)) = length ticks.
Proof.
  induction ticks as [|[s q] rest IH]; intros self; cbn [run_ticks];
    [reflexivity|].
  destruct (check_position_risk self s q) as [e self1]. specialize (IH self1).
  destruct (run_ticks self1 rest). cbn in *. congruence.
Qed.

(** C7: a stop-loss armed for a long position at
    [entry_price * (1 - stop_loss_pct)] reports the liquidation at the first
    tick of the symbol at or below the stop price and is removed by it: no
    tick before reports it, and no tick after does, whatever its price. *)
Theorem stop_loss_once self symbol entry_price pre p post :
  let armed := set_stop_loss self symbol entry_price "LONG" in
  let stop := entry_price * (1 - stop_loss_pct self) in
  Forall (fun t => fst t = symbol -> stop < snd t) pre ->
  p <= stop ->
  exists before at_tick after,
    fst (run_ticks armed (pre ++ (symbol, p) :: post)) =
      before ++ at_tick :: after /\
    length before = length pre /\
    Forall (fun ev => existsb (is_stop_loss_for symbol) ev = false) before /\
    In (StopLossTriggered symbol p) at_tick /\
    Forall (fun ev => existsb (is_stop_loss_for symbol) ev = false) after /\
    stop_loss_orders (snd (run_ticks armed (pre ++ (symbol, p) :: post)))
      !! symbol = None.
Proof.
  intros armed stop Hpre Hle.
  pose proof (set_stop_loss_long self symbol entry_price) as Harm.
  fold armed stop in Harm.
  destruct (run_ticks_above symbol stop pre armed Harm Hpre) as [Hbefore Hst1].
  rewrite run_ticks_app. cbn [fst snd run_ticks].
  destruct (tick_trigger (snd (run_ticks armed pre)) symbol stop p Hst1 Hle)
    as [Hin Hst2].
  destruct (check_position_risk (snd (run_ticks armed pre)) symbol p)
    as [ev self1].
  destruct (run_ticks_unarmed symbol post self1 Hst2) as [Hafter Hst3].
  destruct (run_ticks self1 post) as [evs self2].
  exists (fst (run_ticks armed pre)), ev, evs. cbn [fst snd] in *.
  repeat split; try assumption. apply run_ticks_length.
Qed.

Lemma stop_loss_once_witness :
  exists before at_tick after,
    fst (run_ticks Scenario.armed Scenario.stop_ticks) =
      before ++ at_tick :: after /\
    length before = 2%nat /\
    Forall (fun ev => existsb (is_stop_loss_for Scenario.sym) ev = false)
           before /\
    In (StopLossTriggered Scenario.sym 48900) at_tick /\
    Forall (fun ev => existsb (is_stop_loss_for Scenario.sym) ev = false)
           after /\
    stop_loss_orders (snd (run_ticks Scenario.armed Scenario.stop_ticks))
      !! Scenario.sym = None.
Proof.
  apply (stop_loss_once init Scenario.sym 50000
           [(Scenario.sym, 49500); ("ETHUSDT"%string, 100)] 48900
           [(Scenario.sym, 48000); (Scenario.sym, 47000)]).
  - constructor; [intros _; vm_compute; reflexivity|].
    constructor; [intros E; discriminate E | constructor].
  - vm_compute; discriminate.
Defined.

(** C6: [can_trade] measures a BUY against a fraction of the initial balance,
    whatever the equity is.  After a loss that takes the equity to about
    7743, a BUY of 0.18 at 25000 (4500) exceeds half the equity and the
    executor's own check turns it down for that reason, yet [can_trade]
    admits it. *)
Theorem can_trade_ignores_equity :
  TradeExecutor.get_total_value Scenario.loss2
    * TradeExecutor.max_position_size Scenario.loss2 < 0.18 * 25000 /\
  can_trade init 0 Scenario.sym "BUY" (Some 0.18) (Some 25000) = true /\
  TradeExecutor._risk_check Scenario.loss2 Scenario.sym TradeExecutor.BUY
                            0.18 25000
    = Some TradeExecutor.PositionLimitExceeded.
Proof. repeat split; vm_compute; reflexivity. Qed.

End Risk.

(** *** The signal generators *)

Section Signals.
Import Num Float Pandas TradingStrategy.
Local Open Scope Q_scope.

Lemma Qltb_irrefl a : Qltb a a = false.
Proof. unfold Qltb. rewrite negb_false_iff. apply Qle_bool_iff, Qle_refl. Qed.

Lemma flt_irrefl x : flt x x = false.
Proof. destruct x; cbn; auto using Qltb_irrefl. Qed.

Lemma fle_nan_l x : fle NaN x = false.
Proof. reflexivity. Qed.

Lemma fle_nan_r x : fle x NaN = false.
Proof. destruct x; reflexivity. Qed.

Lemma rolling_mean_length w series :
  length (rolling_mean w series) = length series.
Proof. apply length_imap. Qed.

Lemma rolling_mean_warmup w series i :
  (w = 0 \/ S i < w)%nat -> (i < length series)%nat ->
  rolling_mean w series !! i = Some NaN.
Proof.
  intros Hw Hi. unfold rolling_mean. rewrite list_lookup_imap.
  destruct (lookup_lt_is_Some_2 series i Hi) as [x ->].
  cbn [fmap option_fmap option_map].
  destruct Hw as [->|Hw]; [reflexivity|].
  apply Nat.ltb_lt in Hw. rewrite Hw, orb_true_r. reflexivity.
Qed.

Lemma iloc_back_lookup k series :
  (k <= length series)%nat ->
  iloc_back k series = series !! (length series - k)%nat.
Proof.
  intros Hk. unfold iloc_back.
  destruct (Nat.ltb_spec (length series) k); [lia | reflexivity].
Qed.

Lemma validate_data_close data :
  validate_data data = true ->
  (rows data <> 0)%nat /\
  exists close, columns data !! "close"%string = Some close.
Proof.
  unfold validate_data. destruct (Nat.eqb_spec (rows data) 0); [discriminate|].
  cbn [forallb]. rewrite !andb_true_iff.
  intros (_ & _ & _ & Hc & _). apply bool_decide_eq_true in Hc.
  split; [assumption|]. destruct Hc as [c Hc]. eauto.
Qed.

Lemma frame_well_formed close : well_formed (Scenario.frame close).
Proof.
  intros name series. unfold Scenario.frame. cbn [columns rows].
  rewrite !list_to_map_cons, list_to_map_nil.
  rewrite !lookup_insert_Some, lookup_empty.
  intros H. repeat destruct H as [[_ H]|[_ H]]; try discriminate H;
    subst series; apply length_map.
Qed.

(** With exactly [max short long] candles the previous value of the longer
    average is still NaN (or, for a single candle, both averages coincide),
    so neither cross is detected. *)
Lemma dual_ma_signal_boundary self data :
  well_formed data ->
  validate_data data = true ->
  rows data = Nat.max (short_period self) (long_period self) ->
  dual_ma_signal self data = None.
Proof.
  intros Hwf Hval Hrows.
  destruct (validate_data_close data Hval) as [Hnz [close Hclose]].
  pose proof (Hwf _ _ Hclose) as Hlen.
  assert (Hpos : (1 <= rows data)%nat) by lia.
  unfold dual_ma_signal. rewrite Hclose. cbn [mbind option_bind].
  set (sma := rolling_mean (short_period self) close).
  set (lma := rolling_mean (long_period self) close).
  assert (Hls : length sma = rows data)
    by (unfold sma; rewrite rolling_mean_length; exact Hlen).
  assert (Hll : length lma = rows data)
    by (unfold lma; rewrite rolling_mean_length; exact Hlen).
  rewrite Hls, Hll.
  rewrite (iloc_back_lookup 1 sma), (iloc_back_lookup 1 lma) by lia.
  rewrite Hls, Hll.
  destruct (lookup_lt_is_Some_2 sma (rows data - 1)) as [cs Ecs]; [lia|].
  destruct (lookup_lt_is_Some_2 lma (rows data - 1)) as [cl Ecl]; [lia|].
  rewrite Ecs, Ecl. cbn [mbind option_bind].
  destruct (Nat.ltb_spec 1 (rows data)) as [E2|E2].
  - (* at least two candles: the previous value of a full window is NaN *)
    rewrite (iloc_back_lookup 2 sma), (iloc_back_lookup 2 lma) by lia.
    rewrite Hls, Hll.
    destruct (lookup_lt_is_Some_2 sma (rows data - 2)) as [ps Eps]; [lia|].
    destruct (lookup_lt_is_Some_2 lma (rows data - 2)) as [pl Epl]; [lia|].
    rewrite Eps, Epl. cbn [mbind option_bind].
    destruct (iloc_back 1 close) as [cp|]; [|reflexivity].
    cbn [mbind option_bind].
    assert (Hnan : ps = NaN \/ pl = NaN).
    { destruct (Nat.max_dec (short_period self) (long_period self)) as [Hm|Hm].
      - left. unfold sma in Eps. rewrite rolling_mean_warmup in Eps by lia.
        congruence.
      - right. unfold lma in Epl. rewrite rolling_mean_warmup in Epl by lia.
        congruence. }
    unfold fge. destruct Hnan as [->| ->]; rewrite ?fle_nan_l, ?fle_nan_r;
      reflexivity.
  - (* a single candle: previous and current values are the same *)
    assert (Hone : rows data = 1%nat) by lia.
    cbn [mbind option_bind].
    destruct (iloc_back 1 close) as [cp|]; [|reflexivity].
    cbn [mbind option_bind].
    rewrite Hone in Ecs, Ecl. cbn [Nat.sub] in Ecs, Ecl.
    destruct (Nat.eq_dec (short_period self) 0%nat) as [Hs0|Hs0].
    { unfold sma in Ecs. rewrite rolling_mean_warmup in Ecs by lia.
      injection Ecs as <-. unfold fge. rewrite ?fle_nan_l, ?fle_nan_r.
      reflexivity. }
    destruct (Nat.eq_dec (long_period self) 0%nat) as [Hl0|Hl0].
    { unfold lma in Ecl. rewrite rolling_mean_warmup in Ecl by lia.
      injection Ecl as <-. unfold fge. rewrite ?fle_nan_l, ?fle_nan_r.
      reflexivity. }
    assert (Hsl : short_period self = long_period self) by lia.
    unfold sma, lma in *. rewrite Hsl in Ecs. rewrite Ecs in Ecl.
    injection Ecl as ->.
    unfold fgt. rewrite flt_irrefl, !andb_false_r. reflexivity.
Qed.

Lemma dual_ma_short_history self data :
  well_formed data ->
  (rows data < Nat.max (short_period self) (long_period self) + 1)%nat ->
  dual_ma_generate_signal self data = (None, self).
Proof.
  intros Hwf Hlt. unfold dual_ma_generate_signal.
  destruct (validate_data data) eqn:Hval; [|reflexivity]. cbn [negb orb].
  destruct (Nat.ltb_spec (rows data)
              (Nat.max (short_period self) (long_period self))); [reflexivity|].
  rewrite dual_ma_signal_boundary; [reflexivity|assumption|assumption|lia].
Qed.

Lemma rsi_short_history self data :
  (rows data < period self + 1)%nat ->
  rsi_generate_signal self data = (None, self, data).
Proof.
  intros Hlt. unfold rsi_generate_signal.
  apply Nat.ltb_lt in Hlt. rewrite Hlt, orb_true_r. reflexivity.
Qed.

Lemma macd_short_history self data :
  (rows data < Nat.max (slow_period self) (signal_period self) + 1)%nat ->
  macd_generate_signal self data = (None, self, data).
Proof.
  intros Hlt. unfold macd_generate_signal.
  apply Nat.ltb_lt in Hlt. rewrite Hlt, orb_true_r. reflexivity.
Qed.

(** C5: on a candle frame with fewer rows than the largest period its
    length guard looks at, plus one, every generator returns no signal and
    leaves the strategy and the frame as they were.  The periods are
    short and long for DualMA (so fewer than [max short long + 1] rows give
    no signal), the period for RSI, and slow and signal, not fast, for
    MACD. *)
Theorem short_history self data :
  well_formed data ->
  (rows data < max_list (guard_periods self) + 1)%nat ->
  generate_signal self data = (None, self, data).
Proof.
  intros Hwf Hlt. destruct self as [s|s|s]; cbn [guard_periods max_list] in Hlt;
    rewrite ?Nat.max_0_r in Hlt; cbn [generate_signal].
  - rewrite dual_ma_short_history by assumption. reflexivity.
  - rewrite rsi_short_history by assumption. reflexivity.
  - rewrite macd_short_history by assumption. reflexivity.
Qed.

Lemma short_history_witness :
  generate_signal (DualMA Scenario.dual_1_2) (Scenario.frame [1; 2])
  = (None, DualMA Scenario.dual_1_2, Scenario.frame [1; 2]).
Proof.
  apply (short_history (DualMA Scenario.dual_1_2) (Scenario.frame [1; 2])).
  - apply frame_well_formed.
  - cbn. lia.
Defined.

(** A MACD generator with fast period 3, slow period 1 and signal period 2
    gets three candles, fewer than [max 3 1 2 + 1], and emits a BUY. *)
Lemma macd_fast_period_unguarded :
  (rows (Scenario.frame [4; 4; 2]%Q)
   < max_list (periods (MACD Scenario.macd_fast_long)) + 1)%nat /\
  exists signal,
    fst (fst (generate_signal (MACD Scenario.macd_fast_long)
                              (Scenario.frame [4; 4; 2]))) = Some signal /\
    signal_type signal = "BUY"%string.
Proof.
  split; [cbn; lia|].
  eexists; split; [vm_compute; reflexivity | reflexivity].
Qed.

(** **** What a call changes *)

Lemma not_indicator_required name :
  name ∈ ["open"; "high"; "low"; "close"; "volume"]%string ->
  name ∉ indicator_columns.
Proof.
  unfold indicator_columns. rewrite !elem_of_cons, !elem_of_nil.
  intros H1 H2. repeat destruct H1 as [H1|H1]; try subst name;
    try exact H1; repeat destruct H2 as [H2|H2]; try discriminate H2;
    exact H2.
Qed.

Lemma same_outside_refl data : same_outside_indicators data data.
Proof. split; reflexivity. Qed.

Lemma same_outside_set_column data data' name series :
  same_outside_indicators data data' ->
  name ∈ indicator_columns ->
  same_outside_indicators data (set_column data' name series).
Proof.
  intros [Hrows Hcols] Hin. split; [exact Hrows|].
  intros n Hn. cbn [set_column columns].
  rewrite lookup_insert_ne by (intros ->; contradiction).
  apply Hcols, Hn.
Qed.

Lemma validate_data_same_outside data data' :
  same_outside_indicators data data' ->
  validate_data data' = validate_data data.
Proof.
  intros [Hrows Hcols]. unfold validate_data. rewrite Hrows.
  cbn [forallb].
  rewrite !Hcols
    by (apply not_indicator_required; rewrite !elem_of_cons; tauto).
  reflexivity.
Qed.

Lemma add_signal_length base signal :
  (length (signals_history (add_signal base signal)) <= 1000)%nat.
Proof.
  unfold add_signal. cbn [signals_history].
  destruct (Nat.ltb_spec 1000 (length (signals_history base ++ [signal]))).
  - rewrite length_drop. lia.
  - assumption.
Qed.

Lemma indicator_column_1 : "rsi"%string ∈ indicator_columns.
Proof. unfold indicator_columns. rewrite !elem_of_cons. tauto. Qed.

Lemma indicator_column_2 : "macd"%string ∈ indicator_columns.
Proof. unfold indicator_columns. rewrite !elem_of_cons. tauto. Qed.

Lemma indicator_column_3 : "macd_signal"%string ∈ indicator_columns.
Proof. unfold indicator_columns. rewrite !elem_of_cons. tauto. Qed.

Lemma indicator_column_4 : "macd_histogram"%string ∈ indicator_columns.
Proof. unfold indicator_columns. rewrite !elem_of_cons. tauto. Qed.

Lemma rsi_prepare_same_outside self data data1 :
  rsi_prepare self data = Some data1 ->
  same_outside_indicators data data1 /\
  is_Some (columns data1 !! "rsi"%string).
Proof.
  unfold rsi_prepare.
  destruct (columns data !! "rsi"%string) as [rsi|] eqn:Hrsi.
  - intros [= <-]. split; [apply same_outside_refl | rewrite Hrsi; eauto].
  - destruct (columns data !! "close"%string) as [close|]; [|discriminate].
    cbn [mbind option_bind]. intros [= <-]. split.
    + apply same_outside_set_column;
        [apply same_outside_refl | apply indicator_column_1].
    + cbn [set_column columns]. rewrite lookup_insert_eq. eauto.
Qed.

Lemma rsi_prepare_again self data :
  is_Some (columns data !! "rsi"%string) -> rsi_prepare self data = Some data.
Proof. intros [rsi H]. unfold rsi_prepare. rewrite H. reflexivity. Qed.

Lemma rsi_generate_signal_effects self data :
  let '(r, self', data') := rsi_generate_signal self data in
  same_outside_indicators data data' /\
  (period self' = period self /\ overbought self' = overbought self /\
   oversold self' = oversold self) /\
  rsi_base self' = match r with
                   | Some signal => add_signal (rsi_base self) signal
                   | None => rsi_base self
                   end /\
  fst (fst (rsi_generate_signal self' data')) = r /\
  snd (rsi_generate_signal self' data') = data'.
Proof.
  destruct (rsi_generate_signal self data) as [[r self'] data'] eqn:E.
  revert E. unfold rsi_generate_signal at 1.
  destruct (negb (validate_data data) || (rows data <? period self + 1)%nat)
    eqn:Hguard.
  { intros [= <- <- <-]. repeat split;
      unfold rsi_generate_signal; rewrite Hguard; reflexivity. }
  destruct (rsi_prepare self data) as [data1|] eqn:Hprep.
  2:{ intros [= <- <- <-]. repeat split;
        unfold rsi_generate_signal; rewrite Hguard, Hprep; reflexivity. }
  destruct (rsi_prepare_same_outside self data data1 Hprep) as [Hext Hcol].
  pose proof (validate_data_same_outside data data1 Hext) as Hval1.
  assert (Hrows : rows data1 = rows data) by apply Hext.
  destruct (rsi_signal self data1) as [signal|] eqn:Hsig;
    intros [= <- <- <-]; (split; [exact Hext|]);
    cbn [period overbought oversold rsi_base];
    (split; [repeat split|]); (split; [reflexivity|]);
    unfold rsi_generate_signal; cbn [period];
    rewrite Hval1, Hrows, Hguard, (rsi_prepare_again _ data1 Hcol);
    [change (rsi_signal (mkRSI (add_signal (rsi_base self) signal)
                               (period self) (overbought self) (oversold self))
                        data1)
       with (rsi_signal self data1)|];
    rewrite Hsig; split; reflexivity.
Qed.

Lemma macd_prepare_same_outside self data data1 :
  macd_prepare self data = Some data1 ->
  same_outside_indicators data data1 /\
  is_Some (columns data1 !! "macd"%string).
Proof.
  unfold macd_prepare.
  destruct (columns data !! "macd"%string) as [macd|] eqn:Hmacd.
  - intros [= <-]. split; [apply same_outside_refl | rewrite Hmacd; eauto].
  - destruct (columns data !! "close"%string) as [close|]; [|discriminate].
    cbn [mbind option_bind].
    destruct (_calculate_macd self close) as [[[macd sig] hist]|];
      [|discriminate].
    cbn [mbind option_bind]. intros [= <-]. split.
    + apply same_outside_set_column; [|apply indicator_column_4].
      apply same_outside_set_column; [|apply indicator_column_3].
      apply same_outside_set_column; [|apply indicator_column_2].
      apply same_outside_refl.
    + cbn [set_column columns].
      rewrite !lookup_insert_ne by discriminate.
      rewrite lookup_insert_eq. eauto.
Qed.

Lemma macd_prepare_again self data :
  is_Some (columns data !! "macd"%string) -> macd_prepare self data = Some data.
Proof. intros [macd H]. unfold macd_prepare. rewrite H. reflexivity. Qed.

Lemma macd_generate_signal_effects self data :
  let '(r, self', data') := macd_generate_signal self data in
  same_outside_indicators data data' /\
  (fast_period self' = fast_period self /\
   slow_period self' = slow_period self /\
   signal_period self' = signal_period self) /\
  macd_base self' = match r with
                    | Some signal => add_signal (macd_base self) signal
                    | None => macd_base self
                    end /\
  fst (fst (macd_generate_signal self' data')) = r /\
  snd (macd_generate_signal self' data') = data'.
Proof.
  destruct (macd_generate_signal self data) as [[r self'] data'] eqn:E.
  revert E. unfold macd_generate_signal at 1.
  destruct (negb (validate_data data)
            || (rows data
                <? Nat.max (slow_period self) (signal_period self) + 1)%nat)
    eqn:Hguard.
  { intros [= <- <- <-]. repeat split;
      unfold macd_generate_signal; rewrite Hguard; reflexivity. }
  destruct (macd_prepare self data) as [data1|] eqn:Hprep.
  2:{ intros [= <- <- <-]. repeat split;
        unfold macd_generate_signal; rewrite Hguard, Hprep; reflexivity. }
  destruct (macd_prepare_same_outside self data data1 Hprep) as [Hext Hcol].
  pose proof (validate_data_same_outside data data1 Hext) as Hval1.
  assert (Hrows : rows data1 = rows data) by apply Hext.
  destruct (macd_signal_of self data1) as [signal|] eqn:Hsig;
    intros [= <- <- <-]; (split; [exact Hext|]);
    cbn [fast_period slow_period signal_period macd_base];
    (split; [repeat split|]); (split; [reflexivity|]);
    unfold macd_generate_signal; cbn [fast_period slow_period signal_period];
    rewrite Hval1, Hrows, Hguard, (macd_prepare_again _ data1 Hcol);
    [change (macd_signal_of (mkMACD (add_signal (macd_base self) signal)
                               (fast_period self) (slow_period self)
                               (signal_period self)) data1)
       with (macd_signal_of self data1)|];
    rewrite Hsig; split; reflexivity.
Qed.

Lemma dual_ma_signal_cross self data signal cross :
  dual_ma_signal self data = Some (signal, cross) -> cross = cross_of signal.
Proof.
  unfold dual_ma_signal.
  repeat match goal with
         | |- context [mbind _ ?x] =>
             destruct x; cbn [mbind option_bind]; [|discriminate]
         end.
  match goal with
  | |- (if ?c then _ else _) = _ -> _ => destruct c
  end; [intros [= <- <-]; reflexivity|].
  match goal with
  | |- (if ?c then _ else _) = _ -> _ => destruct c; [|discriminate]
  end.
  intros [= <- <-]. reflexivity.
Qed.

Lemma dual_ma_generate_signal_effects self data :
  let '(r, self') := dual_ma_generate_signal self data in
  (short_period self' = short_period self /\
   long_period self' = long_period self /\
   signal_threshold self' = signal_threshold self /\
   last_ma_cross self' = match r with
                         | Some signal => Some (cross_of signal)
                         | None => last_ma_cross self
                         end) /\
  dma_base self' = match r with
                   | Some signal => add_signal (dma_base self) signal
                   | None => dma_base self
                   end /\
  fst (dual_ma_generate_signal self' data) = r.
Proof.
  destruct (dual_ma_generate_signal self data) as [r self'] eqn:E.
  revert E. unfold dual_ma_generate_signal at 1.
  destruct (negb (validate_data data)
            || (rows data
                <? Nat.max (short_period self) (long_period self))%nat)
    eqn:Hguard.
  { intros [= <- <-]. repeat split.
    unfold dual_ma_generate_signal; rewrite Hguard; reflexivity. }
  destruct (dual_ma_signal self data) as [[signal cross]|] eqn:Hsig;
    intros [= <- <-];
    cbn [short_period long_period signal_threshold last_ma_cross dma_base];
    (split;
     [repeat split;
      rewrite (dual_ma_signal_cross self data signal cross Hsig); reflexivity
     |]);
    (split; [reflexivity|]);
    unfold dual_ma_generate_signal; cbn [short_period long_period];
    rewrite Hguard;
    [change (dual_ma_signal (mkDualMA (add_signal (dma_base self) signal)
                               (short_period self) (long_period self)
                               (signal_threshold self) (Some cross)) data)
       with (dual_ma_signal self data)|];
    rewrite Hsig; reflexivity.
Qed.



End Signals.

(** *** Positions: cost basis and PnL *)

Section PositionAccounting.
Import Num TradeExecutor.
Local Open Scope Q_scope.

Lemma new_Position_ok symbol : position_ok (new_Position symbol).
Proof.
  unfold position_ok, new_Position. cbn.
  split; [apply Qle_refl|]. split; [ring | intros _; reflexivity].
Qed.

Lemma update_position_preserves p trade :
  position_ok p -> 0 < trd_quantity trade ->
  position_ok (update_position p trade).
Proof.
  intros (Hq & Hc & Hz) Ht. unfold position_ok, update_position.
  destruct (trd_side trade).
  - assert (Hpos : 0 < pos_quantity p + trd_quantity trade) by lra.
    pose proof Hpos as Hb. apply Qgtb_gt in Hb. rewrite Hb.
    cbn [pos_quantity pos_avg_price pos_total_cost].
    split; [lra|]. split.
    + field. intros E. rewrite E in Hpos. revert Hpos. apply Qlt_irrefl.
    + intros E. rewrite E in Hpos. exfalso. revert Hpos. apply Qlt_irrefl.
  - destruct (Qgtb (pos_quantity p) 0) eqn:Hheld.
    + destruct (Qleb (pos_quantity p - trd_quantity trade) 0) eqn:Hflat;
        cbn [pos_quantity pos_avg_price pos_total_cost].
      * split; [apply Qle_refl|]. split; [ring | intros _; reflexivity].
      * apply Qleb_gt in Hflat. split; [lra|]. split.
        -- rewrite Hc. ring.
        -- intros E. rewrite E in Hflat. exfalso. revert Hflat.
           apply Qlt_irrefl.
    + cbn [pos_quantity pos_avg_price pos_total_cost]. auto.
Qed.

Lemma held_ok : position_ok Scenario.held.
Proof.
  apply update_position_preserves; [apply new_Position_ok | reflexivity].
Qed.

(** A trade of positive quantity keeps a position sound: the quantity
    stays non-negative (a SELL of more than is held leaves the position flat,
    never short), and a flat position has average price 0 and total cost
    0.  A BUY leaves the position open. *)
Theorem update_position_sound p trade :
  position_sound p -> 0 < trd_quantity trade ->
  position_sound (update_position p trade) /\
  (trd_side trade = BUY -> 0 < pos_quantity (update_position p trade)).
Proof.
  intros (Hq & Hz) Ht. unfold position_sound, update_position.
  destruct (trd_side trade).
  - assert (Hpos : 0 < pos_quantity p + trd_quantity trade) by lra.
    pose proof Hpos as Hb. apply Qgtb_gt in Hb. rewrite Hb.
    cbn [pos_quantity pos_avg_price pos_total_cost].
    split; [|intros _; exact Hpos].
    split; [lra|].
    intros E. rewrite E in Hpos. exfalso. revert Hpos. apply Qlt_irrefl.
  - split; [|discriminate].
    destruct (Qgtb (pos_quantity p) 0) eqn:Hheld.
    + destruct (Qleb (pos_quantity p - trd_quantity trade) 0) eqn:Hflat;
        cbn [pos_quantity pos_avg_price pos_total_cost].
      * split; [apply Qle_refl|]. intros _. split; reflexivity.
      * apply Qleb_gt in Hflat. split; [lra|].
        intros E. rewrite E in Hflat. exfalso. revert Hflat.
        apply Qlt_irrefl.
    + cbn [pos_quantity pos_avg_price pos_total_cost]. auto.
Qed.

Lemma update_position_sound_witness :
  position_sound
    (update_position Scenario.held
       (new_Trade 1 1 Scenario.sym SELL 0.25 60000 15)).
Proof.
  apply update_position_sound; [|reflexivity].
  split; [vm_compute; discriminate|].
  intros E. vm_compute in E. discriminate E.
Defined.

(** A BUY moves the average price to the quantity-weighted mean of the old
    average price and the trade price. *)
Theorem buy_average_price p id order_id symbol quantity price commission :
  position_ok p -> 0 < quantity ->
  let p' :=
    update_position p (new_Trade id order_id symbol BUY quantity price
                                 commission) in
  pos_quantity p' == pos_quantity p + quantity /\
  pos_avg_price p' ==
    (pos_quantity p * pos_avg_price p + quantity * price)
    / (pos_quantity p + quantity) /\
  pos_realized_pnl p' == pos_realized_pnl p.
Proof.
  intros (Hq & Hc & Hz) Ht. unfold update_position, new_Trade.
  cbn [trd_side trd_total trd_quantity trd_commission].
  assert (Hpos : 0 < pos_quantity p + quantity) by lra.
  pose proof Hpos as Hb. apply Qgtb_gt in Hb. rewrite Hb.
  cbn [pos_quantity pos_avg_price pos_realized_pnl].
  split; [reflexivity|]. split; [|reflexivity].
  rewrite Hc. reflexivity.
Qed.

Lemma buy_average_price_witness :
  let p' :=
    update_position Scenario.held
      (new_Trade 1 1 Scenario.sym BUY 0.3 60000 18) in
  pos_quantity p' == 0.4 /\ pos_avg_price p' == 57500.
Proof.
  pose proof (buy_average_price Scenario.held 1 1 Scenario.sym 0.3 60000 18
                held_ok eq_refl) as (Hq & Ha & _).
  split; [rewrite Hq | rewrite Ha]; vm_compute; reflexivity.
Defined.

(** A SELL from an open position realizes the difference between the trade
    price and the average price on the quantity sold.  Selling less than is
    held keeps the average price; selling as much or more leaves the
    position flat. *)
Theorem sell_realizes_pnl p id order_id symbol quantity price commission :
  0 < pos_quantity p ->
  let p' :=
    update_position p (new_Trade id order_id symbol SELL quantity price
                                 commission) in
  pos_realized_pnl p' ==
    pos_realized_pnl p + quantity * (price - pos_avg_price p) /\
  (quantity < pos_quantity p ->
   pos_quantity p' == pos_quantity p - quantity /\
   pos_avg_price p' == pos_avg_price p) /\
  (pos_quantity p <= quantity ->
   pos_quantity p' == 0 /\ pos_avg_price p' == 0 /\ pos_total_cost p' == 0).
Proof.
  intros Hheld. unfold update_position, new_Trade.
  cbn [trd_side trd_total trd_quantity trd_commission].
  apply Qgtb_gt in Hheld. rewrite Hheld.
  destruct (Qleb (pos_quantity p - quantity) 0) eqn:Hflat;
    cbn [pos_quantity pos_avg_price pos_realized_pnl pos_total_cost].
  - apply Qleb_le in Hflat. split; [ring|]. split.
    + intros Hlt. exfalso. lra.
    + intros _. repeat split; reflexivity.
  - apply Qleb_gt in Hflat. split; [ring|]. split.
    + intros _. split; reflexivity.
    + intros Hle. exfalso. lra.
Qed.

Lemma sell_realizes_pnl_witness :
  let p' :=
    update_position Scenario.held
      (new_Trade 1 1 Scenario.sym SELL 0.04 60000 0) in
  pos_realized_pnl p' ==
    pos_realized_pnl Scenario.held
    + 0.04 * (60000 - pos_avg_price Scenario.held).
Proof.
  apply (sell_realizes_pnl Scenario.held 1 1 Scenario.sym 0.04 60000 0).
  vm_compute; reflexivity.
Defined.

(** [calculate_unrealized_pnl] writes the unrealized PnL and nothing else
    of the position.  For a consistent position at a positive price the
    value is the quantity times the distance of the price from the average
    price; for a flat position or a price that is not positive it is 0. *)
Theorem unrealized_pnl_formula p current_price :
  position_ok p ->
  let p' := calculate_unrealized_pnl p current_price in
  (0 < pos_quantity p -> 0 < current_price ->
   pos_unrealized_pnl p' ==
     pos_quantity p * (current_price - pos_avg_price p)) /\
  (pos_quantity p <= 0 \/ current_price <= 0 -> pos_unrealized_pnl p' == 0) /\
  p' = mkPosition (pos_symbol p) (pos_quantity p) (pos_avg_price p)
                  (pos_realized_pnl p) (pos_unrealized_pnl p')
                  (pos_total_cost p) (pos_total_commission p) /\
  position_ok p'.
Proof.
  intros (Hq & Hc & Hz). unfold calculate_unrealized_pnl.
  cbn [pos_unrealized_pnl]. split; [|split; [|split]].
  - intros H1 H2. apply Qgtb_gt in H1, H2. rewrite H1, H2. cbn [andb].
    rewrite Hc. ring.
  - intros [H|H]; apply Qgtb_le in H; rewrite H, ?andb_false_r; reflexivity.
  - reflexivity.
  - unfold position_ok. cbn [pos_quantity pos_avg_price pos_total_cost]. auto.
Qed.

Lemma unrealized_pnl_formula_witness :
  let p' := calculate_unrealized_pnl Scenario.held 60000 in
  pos_unrealized_pnl p' ==
    pos_quantity Scenario.held * (60000 - pos_avg_price Scenario.held) /\
  pos_realized_pnl p' = pos_realized_pnl Scenario.held /\
  pos_total_cost p' = pos_total_cost Scenario.held /\
  pos_total_commission p' = pos_total_commission Scenario.held.
Proof.
  pose proof (unrealized_pnl_formula Scenario.held 60000 held_ok)
    as (Hu & _ & Hframe & _).
  split; [apply Hu; vm_compute; reflexivity|].
  cbv zeta. rewrite Hframe. repeat split.
Defined.

End PositionAccounting.

(** *** The ledger invariant *)

Section LedgerInvariant.
Import Num TradeExecutor.
Local Open Scope Q_scope.

Lemma calculate_unrealized_pnl_ok p price :
  position_ok p -> position_ok (calculate_unrealized_pnl p price).
Proof. intros H. exact H. Qed.

Lemma filter_is_sell_snoc ts trade :
  length (List.filter is_sell (ts ++ [trade])) =
  (length (List.filter is_sell ts) + if is_sell trade then 1 else 0)%nat.
Proof.
  rewrite List.filter_app, length_app. cbn [List.filter].
  destruct (is_sell trade); reflexivity.
Qed.

Lemma execute_order_books st o p :
  books_ok st -> 0 < ord_quantity o ->
  books_ok (snd (_execute_order st o p)).
Proof.
  intros (Hpos & Htot & Hwl) Hq.
  unfold _execute_order.
  set (trade := new_Trade _ _ _ _ _ _ _).
  assert (Hmap : map_Forall (fun _ p => position_ok p)
                   (<[trd_symbol trade :=
                        update_position
                          match positions st !! trd_symbol trade with
                          | Some p0 => p0
                          | None => new_Position (trd_symbol trade)
                          end trade]> (positions st))).
  { apply map_Forall_insert_2; [|exact Hpos].
    apply update_position_preserves; [|exact Hq].
    destruct (positions st !! trd_symbol trade) as [p0|] eqn:E.
    - exact (Hpos _ _ E).
    - apply new_Position_ok. }
  unfold books_ok, _update_balance_and_position.
  destruct (trd_side trade) eqn:Hside;
    cbn [snd positions trades total_trades winning_trades losing_trades];
    (split; [exact Hmap|]); rewrite length_app, filter_is_sell_snoc;
    unfold is_sell at 2; rewrite Hside; cbn [length].
  - split; lia.
  - split; [lia|].
    destruct (Qgtb _ 0); lia.
Qed.

Lemma scanned_keeps symbol p sti o :
  ord_id (scanned symbol p sti o) = ord_id o /\
  ord_quantity (scanned symbol p sti o) = ord_quantity o.
Proof.
  unfold scanned.
  destruct (is_pending (ord_status o) && String.eqb (ord_symbol o) symbol);
    [destruct (fill_price o p)|]; split; reflexivity.
Qed.

Lemma scan_orders_books symbol p os : forall st,
  Forall (fun o => 0 < ord_quantity o) os -> books_ok st ->
  books_ok (snd (scan_orders symbol p os st)).
Proof.
  induction os as [|o rest IH]; intros st Hall Hok; cbn [scan_orders];
    [exact Hok|].
  inversion Hall as [|? ? Hq Hrest]; subst.
  destruct (if is_pending (ord_status o) && String.eqb (ord_symbol o) symbol
            then match fill_price o p with
                 | Some ep => _execute_order st o ep
                 | None => (o, st)
                 end
            else (o, st)) as [o' st'] eqn:Hhead.
  assert (Hok' : books_ok st').
  { destruct (is_pending (ord_status o) && String.eqb (ord_symbol o) symbol);
      [destruct (fill_price o p) as [ep|]|].
    - change st' with (snd (o', st')). rewrite <- Hhead.
      apply execute_order_books; assumption.
    - injection Hhead as _ <-. exact Hok.
    - injection Hhead as _ <-. exact Hok. }
  specialize (IH st' Hrest Hok').
  destruct (scan_orders symbol p rest st') as [rest' st'']. exact IH.
Qed.

Lemma orders_ok_quantities os :
  orders_ok os -> Forall (fun o => 0 < ord_quantity o) os.
Proof.
  intros H. apply Forall_lookup. intros i o Hi. apply (H i o Hi).
Qed.

Lemma update_price_length st symbol p :
  length (orders (update_price st symbol p)) = length (orders st).
Proof.
  unfold update_price, _check_pending_orders.
  set (st1 := mkExecutor _ _ _ _ _ _ _ _ _ _ _ _ _).
  pose proof (scan_orders_length symbol p (orders st1) st1) as H.
  destruct (scan_orders symbol p (orders st1) st1) as [os st'].
  exact H.
Qed.

Lemma update_price_ok st symbol p :
  ledger_ok st -> ledger_ok (update_price st symbol p).
Proof.
  intros [Hbooks Horders]. split.
  - unfold update_price, _check_pending_orders.
    set (st1 := mkExecutor _ _ _ _ _ _ _ _ _ _ _ _ _).
    assert (Hok1 : books_ok st1).
    { destruct Hbooks as (Hpos & Htot & Hwl). split; [|split; assumption].
      unfold st1. cbn [positions].
      destruct (positions st !! symbol) as [pos|] eqn:E; [|exact Hpos].
      apply map_Forall_insert_2; [|exact Hpos].
      apply calculate_unrealized_pnl_ok. exact (Hpos _ _ E). }
    pose proof (scan_orders_books symbol p (orders st1) st1
                  (orders_ok_quantities _ Horders) Hok1) as H.
    destruct (scan_orders symbol p (orders st1) st1) as [os st'].
    exact H.
  - intros i o' Hi.
    assert (Hlt : (i < length (orders st))%nat).
    { rewrite <- (update_price_length st symbol p).
      apply lookup_lt_is_Some_1. eauto. }
    destruct (lookup_lt_is_Some_2 _ _ Hlt) as [o Ho].
    destruct (update_price_orders st symbol p i o Ho) as (sti & _ & _ & Hl).
    rewrite Hl in Hi. injection Hi as <-.
    destruct (scanned_keeps symbol p sti o) as [-> ->].
    exact (Horders i o Ho).
Qed.

Lemma orders_ok_snoc os o :
  orders_ok os -> ord_id o = length os -> 0 < ord_quantity o ->
  orders_ok (os ++ [o]).
Proof.
  intros Hos Hid Hq i o' Hi.
  apply lookup_app_Some in Hi. destruct Hi as [Hi|[Hge Hi]].
  - exact (Hos i o' Hi).
  - apply list_lookup_singleton_Some in Hi. destruct Hi as [Hi <-].
    split; [lia | exact Hq].
Qed.

Lemma place_order_ok st symbol side order_type quantity price stop_price :
  ledger_ok st ->
  ledger_ok (snd (place_order st symbol side order_type quantity price
                              stop_price)).
Proof.
  intros Hok. unfold place_order.
  destruct (Qleb quantity 0) eqn:Hq; [exact Hok|]. apply Qleb_gt in Hq.
  destruct (current_prices st !! symbol) as [cp|]; [|exact Hok].
  destruct (match order_type with MARKET => Some cp | _ => price end)
    as [pr|]; [|exact Hok].
  destruct (_risk_check st symbol side quantity pr); [exact Hok|].
  destruct Hok as [Hbooks Horders].
  set (order := new_Order (length (orders st)) symbol side order_type
                          quantity pr stop_price).
  assert (Hrest : ledger_ok (set_orders (orders st ++ [order]) st)).
  { split; [exact Hbooks|]. cbn [set_orders orders].
    apply orders_ok_snoc; [exact Horders | reflexivity | exact Hq]. }
  destruct order_type; try exact Hrest.
  pose proof (execute_order_books st order cp Hbooks Hq) as Hb.
  destruct (_execute_order st order cp) as [o' st'] eqn:He.
  cbn [snd] in *. split; [exact Hb|]. cbn [set_orders orders].
  apply orders_ok_snoc; [exact Horders | |];
    change o' with (fst (o', st')); rewrite <- He; [reflexivity | exact Hq].
Qed.

Lemma cancel_order_ok st order_id :
  ledger_ok st -> ledger_ok (snd (cancel_order st order_id)).
Proof.
  intros Hok. unfold cancel_order.
  destruct (list_find _ (orders st)) as [[i order]|] eqn:Hfind; [|exact Hok].
  destruct (is_pending (ord_status order)); [|exact Hok].
  apply list_find_Some in Hfind. destruct Hfind as (Hi & _ & _).
  destruct Hok as [Hbooks Horders]. split; [exact Hbooks|].
  cbn [snd set_orders orders]. intros j o' Hj.
  apply list_lookup_insert_Some in Hj.
  destruct Hj as [(-> & <- & _)|[Hne Hj]].
  - exact (Horders _ _ Hi).
  - exact (Horders _ _ Hj).
Qed.

Lemma execute_signal_ok st signal_type symbol position_size_pct :
  ledger_ok st ->
  ledger_ok (snd (execute_signal st signal_type symbol position_size_pct)).
Proof.
  intros Hok. unfold execute_signal.
  destruct (negb _); [exact Hok|].
  destruct (current_prices st !! symbol) as [cp|]; [|exact Hok].
  destruct (negb (Qtruthy cp)); [exact Hok|].
  destruct (String.eqb signal_type "BUY").
  - destruct (Qltb _ _); [exact Hok | apply place_order_ok, Hok].
  - destruct (positions st !! symbol) as [pos|]; [|exact Hok].
    destruct (Qleb _ 0); [exact Hok | apply place_order_ok, Hok].
Qed.

Lemma init_ok initial_balance max_position_size commission_rate slippage :
  ledger_ok (init initial_balance max_position_size commission_rate slippage).
Proof.
  split; [split; [apply map_Forall_empty | split; reflexivity]|].
  intros i o Hi. discriminate Hi.
Qed.

Lemma reachable_ledger_ok st : reachable st -> ledger_ok st.
Proof.
  induction 1 as [ib mp cr sl | st symbol price _ IH
                 | st symbol side ty q pr sp _ IH | st id _ IH
                 | st sg symbol pct _ IH].
  - apply init_ok.
  - apply update_price_ok, IH.
  - apply place_order_ok, IH.
  - apply cancel_order_ok, IH.
  - apply execute_signal_ok, IH.
Qed.

Lemma position_ok_sound p : position_ok p -> position_sound p.
Proof.
  intros (Hq & Hc & Hz). split; [exact Hq|].
  intros E. split; [exact (Hz E)|]. rewrite Hc, E. ring.
Qed.

(** Every state an executor reaches through [update_price], [place_order],
    [cancel_order] and [execute_signal] is sound: no position is short, a
    flat position has average price 0 and total cost 0, every trade is
    counted, every SELL is counted as won or lost, and every order has a
    positive quantity and its place in the book as identifier. *)
Theorem reachable_ledger_sound st : reachable st -> ledger_sound st.
Proof.
  intros H. destruct (reachable_ledger_ok st H) as [(Hp & Ht & Hw) Ho].
  split; [|exact Ho]. split; [|split; assumption].
  intros symbol p Hsym. apply position_ok_sound, (Hp symbol p Hsym).
Qed.

Lemma reachable_ledger_sound_witness : ledger_sound Scenario.limit3_tick.
Proof.
  apply reachable_ledger_sound. apply reach_update_price.
  do 3 apply reach_place_order. apply reach_update_price. apply reach_init.
Defined.

End LedgerInvariant.

(** *** Submitting, cancelling and filling orders *)

Section OrderBook.
Import Num TradeExecutor.
Local Open Scope Q_scope.

Lemma place_order_failure st symbol side order_type quantity price stop_price :
  fst (place_order st symbol side order_type quantity price stop_price) = None ->
  snd (place_order st symbol side order_type quantity price stop_price) = st.
Proof.
  unfold place_order.
  destruct (Qleb quantity 0); [reflexivity|].
  destruct (current_prices st !! symbol) as [cp|]; [|reflexivity].
  destruct (match order_type with MARKET => Some cp | _ => price end)
    as [pr|]; [|reflexivity].
  destruct (_risk_check st symbol side quantity pr); [reflexivity|].
  destruct order_type; discriminate.
Qed.

Lemma execute_signal_failure st signal_type symbol position_size_pct :
  fst (execute_signal st signal_type symbol position_size_pct) = None ->
  snd (execute_signal st signal_type symbol position_size_pct) = st.
Proof.
  unfold execute_signal.
  destruct (negb _); [reflexivity|].
  destruct (current_prices st !! symbol) as [cp|]; [|reflexivity].
  destruct (negb (Qtruthy cp)); [reflexivity|].
  destruct (String.eqb signal_type "BUY").
  - destruct (Qltb _ _); [reflexivity | apply place_order_failure].
  - destruct (positions st !! symbol) as [pos|]; [|reflexivity].
    destruct (Qleb _ 0); [reflexivity | apply place_order_failure].
Qed.

Lemma place_order_invalid st symbol side order_type quantity price
    stop_price :
  quantity <= 0 \/ current_prices st !! symbol = None \/
  (order_type <> MARKET /\ price = None) ->
  place_order st symbol side order_type quantity price stop_price = (None, st).
Proof.
  intros H. unfold place_order.
  destruct (Qleb quantity 0) eqn:Hq; [reflexivity|]. apply Qleb_gt in Hq.
  destruct H as [H|[H|[Hty ->]]].
  - exfalso. lra.
  - rewrite H. reflexivity.
  - destruct (current_prices st !! symbol); [|reflexivity].
    destruct order_type; [contradiction | reflexivity ..].
Qed.

(** [place_order] validates its input before anything else: a quantity
    that is not positive, a symbol without a current price, or an order
    other than MARKET without a price gives no order.  And a submission
    that returns no order identifier, through [place_order] or through
    [execute_signal], for these or any other reason, leaves the executor
    exactly as it was: no order is recorded and no balance, position, trade
    or counter moves. *)
Theorem failed_submission_unchanged :
  (forall st symbol side order_type quantity price stop_price,
     quantity <= 0 \/ current_prices st !! symbol = None \/
     (order_type <> MARKET /\ price = None) ->
     place_order st symbol side order_type quantity price stop_price
       = (None, st)) /\
  (forall st symbol side order_type quantity price stop_price,
     fst (place_order st symbol side order_type quantity price stop_price)
       = None ->
     snd (place_order st symbol side order_type quantity price stop_price)
       = st) /\
  (forall st signal_type symbol position_size_pct,
     fst (execute_signal st signal_type symbol position_size_pct) = None ->
     snd (execute_signal st signal_type symbol position_size_pct) = st).
Proof.
  split; [exact place_order_invalid|].
  split; [exact place_order_failure | exact execute_signal_failure].
Qed.

Lemma failed_submission_unchanged_witness :
  place_order Scenario.live0 Scenario.sym BUY LIMIT 0.1 None None
    = (None, Scenario.live0) /\
  snd (place_order Scenario.live0 Scenario.sym BUY MARKET 1 None None)
    = Scenario.live0 /\
  snd (execute_signal Scenario.live0 "SELL" Scenario.sym 0.1) = Scenario.live0.
Proof.
  split; [|split].
  - apply (proj1 failed_submission_unchanged). right. right.
    split; [discriminate | reflexivity].
  - apply (proj1 (proj2 failed_submission_unchanged)). vm_compute.
    reflexivity.
  - apply (proj2 (proj2 failed_submission_unchanged)). vm_compute.
    reflexivity.
Defined.

(** A successful [place_order] appends exactly one order, whose identifier
    is returned.  A MARKET order is priced at the current price and FILLED
    on the spot, in full, at the current price moved by the slippage: up
    for a BUY, down for a SELL.  Any other order rests PENDING at the price
    given, and placing it moves no balance, position or trade. *)
Theorem place_order_accepted st symbol side order_type quantity price
    stop_price id st' :
  place_order st symbol side order_type quantity price stop_price
    = (Some id, st') ->
  id = length (orders st) /\
  exists o,
    orders st' = orders st ++ [o] /\
    ord_id o = id /\ ord_symbol o = symbol /\ ord_side o = side /\
    ord_type o = order_type /\ ord_quantity o = quantity /\
    match order_type with
    | MARKET =>
        ord_status o = FILLED /\ ord_filled_quantity o = quantity /\
        ord_remaining_quantity o = 0 /\
        Some (ord_price o) = current_prices st !! symbol /\
        ord_avg_fill_price o =
          match side with
          | BUY => ord_price o * (1 + slippage st)
          | SELL => ord_price o * (1 - slippage st)
          end /\
        trades st' = trades st ++ ord_fills o /\
        exists trade,
          ord_fills o = [trade] /\
          trd_quantity trade = quantity /\
          trd_price trade = ord_avg_fill_price o
    | _ =>
        ord_status o = PENDING /\ Some (ord_price o) = price /\
        ord_filled_quantity o = 0 /\
        available_balance st' = available_balance st /\
        positions st' = positions st /\ trades st' = trades st
    end.
Proof.
  unfold place_order.
  destruct (Qleb quantity 0); [discriminate|].
  destruct (current_prices st !! symbol) as [cp|]; [|discriminate].
  destruct (match order_type with MARKET => Some cp | _ => price end)
    as [pr|] eqn:Hpr; [|discriminate].
  destruct (_risk_check st symbol side quantity pr); [discriminate|].
  destruct order_type.
  - injection Hpr as <-.
    destruct (_execute_order st _ cp) as [o' st1] eqn:He.
    intros [= <- <-]. split; [reflexivity|]. exists o'.
    assert (Eo : o' = fst (_execute_order st
                   (new_Order (length (orders st)) symbol side MARKET quantity
                              cp stop_price) cp))
      by (rewrite He; reflexivity).
    assert (Es : st1 = snd (_execute_order st
                   (new_Order (length (orders st)) symbol side MARKET quantity
                              cp stop_price) cp))
      by (rewrite He; reflexivity).
    rewrite Eo. unfold set_orders. cbn [orders trades]. rewrite Es.
    unfold _execute_order, _update_balance_and_position.
    cbn [fst snd new_Order ord_id ord_symbol ord_side ord_type ord_quantity
         ord_status ord_filled_quantity ord_remaining_quantity ord_price
         ord_avg_fill_price ord_fills new_Trade trd_side trd_quantity
         trd_price app].
    destruct side; cbn [trades];
      (repeat split; eexists; repeat split).
  - subst price. intros [= <- <-]. split; [reflexivity|].
    eexists. repeat split.
  - subst price. intros [= <- <-]. split; [reflexivity|].
    eexists. repeat split.
  - subst price. intros [= <- <-]. split; [reflexivity|].
    eexists. repeat split.
Qed.

Lemma place_order_accepted_witness :
  0%nat = length (orders Scenario.live0) /\
  exists o,
    orders Scenario.loss1 = orders Scenario.live0 ++ [o] /\
    ord_id o = 0%nat /\ ord_symbol o = Scenario.sym /\ ord_side o = BUY /\
    ord_type o = MARKET /\ ord_quantity o = 0.09 /\
    ord_status o = FILLED /\ ord_filled_quantity o = 0.09 /\
    ord_remaining_quantity o = 0 /\
    Some (ord_price o) = current_prices Scenario.live0 !! Scenario.sym /\
    ord_avg_fill_price o = ord_price o * (1 + slippage Scenario.live0) /\
    trades Scenario.loss1 = trades Scenario.live0 ++ ord_fills o /\
    exists trade,
      ord_fills o = [trade] /\
      trd_quantity trade = 0.09 /\
      trd_price trade = ord_avg_fill_price o.
Proof.
  apply (place_order_accepted Scenario.live0 Scenario.sym BUY MARKET 0.09
           None None 0%nat Scenario.loss1).
  vm_compute. reflexivity.
Defined.


Lemma risk_check_position_limit st symbol quantity price :
  get_total_value st * max_position_size st < quantity * price ->
  exists r, _risk_check st symbol BUY quantity price = Some r.
Proof.
  unfold _risk_check. intros H.
  destruct (Qltb (quantity * price) Config.MIN_TRADE_AMOUNT); [eauto|].
  destruct (Qltb (available_balance st) _); [eauto|].
  apply Qgtb_gt in H. rewrite H. eauto.
Qed.

(** The executor's own gate: a BUY whose value exceeds [max_position_size]
    times the current total value (available balance plus the positions at
    their current prices) is rejected by [_risk_check], and [place_order]
    then creates no order and changes nothing.  The value is taken at the
    current price for a MARKET order and at the given price otherwise. *)
Theorem buy_above_position_limit st symbol order_type quantity price
    stop_price current_price :
  current_prices st !! symbol = Some current_price ->
  let order_price :=
    match order_type with MARKET => current_price | _ => price end in
  get_total_value st * max_position_size st < quantity * order_price ->
  (exists r, _risk_check st symbol BUY quantity order_price = Some r) /\
  place_order st symbol BUY order_type quantity (Some price) stop_price
    = (None, st).
Proof.
  intros Hcp order_price Hlimit.
  destruct (risk_check_position_limit st symbol quantity order_price Hlimit)
    as [r Hr].
  split; [eauto|]. unfold place_order. rewrite Hcp.
  destruct (Qleb quantity 0); [reflexivity|].
  replace (match order_type with MARKET => Some current_price
                               | _ => Some price end)
    with (Some order_price) by (unfold order_price; destruct order_type;
                                reflexivity).
  rewrite Hr. reflexivity.
Qed.

Lemma buy_above_position_limit_witness :
  (exists r, _risk_check Scenario.loss2 Scenario.sym BUY 0.18 25000 = Some r) /\
  place_order Scenario.loss2 Scenario.sym BUY MARKET 0.18 (Some 25000) None
    = (None, Scenario.loss2).
Proof.
  apply (buy_above_position_limit Scenario.loss2 Scenario.sym MARKET 0.18
           25000 None 25000); vm_compute; reflexivity.
Defined.

(** **** Orders that are no longer pending *)

Lemma scanned_unchanged symbol p sti o :
  ord_status o <> PENDING \/ ord_symbol o <> symbol \/ fill_price o p = None ->
  scanned symbol p sti o = o.
Proof.
  intros H. unfold scanned.
  destruct (ord_status o) eqn:Hst; cbn [is_pending andb]; try reflexivity.
  destruct (String.eqb_spec (ord_symbol o) symbol) as [Hs|Hs]; [|reflexivity].
  destruct H as [H|[H|H]]; [contradiction | contradiction |].
  rewrite H. reflexivity.
Qed.

Lemma update_price_untouched st symbol p i o :
  orders st !! i = Some o ->
  ord_status o <> PENDING \/ ord_symbol o <> symbol \/ fill_price o p = None ->
  orders (update_price st symbol p) !! i = Some o.
Proof.
  intros Hi H.
  destruct (update_price_orders st symbol p i o Hi) as (sti & _ & _ & Hl).
  rewrite Hl, scanned_unchanged by exact H. reflexivity.
Qed.

Lemma place_order_keeps_orders st symbol side order_type quantity price
    stop_price i o :
  orders st !! i = Some o ->
  orders (snd (place_order st symbol side order_type quantity price
                           stop_price)) !! i = Some o.
Proof.
  intros Hi. unfold place_order.
  destruct (Qleb quantity 0); [exact Hi|].
  destruct (current_prices st !! symbol) as [cp|]; [|exact Hi].
  destruct (match order_type with MARKET => Some cp | _ => price end)
    as [pr|]; [|exact Hi].
  destruct (_risk_check st symbol side quantity pr); [exact Hi|].
  destruct order_type;
    [destruct (_execute_order st _ cp) as [o' st1]|..];
    cbn [snd set_orders orders]; apply lookup_app_l_Some; exact Hi.
Qed.

Lemma execute_signal_keeps_orders st signal_type symbol position_size_pct i o :
  orders st !! i = Some o ->
  orders (snd (execute_signal st signal_type symbol position_size_pct)) !! i
    = Some o.
Proof.
  intros Hi. unfold execute_signal.
  destruct (negb _); [exact Hi|].
  destruct (current_prices st !! symbol) as [cp|]; [|exact Hi].
  destruct (negb (Qtruthy cp)); [exact Hi|].
  destruct (String.eqb signal_type "BUY").
  - destruct (Qltb _ _); [exact Hi | apply place_order_keeps_orders, Hi].
  - destruct (positions st !! symbol) as [pos|]; [|exact Hi].
    destruct (Qleb _ 0); [exact Hi | apply place_order_keeps_orders, Hi].
Qed.

Lemma cancel_order_keeps_finished st order_id i o :
  orders st !! i = Some o -> ord_status o <> PENDING ->
  orders (snd (cancel_order st order_id)) !! i = Some o.
Proof.
  intros Hi Hst. unfold cancel_order.
  destruct (list_find _ (orders st)) as [[j order]|] eqn:Hfind; [|exact Hi].
  destruct (is_pending (ord_status order)) eqn:Hp; [|exact Hi].
  apply list_find_Some in Hfind. destruct Hfind as (Hj & _ & _).
  cbn [snd set_orders orders].
  destruct (decide (j = i)) as [->|Hne].
  - rewrite Hi in Hj. injection Hj as <-.
    destruct (ord_status o); try discriminate Hp. contradiction.
  - rewrite list_lookup_insert_ne by exact Hne. exact Hi.
Qed.

(** An order that is no longer PENDING (FILLED, CANCELLED, REJECTED or
    EXPIRED) is final: no price tick, submission, signal or cancellation
    changes it.  In particular a cancelled order is never filled, and a
    filled order cannot be cancelled. *)
Theorem finished_order_is_final st i o :
  orders st !! i = Some o -> ord_status o <> PENDING ->
  (forall symbol price, orders (update_price st symbol price) !! i = Some o) /\
  (forall symbol side order_type quantity price stop_price,
     orders (snd (place_order st symbol side order_type quantity price
                              stop_price)) !! i = Some o) /\
  (forall signal_type symbol position_size_pct,
     orders (snd (execute_signal st signal_type symbol position_size_pct))
       !! i = Some o) /\
  (forall order_id, orders (snd (cancel_order st order_id)) !! i = Some o).
Proof.
  intros Hi Hst. repeat split.
  - intros. apply update_price_untouched; auto.
  - intros. apply place_order_keeps_orders, Hi.
  - intros. apply execute_signal_keeps_orders, Hi.
  - intros. apply cancel_order_keeps_finished; assumption.
Qed.

Lemma finished_order_is_final_witness :
  exists o,
    orders Scenario.limit1_tick !! 0%nat = Some o /\
    forall order_id,
      orders (snd (cancel_order Scenario.limit1_tick order_id)) !! 0%nat
        = Some o.
Proof.
  eexists. split; [vm_compute; reflexivity|].
  apply (finished_order_is_final Scenario.limit1_tick 0);
    [vm_compute; reflexivity | discriminate].
Defined.

(** **** Cancelling *)

Lemma cancel_order_find st order_id :
  orders_ok (orders st) ->
  list_find (fun o => Nat.eqb (ord_id o) order_id) (orders st) =
  match orders st !! order_id with
  | Some o => Some (order_id, o)
  | None => None
  end.
Proof.
  intros Hok.
  destruct (list_find _ (orders st)) as [[i o]|] eqn:Hfind.
  - apply list_find_Some in Hfind. destruct Hfind as (Hi & Hid & _).
    apply Is_true_true, Nat.eqb_eq in Hid.
    destruct (Hok i o Hi) as [Hid' _].
    assert (E : i = order_id) by congruence.
    rewrite E in Hi |- *. rewrite Hi. reflexivity.
  - destruct (orders st !! order_id) as [o|] eqn:Hi; [|reflexivity].
    exfalso. apply list_find_None in Hfind.
    rewrite Forall_lookup in Hfind. specialize (Hfind _ _ Hi).
    destruct (Hok _ _ Hi) as [Hid _]. apply Hfind.
    rewrite Hid. apply Is_true_true, Nat.eqb_refl.
Qed.

Lemma cancel_order_by_index st order_id :
  orders_ok (orders st) ->
  cancel_order st order_id =
  match orders st !! order_id with
  | Some o =>
      if is_pending (ord_status o) then
        (true,
         set_orders
           (<[order_id :=
                mkOrder (ord_id o) (ord_symbol o) (ord_side o) (ord_type o)
                        (ord_quantity o) (ord_price o) (ord_stop_price o)
                        (ord_filled_quantity o) (ord_remaining_quantity o)
                        (ord_avg_fill_price o) CANCELLED (ord_fills o)
                        (ord_commission o)]> (orders st)) st)
      else (false, st)
  | None => (false, st)
  end.
Proof.
  intros Hok. unfold cancel_order. rewrite (cancel_order_find st order_id Hok).
  destruct (orders st !! order_id); reflexivity.
Qed.

(** In a consistent executor [cancel_order] succeeds exactly when the
    identifier names a PENDING order.  On success that order, and no other,
    becomes CANCELLED, no balance, position or trade moves, and cancelling
    it again fails; on failure the executor is unchanged. *)
Theorem cancel_order_effect st order_id :
  ledger_ok st ->
  let r := cancel_order st order_id in
  (fst r = true <->
   exists o, orders st !! order_id = Some o /\ ord_status o = PENDING) /\
  (fst r = false -> snd r = st) /\
  (fst r = true ->
   (exists o',
      orders (snd r) !! order_id = Some o' /\ ord_status o' = CANCELLED) /\
   (forall j, j <> order_id -> orders (snd r) !! j = orders st !! j) /\
   available_balance (snd r) = available_balance st /\
   positions (snd r) = positions st /\ trades (snd r) = trades st /\
   cancel_order (snd r) order_id = (false, snd r)).
Proof.
  intros Hok r. pose proof (cancel_order_ok st order_id Hok) as Hok'.
  fold r in Hok'. destruct Hok as [_ Hos]. destruct Hok' as [_ Hos'].
  pose proof (cancel_order_by_index (snd r) order_id Hos') as Hagain.
  subst r. rewrite (cancel_order_by_index st order_id Hos) in *.
  destruct (orders st !! order_id) as [o|] eqn:Hi.
  - destruct (ord_status o) eqn:Hst; cbn [is_pending fst snd] in *.
    + split; [split; [eauto | reflexivity]|]. split; [discriminate|].
      intros _. cbn [set_orders orders available_balance positions trades]
        in *.
      assert (Hlt : (order_id < length (orders st))%nat)
        by (apply lookup_lt_is_Some_1; eauto).
      rewrite list_lookup_insert_eq in * by exact Hlt.
      cbn [is_pending ord_status] in Hagain.
      repeat split; eauto.
      intros j Hj. apply list_lookup_insert_ne. auto.
    + split; [split; [discriminate | intros (? & [= <-] & ?); congruence]|].
      split; [reflexivity | discriminate].
    + split; [split; [discriminate | intros (? & [= <-] & ?); congruence]|].
      split; [reflexivity | discriminate].
    + split; [split; [discriminate | intros (? & [= <-] & ?); congruence]|].
      split; [reflexivity | discriminate].
    + split; [split; [discriminate | intros (? & [= <-] & ?); congruence]|].
      split; [reflexivity | discriminate].
  - cbn [fst snd].
    split; [split; [discriminate | intros (? & [=] & _)]|].
    split; [reflexivity | discriminate].
Qed.

Lemma cancel_order_effect_witness :
  fst (cancel_order Scenario.limit1 0) = true <->
  exists o, orders Scenario.limit1 !! 0%nat = Some o /\ ord_status o = PENDING.
Proof.
  apply (cancel_order_effect Scenario.limit1 0).
  unfold Scenario.limit1, Scenario.place_limit_buy, Scenario.live0.
  apply place_order_ok, update_price_ok, init_ok.
Defined.

(** **** Orders that trigger on a tick *)

Lemma tick_fill st i o symbol p execution_price :
  orders st !! i = Some o ->
  ord_status o = PENDING -> ord_symbol o = symbol ->
  fill_price o p = Some execution_price ->
  exists o',
    orders (update_price st symbol p) !! i = Some o' /\
    ord_id o' = ord_id o /\ ord_status o' = FILLED /\
    ord_filled_quantity o' = ord_quantity o /\
    ord_remaining_quantity o' = 0 /\
    ord_avg_fill_price o' =
    execution_price * match ord_side o with
                      | BUY => 1 + slippage st
                      | SELL => 1 - slippage st
                      end.
Proof.
  intros Hi Hst Hsym Hfp.
  destruct (update_price_orders st symbol p i o Hi) as (sti & Es & _ & Hl).
  eexists; split; [exact Hl|].
  unfold scanned. rewrite Hst, Hsym, String.eqb_refl, Hfp.
  cbn [is_pending andb]. unfold _execute_order.
  cbn [fst ord_id ord_status ord_avg_fill_price ord_filled_quantity
       ord_remaining_quantity].
  rewrite Es. destruct (ord_side o); auto 6.
Qed.

Lemma Qtruthy_true x : ~ x == 0 -> Qtruthy x = true.
Proof.
  intros H. unfold Qtruthy. apply negb_true_iff.
  destruct (Qeq_bool x 0) eqn:E; [|reflexivity].
  apply Qeq_bool_iff in E. contradiction.
Qed.

Lemma Qtruthy_false x : x == 0 -> Qtruthy x = false.
Proof.
  intros H. unfold Qtruthy. apply negb_false_iff, Qeq_bool_iff, H.
Qed.

(** A PENDING STOP_LOSS order with a stop price fills on the first tick of
    its symbol that reaches the stop price (at or below it for a SELL, at or
    above it for a BUY), and it fills at the tick price with the slippage
    applied, not at the stop price.  Without a stop price, or with stop
    price 0, no tick ever changes the order. *)
Theorem stop_loss_order_fill st i o symbol p :
  orders st !! i = Some o ->
  ord_status o = PENDING -> ord_type o = STOP_LOSS -> ord_symbol o = symbol ->
  (forall stop_price,
     ord_stop_price o = Some stop_price -> ~ stop_price == 0 ->
     (ord_side o = SELL /\ p <= stop_price \/
      ord_side o = BUY /\ stop_price <= p) ->
     exists o',
       orders (update_price st symbol p) !! i = Some o' /\
       ord_status o' = FILLED /\
       ord_avg_fill_price o' =
       p * match ord_side o with
           | BUY => 1 + slippage st
           | SELL => 1 - slippage st
           end) /\
  ((ord_stop_price o = None \/
    exists stop_price, ord_stop_price o = Some stop_price /\ stop_price == 0) ->
   orders (update_price st symbol p) !! i = Some o).
Proof.
  intros Hi Hst Hty Hsym. split.
  - intros sp Hsp Hnz Hcross.
    assert (Hfp : fill_price o p = Some p).
    { unfold fill_price. rewrite Hty, Hsp, (Qtruthy_true sp Hnz).
      destruct Hcross as [[-> H]|[-> H]].
      - apply Qleb_le in H. rewrite H. reflexivity.
      - apply Qgeb_ge in H. rewrite H. reflexivity. }
    destruct (tick_fill st i o symbol p p Hi Hst Hsym Hfp)
      as (o' & Hl & _ & Hf & _ & _ & Hp).
    eauto.
  - intros H. apply update_price_untouched; [exact Hi|].
    right. right. unfold fill_price. rewrite Hty.
    destruct H as [->|(sp & -> & Hz)]; [reflexivity|].
    rewrite (Qtruthy_false sp Hz). reflexivity.
Qed.

Lemma stop_loss_order_fill_witness :
  exists o',
    orders (update_price Scenario.stop1 Scenario.sym 44000) !! 1%nat
      = Some o' /\
    ord_status o' = FILLED /\
    ord_avg_fill_price o' = 44000 * (1 - slippage Scenario.stop1).
Proof.
  apply (proj1 (stop_loss_order_fill Scenario.stop1 1
                  (new_Order 1 Scenario.sym SELL STOP_LOSS 0.09 45000
                             (Some 45000))
                  Scenario.sym 44000 ltac:(vm_compute; reflexivity)
                  eq_refl eq_refl eq_refl) 45000 eq_refl);
    [vm_compute; discriminate
    | left; split; [reflexivity | vm_compute; discriminate]].
Defined.

(** **** Signals turned into orders *)

Lemma place_market_order st symbol side quantity stop_price id st' :
  place_order st symbol side MARKET quantity None stop_price = (Some id, st') ->
  exists current_price,
    current_prices st !! symbol = Some current_price /\
    0 < quantity /\
    _risk_check st symbol side quantity current_price = None /\
    let order :=
      new_Order (length (orders st)) symbol side MARKET quantity current_price
                stop_price in
    st' = set_orders
            (orders st ++ [fst (_execute_order st order current_price)])
            (snd (_execute_order st order current_price)).
Proof.
  unfold place_order.
  destruct (Qleb quantity 0) eqn:Hq; [discriminate|]. apply Qleb_gt in Hq.
  destruct (current_prices st !! symbol) as [cp|]; [|discriminate].
  destruct (_risk_check st symbol side quantity cp) eqn:Hr; [discriminate|].
  destruct (_execute_order st _ cp) as [o' st1] eqn:He.
  intros [= _ <-]. exists cp. split; [reflexivity|]. split; [exact Hq|].
  split; [exact Hr|]. rewrite He. reflexivity.
Qed.

Lemma invest_cost b pct cp s c :
  ~ cp == 0 ->
  b - (b * pct / cp * (cp * (1 + s)) + b * pct / cp * (cp * (1 + s)) * c)
  == b - b * pct * (1 + s) * (1 + c).
Proof. intros H. field. exact H. Qed.

(** [execute_signal] ignores every signal that is not BUY or SELL.  A BUY
    that goes through spends the fraction [position_size_pct] of the
    available balance, plus slippage and commission on it.  A SELL that goes
    through sells the whole position: afterwards the position is flat and
    no longer listed by [get_positions]. *)
Theorem execute_signal_sizing :
  (forall st signal_type symbol position_size_pct,
     signal_type <> "BUY"%string -> signal_type <> "SELL"%string ->
     execute_signal st signal_type symbol position_size_pct = (None, st)) /\
  (forall st symbol position_size_pct id st',
     execute_signal st "BUY" symbol position_size_pct = (Some id, st') ->
     available_balance st' ==
       available_balance st
       - available_balance st * position_size_pct
         * (1 + slippage st) * (1 + commission_rate st)) /\
  (forall st symbol position_size_pct id st',
     execute_signal st "SELL" symbol position_size_pct = (Some id, st') ->
     (exists position,
        positions st' !! symbol = Some position /\
        pos_quantity position = 0 /\ pos_avg_price position = 0) /\
     get_positions st' !! symbol = None).
Proof.
  split; [|split].
  - intros st signal_type symbol pct Hb Hs. unfold execute_signal.
    apply String.eqb_neq in Hb, Hs. rewrite Hb, Hs. reflexivity.
  - intros st symbol pct id st'. unfold execute_signal.
    cbn [String.eqb Ascii.eqb Bool.eqb andb orb negb].
    destruct (current_prices st !! symbol) as [cp|] eqn:Hcp; [|discriminate].
    destruct (Qtruthy cp) eqn:Htruthy; [|discriminate]. cbn [negb].
    destruct (Qltb _ _); [discriminate|].
    intros Hplace. apply place_market_order in Hplace.
    destruct Hplace as (cp' & Hcp' & _ & _ & ->).
    rewrite Hcp in Hcp'. injection Hcp' as <-.
    unfold set_orders. cbn [available_balance].
    rewrite execute_order_balance. cbn [ord_side new_Order ord_quantity].
    apply invest_cost. intros E. unfold Qtruthy in Htruthy.
    apply Qeq_bool_iff in E. rewrite E in Htruthy. discriminate.
  - intros st symbol pct id st'. unfold execute_signal.
    cbn [String.eqb Ascii.eqb Bool.eqb andb orb negb].
    destruct (current_prices st !! symbol) as [cp|] eqn:Hcp; [|discriminate].
    destruct (Qtruthy cp); [|discriminate]. cbn [negb].
    destruct (positions st !! symbol) as [held|] eqn:Hheld; [|discriminate].
    destruct (Qleb (pos_quantity held) 0) eqn:Hq; [discriminate|].
    intros Hplace. apply place_market_order in Hplace.
    destruct Hplace as (cp' & _ & _ & _ & ->).
    set (order := new_Order _ _ _ _ _ _ _).
    pose proof (execute_order_position st order cp') as Hpos.
    cbn [ord_symbol order new_Order ord_side ord_quantity ord_id] in Hpos.
    rewrite Hheld in Hpos.
    assert (Hflat : forall c,
              pos_quantity (update_position held
                 (new_Trade (length (trades st)) (length (orders st)) symbol
                            SELL (pos_quantity held) (cp' * (1 - slippage st))
                            c)) = 0 /\
              pos_avg_price (update_position held
                 (new_Trade (length (trades st)) (length (orders st)) symbol
                            SELL (pos_quantity held) (cp' * (1 - slippage st))
                            c)) = 0).
    { intros c. unfold update_position, new_Trade.
      cbn [trd_side trd_quantity trd_total trd_commission].
      apply Qleb_gt, Qgtb_gt in Hq. rewrite Hq.
      assert (Hz : Qleb (pos_quantity held - pos_quantity held) 0 = true)
        by (apply Qleb_le; lra).
      rewrite Hz. split; reflexivity. }
    split.
    + eexists. split; [exact Hpos | apply Hflat].
    + unfold get_positions. apply map_lookup_filter_None. right.
      cbn [set_orders positions]. intros pos' Hpos'.
      rewrite Hpos in Hpos'. injection Hpos' as <-.
      cbn [snd]. rewrite (proj1 (Hflat _)). discriminate.
Qed.

Lemma execute_signal_sizing_witness :
  execute_signal Scenario.live0 "HOLD" Scenario.sym 0.1
    = (None, Scenario.live0) /\
  available_balance (snd (execute_signal Scenario.live0 "BUY" Scenario.sym 0.1))
    == available_balance Scenario.live0
       - available_balance Scenario.live0 * 0.1
         * (1 + slippage Scenario.live0)
         * (1 + commission_rate Scenario.live0) /\
  get_positions (snd (execute_signal Scenario.loss2 "SELL" Scenario.sym 0.1))
    !! Scenario.sym = None.
Proof.
  split; [|split].
  - apply (proj1 execute_signal_sizing); discriminate.
  - apply (proj1 (proj2 execute_signal_sizing) Scenario.live0 Scenario.sym
             0.1 0%nat).
    vm_compute. reflexivity.
  - apply (proj2 (proj2 execute_signal_sizing) Scenario.loss2 Scenario.sym
             0.1 1%nat
             (snd (execute_signal Scenario.loss2 "SELL" Scenario.sym 0.1))).
    vm_compute. reflexivity.
Defined.

(** **** Views *)

Lemma scanned_cases symbol p sti o :
  scanned symbol p sti o = o \/ ord_status (scanned symbol p sti o) = FILLED.
Proof.
  unfold scanned.
  destruct (is_pending (ord_status o) && String.eqb (ord_symbol o) symbol);
    [destruct (fill_price o p)|]; auto.
Qed.

(** A price tick opens no order: every order that is open after the tick
    was open, and the same, before it. *)
Theorem open_orders_after_tick st symbol p o :
  In o (get_open_orders (update_price st symbol p)) ->
  In o (get_open_orders st).
Proof.
  unfold get_open_orders. rewrite !List.filter_In.
  intros [Hin Hpend]. split; [|exact Hpend].
  apply list_elem_of_In, list_elem_of_lookup in Hin. destruct Hin as [i Hi].
  assert (Hlt : (i < length (orders st))%nat).
  { rewrite <- (update_price_length st symbol p).
    apply lookup_lt_is_Some_1. eauto. }
  destruct (lookup_lt_is_Some_2 _ _ Hlt) as [o0 Ho0].
  destruct (update_price_orders st symbol p i o0 Ho0) as (sti & _ & _ & Hl).
  rewrite Hl in Hi. injection Hi as <-.
  destruct (scanned_cases symbol p sti o0) as [E|E].
  - rewrite E. apply list_elem_of_In, list_elem_of_lookup. eauto.
  - rewrite E in Hpend. discriminate Hpend.
Qed.

Lemma open_orders_after_tick_witness :
  In (new_Order 0 Scenario.sym BUY LIMIT 0.1 49000 None)
     (get_open_orders Scenario.limit1).
Proof.
  apply (open_orders_after_tick Scenario.limit1 Scenario.sym 49500).
  vm_compute. left. reflexivity.
Defined.

Lemma slice_from_suffix {A} start (xs : list A) :
  exists older, xs = older ++ slice_from start xs.
Proof.
  unfold slice_from. destruct (start <? 0)%Z; eexists; symmetry;
    apply take_drop.
Qed.

(** [get_recent_trades] returns the end of the trade list: the last [limit]
    trades when [limit] is positive (all of them when there are fewer).
    With [limit = 0] it returns every trade, not none. *)
Theorem recent_trades_are_latest st limit :
  (exists older, trades st = older ++ get_recent_trades st limit) /\
  ((0 < limit)%Z ->
   length (get_recent_trades st limit)
     = Nat.min (Z.to_nat limit) (length (trades st))) /\
  (limit = 0%Z -> get_recent_trades st limit = trades st).
Proof.
  unfold get_recent_trades.
  destruct (trades st) as [|t ts] eqn:E.
  - split; [exists []; reflexivity|]. split; [intros _; cbn; lia | reflexivity].
  - rewrite <- E. clear E. split; [apply slice_from_suffix|]. split.
    + intros Hpos. unfold slice_from.
      destruct (Z.ltb_spec (- limit) 0); [|lia].
      rewrite length_drop, Z.opp_involutive. lia.
    + intros ->. reflexivity.
Qed.

End OrderBook.

(** *** Total value *)

Section Equity.
Import Num Valuation.
Local Open Scope Q_scope.

Context {A : Type} (quantity : A -> Q) (prices : gmap string Q).

Local Instance mark_proper symbol position :
  Proper (Qeq ==> Qeq) (mark quantity prices symbol position).
Proof.
  intros x y E. unfold mark.
  destruct (Qgtb (quantity position) 0); [|exact E].
  destruct (prices !! symbol); [rewrite E; reflexivity | exact E].
Qed.

Lemma mark_total symbol position total :
  mark quantity prices symbol position total
  == total + mark quantity prices symbol position 0.
Proof.
  unfold mark. destruct (Qgtb (quantity position) 0); [|ring].
  destruct (prices !! symbol); ring.
Qed.

Lemma mark_comm s1 s2 p1 p2 total :
  mark quantity prices s1 p1 (mark quantity prices s2 p2 total)
  == mark quantity prices s2 p2 (mark quantity prices s1 p1 total).
Proof.
  rewrite (mark_total s1), (mark_total s2), (mark_total s2 p2 (mark _ _ _ _ _)),
    (mark_total s1 p1 total).
  ring.
Qed.

(** The value of a book in which the position of [symbol] is replaced. *)
Lemma value_insert (m : gmap string A) symbol position :
  map_fold (mark quantity prices) 0 (<[symbol := position]> m)
  == map_fold (mark quantity prices) 0 (delete symbol m)
     + mark quantity prices symbol position 0.
Proof.
  rewrite <- (insert_delete_eq m).
  rewrite (map_fold_insert Qeq (mark quantity prices) 0 symbol position
             (delete symbol m)).
  - apply mark_total.
  - intros j z. apply mark_proper.
  - intros. apply mark_comm.
  - apply lookup_delete_eq.
Qed.

Lemma value_lookup (m : gmap string A) symbol :
  map_fold (mark quantity prices) 0 m
  == map_fold (mark quantity prices) 0 (delete symbol m)
     + match m !! symbol with
       | Some position => mark quantity prices symbol position 0
       | None => 0
       end.
Proof.
  destruct (m !! symbol) as [position|] eqn:E.
  - rewrite <- (insert_id m symbol position E) at 1. apply value_insert.
  - rewrite delete_id by exact E. ring.
Qed.

Lemma mark_priced symbol position price :
  prices !! symbol = Some price -> 0 <= quantity position ->
  mark quantity prices symbol position 0 == quantity position * price.
Proof.
  intros Hcp Hq. unfold mark. rewrite Hcp.
  destruct (Qgtb (quantity position) 0) eqn:E; [ring|].
  apply Qgtb_le in E.
  assert (Hz : quantity position == 0) by (apply Qle_antisym; assumption).
  rewrite Hz. ring.
Qed.

End Equity.

Section ExecutorEquity.
Import Num Valuation TradeExecutor.
Local Open Scope Q_scope.

Lemma execute_order_positions st o p :
  exists position',
    positions (snd (_execute_order st o p))
      = <[ord_symbol o := position']> (positions st) /\
    positions (snd (_execute_order st o p)) !! ord_symbol o = Some position'.
Proof.
  unfold _execute_order, _update_balance_and_position.
  cbn [trd_symbol new_Trade trd_side].
  destruct (ord_side o); cbn [snd positions]; eexists;
    (split; [reflexivity | apply lookup_insert_eq]).
Qed.

Lemma equity_after_buy b V q0 q cp s c C' C0 :
  C' == (q0 + q) * cp -> C0 == q0 * cp ->
  b - (q * (cp * (1 + s)) + q * (cp * (1 + s)) * c) + (V + C')
  == b + (V + C0) - q * cp * ((1 + s) * (1 + c) - 1).
Proof. intros -> ->. ring. Qed.

Lemma equity_after_sell b V q0 q cp s c C' C0 :
  C' == (q0 - q) * cp -> C0 == q0 * cp ->
  b + (q * (cp * (1 - s)) - q * (cp * (1 - s)) * c) + (V + C')
  == b + (V + C0) - q * cp * (1 - (1 - s) * (1 - c)).
Proof. intros -> ->. ring. Qed.

(** What a MARKET order costs.  In a consistent executor a MARKET order that
    is accepted moves the total value (available balance plus positions at
    their current prices) by the slippage and the commission only: it falls
    by [quantity * price * ((1 + slippage) * (1 + commission_rate) - 1)] for
    a BUY and by
    [quantity * price * (1 - (1 - slippage) * (1 - commission_rate))] for a
    SELL. *)
Theorem market_order_costs_fees st symbol side quantity stop_price id st'
    current_price :
  ledger_ok st ->
  current_prices st !! symbol = Some current_price ->
  place_order st symbol side MARKET quantity None stop_price = (Some id, st') ->
  get_total_value st' ==
    get_total_value st
    - quantity * current_price
      * match side with
        | BUY => (1 + slippage st) * (1 + commission_rate st) - 1
        | SELL => 1 - (1 - slippage st) * (1 - commission_rate st)
        end.
Proof.
  intros [[Hpos _] _] Hcp Hplace.
  apply place_market_order in Hplace.
  destruct Hplace as (cp & Hcp' & Hq & Hr & ->).
  rewrite Hcp in Hcp'. injection Hcp' as <-.
  set (order := new_Order _ _ _ _ _ _ _).
  unfold get_total_value, get_position_value.
  cbn [set_orders available_balance positions current_prices].
  destruct (execute_order_rates st order current_price)
    as (_ & _ & _ & -> & _).
  rewrite execute_order_balance.
  pose proof (execute_order_position st order current_price) as Hnew.
  destruct (execute_order_positions st order current_price)
    as (position' & Epos & Hnew').
  rewrite Hnew in Hnew'. injection Hnew' as Hnew'. rewrite Epos.
  cbn [ord_symbol ord_side ord_quantity ord_id order new_Order] in *.
  change (map_fold _ 0 (<[symbol:=position']> (positions st)))
    with (map_fold (mark pos_quantity (current_prices st)) 0
            (<[symbol:=position']> (positions st))).
  change (map_fold _ 0 (positions st))
    with (map_fold (mark pos_quantity (current_prices st)) 0 (positions st)).
  rewrite (value_insert pos_quantity (current_prices st) (positions st)
             symbol position').
  rewrite (value_lookup pos_quantity (current_prices st) (positions st)
             symbol).
  apply risk_check_admitted in Hr. destruct Hr as [_ Hside].
  assert (Hmark : forall q', pos_quantity position' == q' -> 0 <= q' ->
            mark pos_quantity (current_prices st) symbol position' 0
            == q' * current_price).
  { intros q' E Hq'. rewrite <- E in Hq'.
    rewrite (mark_priced pos_quantity _ _ position' _ Hcp Hq'), E.
    reflexivity. }
  destruct (positions st !! symbol) as [held|] eqn:Hheld.
  - pose proof (Hpos _ _ Hheld) as Hok. destruct Hok as (Hq0 & _).
    destruct side.
    + apply (equity_after_buy _ _ (pos_quantity held));
        [|apply mark_priced; assumption].
      apply Hmark; [|lra].
      subst position'. unfold update_position, new_Trade.
      cbn [trd_side trd_quantity trd_total trd_commission].
      first [reflexivity | destruct (Qgtb _ 0); reflexivity].
    + destruct Hside as (held' & [= <-] & Hle).
      assert (Hpos0 : Qgtb (pos_quantity held) 0 = true)
        by (apply Qgtb_gt; lra).
      apply (equity_after_sell _ _ (pos_quantity held));
        [|apply mark_priced; assumption].
      apply Hmark; [|lra].
      subst position'. unfold update_position, new_Trade.
      cbn [trd_side trd_quantity trd_total trd_commission]. rewrite Hpos0.
      destruct (Qleb (pos_quantity held - quantity) 0) eqn:Hflat;
        cbn [pos_quantity]; [|reflexivity].
      apply Qleb_le in Hflat. apply Qle_antisym; lra.
  - destruct side.
    + apply (equity_after_buy _ _ 0); [|ring].
      apply Hmark; [|lra].
      subst position'. unfold update_position, new_Trade, new_Position.
      cbn [trd_side trd_quantity trd_total trd_commission pos_quantity].
      first [reflexivity | destruct (Qgtb _ 0); reflexivity].
    + destruct Hside as (held' & [=] & _).
Qed.

Lemma market_order_costs_fees_witness :
  get_total_value Scenario.loss1 ==
    get_total_value Scenario.live0
    - 0.09 * 50000
      * ((1 + slippage Scenario.live0)
         * (1 + commission_rate Scenario.live0) - 1).
Proof.
  apply (market_order_costs_fees Scenario.live0 Scenario.sym BUY 0.09 None
           0%nat Scenario.loss1 50000).
  - unfold Scenario.live0. apply update_price_ok, init_ok.
  - vm_compute. reflexivity.
  - vm_compute. reflexivity.
Defined.

End ExecutorEquity.

(** *** More on the risk manager *)

Section RiskLimits.
Import Num RiskManager.
Local Open Scope Q_scope.

Lemma record_trades_fields self today trades :
  daily_loss (record_trades self today trades) = daily_loss self /\
  max_daily_trades (record_trades self today trades) = max_daily_trades self /\
  max_daily_loss_pct (record_trades self today trades)
    = max_daily_loss_pct self /\
  max_position_size (record_trades self today trades)
    = max_position_size self /\
  stop_loss_orders (record_trades self today trades) = stop_loss_orders self /\
  take_profit_orders (record_trades self today trades)
    = take_profit_orders self.
Proof.
  revert self. induction trades as [|[[[symbol side] quantity] price] rest IH];
    intros self; cbn [record_trades]; [repeat split|].
  destruct (IH (record_trade self today symbol side quantity price))
    as (-> & -> & -> & -> & -> & ->).
  repeat split.
Qed.

Lemma record_trades_count self today trades d :
  default 0%nat (daily_trades (record_trades self today trades) !! d) =
  (default 0%nat (daily_trades self !! d)
   + if Nat.eqb d today then length trades else 0)%nat.
Proof.
  revert self. induction trades as [|[[[symbol side] quantity] price] rest IH];
    intros self; cbn [record_trades length].
  - destruct (Nat.eqb d today); lia.
  - rewrite IH. cbn [record_trade daily_trades].
    destruct (Nat.eqb_spec d today) as [E|Hne].
    + rewrite E, lookup_insert_eq. cbn [default from_option id]. lia.
    + rewrite lookup_insert_ne by congruence. lia.
Qed.

(** The daily trade limit: [record_trade] counts per day, so after at least
    [max_daily_trades] recorded trades on a day [can_trade] refuses every
    request of that day, whatever its side, quantity or price, while the
    answers for every other day are as they were. *)
Theorem daily_trade_limit self today trades :
  (max_daily_trades self <= length trades)%nat ->
  (forall symbol side quantity current_price,
     can_trade (record_trades self today trades) today symbol side quantity
               current_price = false) /\
  (forall day symbol side quantity current_price,
     day <> today ->
     can_trade (record_trades self today trades) day symbol side quantity
               current_price
     = can_trade self day symbol side quantity current_price).
Proof.
  intros Hmax.
  destruct (record_trades_fields self today trades)
    as (Hloss & Hmt & Hml & Hmp & _).
  split.
  - intros. unfold can_trade.
    rewrite record_trades_count, Hmt, Nat.eqb_refl.
    destruct (Nat.leb_spec (max_daily_trades self)
                (default 0%nat (daily_trades self !! today) + length trades));
      [reflexivity | lia].
  - intros day symbol side quantity current_price Hne. unfold can_trade.
    rewrite record_trades_count, Hmt, Hloss, Hml.
    apply Nat.eqb_neq in Hne. rewrite Hne, Nat.add_0_r.
    unfold _check_position_limit. rewrite Hmp. reflexivity.
Qed.

Lemma daily_trade_limit_witness :
  can_trade
    (record_trades init 7 (repeat (Scenario.sym, "BUY"%string, 0.1, 50000) 50))
    7 Scenario.sym "SELL" None None = false.
Proof.
  apply (daily_trade_limit init 7
           (repeat (Scenario.sym, "BUY"%string, 0.1, 50000) 50)).
  vm_compute. lia.
Defined.

(** No method writes [daily_loss]: in every state a risk manager reaches the
    dictionary is empty and the limits are the configured ones, so
    [can_trade] never refuses for the daily loss; it refuses exactly when
    the trade count of the day has reached [MAX_DAILY_TRADES], or when a BUY
    with a quantity and a price (neither 0) is worth more than
    [INITIAL_BALANCE * MAX_POSITION_SIZE]. *)
Theorem daily_loss_never_recorded self :
  reachable self ->
  daily_loss self = ∅ /\
  forall today symbol side quantity current_price,
    can_trade self today symbol side quantity current_price =
    negb (Config.MAX_DAILY_TRADES <=? default 0 (daily_trades self !! today))%nat
    && match quantity, current_price with
       | Some q, Some p =>
           negb (String.eqb side "BUY" && Qtruthy q && Qtruthy p
                 && Qgtb (q * p)
                      (Config.INITIAL_BALANCE * Config.MAX_POSITION_SIZE))
       | _, _ => true
       end.
Proof.
  intros Hreach.
  assert (H : daily_loss self = ∅ /\
              max_daily_trades self = Config.MAX_DAILY_TRADES /\
              max_daily_loss_pct self = Config.MAX_DAILY_LOSS_PCT / 100 /\
              max_position_size self = Config.MAX_POSITION_SIZE).
  { induction Hreach as [| | self symbol p _ IH | | | self today self' _ IH Hr].
    - repeat split.
    - exact IHHreach.
    - unfold check_position_risk.
      destruct (stop_loss_orders self !! symbol) as [sp|];
        [destruct (Qleb p sp)|];
        cbn [_trigger_stop_loss set_stops take_profit_orders];
        destruct (take_profit_orders self !! symbol) as [tp|];
        try destruct (Qgeb p tp); exact IH.
    - exact IHHreach.
    - exact IHHreach.
    - destruct today as [|y]; [discriminate|]. injection Hr as <-.
      destruct IH as (Hl & IH). split; [|exact IH].
      cbn [daily_loss]. rewrite Hl. apply delete_empty. }
  destruct H as (Hl & Hmt & Hml & Hmp). split; [exact Hl|].
  intros. unfold can_trade, _check_position_limit.
  rewrite Hl, Hmt, Hml, Hmp, lookup_empty. cbn [default].
  destruct (Config.MAX_DAILY_TRADES <=? _)%nat; [reflexivity|].
  cbn [negb andb].
  change (Qgeb 0 (Config.MAX_DAILY_LOSS_PCT / 100)) with false. cbv iota.
  destruct quantity as [q|]; [|reflexivity].
  destruct current_price as [p|]; [|reflexivity].
  destruct (String.eqb side "BUY" && Qtruthy q && Qtruthy p); [|reflexivity].
  cbn [andb]. destruct (Qgtb _ _); reflexivity.
Qed.

Lemma daily_loss_never_recorded_witness :
  daily_loss (snd (check_position_risk Scenario.armed Scenario.sym 48000)) = ∅.
Proof.
  apply daily_loss_never_recorded.
  apply reach_check_position_risk, reach_set_stop_loss, reach_init.
Defined.

(** [reset_daily_limits] forgets yesterday and nothing else: the counters of
    every other day, today's among them, are kept; so are the stop-loss and
    take-profit prices, the position limits and the five parameters; and so
    is every answer of [can_trade] for today. *)
Theorem reset_keeps_today self yesterday self' :
  reset_daily_limits self (S yesterday) = Some self' ->
  daily_trades self' !! yesterday = None /\
  daily_loss self' !! yesterday = None /\
  (forall day, day <> yesterday ->
     daily_trades self' !! day = daily_trades self !! day /\
     daily_loss self' !! day = daily_loss self !! day) /\
  (stop_loss_orders self' = stop_loss_orders self /\
   take_profit_orders self' = take_profit_orders self /\
   position_limits self' = position_limits self /\
   max_position_size self' = max_position_size self /\
   stop_loss_pct self' = stop_loss_pct self /\
   take_profit_pct self' = take_profit_pct self /\
   max_daily_trades self' = max_daily_trades self /\
   max_daily_loss_pct self' = max_daily_loss_pct self) /\
  (forall symbol side quantity current_price,
     can_trade self' (S yesterday) symbol side quantity current_price
     = can_trade self (S yesterday) symbol side quantity current_price).
Proof.
  intros [= <-]. cbn [daily_trades daily_loss].
  rewrite !lookup_delete_eq.
  split; [reflexivity|]. split; [reflexivity|]. split; [|split].
  - intros day Hday. split; apply lookup_delete_ne; congruence.
  - repeat split.
  - intros. unfold can_trade, _check_position_limit.
    cbn [daily_trades daily_loss max_daily_trades max_daily_loss_pct
         max_position_size].
    rewrite !lookup_delete_ne by lia. reflexivity.
Qed.

Lemma reset_keeps_today_witness :
  exists self',
    reset_daily_limits Scenario.traded 7 = Some self' /\
    daily_trades Scenario.traded !! 6%nat = Some 2%nat /\
    daily_trades self' !! 6%nat = None /\
    daily_trades self' !! 7%nat = Some 1%nat /\
    stop_loss_orders self' = stop_loss_orders Scenario.traded /\
    stop_loss_orders self' !! Scenario.sym = Some (50000 * (1 - 2 / 100)).
Proof.
  eexists. split; [reflexivity|].
  pose proof (reset_keeps_today Scenario.traded 6 _ eq_refl)
    as (Hy & _ & Hday & (Hstop & _) & _).
  split; [reflexivity|]. split; [exact Hy|].
  split; [rewrite (proj1 (Hday 7%nat ltac:(discriminate))); reflexivity|].
  split; [exact Hstop|]. rewrite Hstop. reflexivity.
Defined.


End RiskLimits.

Section Brackets.
Import Num RiskManager.
Local Open Scope Q_scope.

(** A tick strictly between the stop and the target of its symbol (or of a
    symbol that has neither) reports nothing and changes nothing. *)
Lemma quiet_tick self symbol p :
  (forall stop, stop_loss_orders self !! symbol = Some stop -> stop < p) ->
  (forall target, take_profit_orders self !! symbol = Some target ->
                  p < target) ->
  check_position_risk self symbol p = ([], self).
Proof.
  intros Hstop Htarget. unfold check_position_risk.
  destruct (stop_loss_orders self !! symbol) as [stop|].
  - specialize (Hstop stop eq_refl). apply Qleb_gt in Hstop. rewrite Hstop.
    destruct (take_profit_orders self !! symbol) as [target|]; [|reflexivity].
    specialize (Htarget target eq_refl). apply Qgeb_lt in Htarget.
    rewrite Htarget. reflexivity.
  - destruct (take_profit_orders self !! symbol) as [target|]; [|reflexivity].
    specialize (Htarget target eq_refl). apply Qgeb_lt in Htarget.
    rewrite Htarget. reflexivity.
Qed.

(** A stop and a target armed for one symbol, the stop below the target:
    a tick triggers at most one of them, and the other one stays armed.
    The stop-loss leaves the take-profit behind, and the take-profit the
    stop-loss; a tick strictly between the two reports nothing and changes
    nothing. *)
Theorem bracket_triggers_one_side self symbol stop target p :
  stop_loss_orders self !! symbol = Some stop ->
  take_profit_orders self !! symbol = Some target ->
  stop < target ->
  let r := check_position_risk self symbol p in
  (p <= stop ->
   fst r = [StopLossTriggered symbol p] /\
   stop_loss_orders (snd r) !! symbol = None /\
   take_profit_orders (snd r) !! symbol = Some target) /\
  (target <= p ->
   fst r = [TakeProfitTriggered symbol p] /\
   take_profit_orders (snd r) !! symbol = None /\
   stop_loss_orders (snd r) !! symbol = Some stop) /\
  (stop < p -> p < target -> r = ([], self)) /\
  (length (fst r) <= 1)%nat.
Proof.
  intros Hs Ht Hlt r.
  assert (Hquiet : stop < p -> p < target -> r = ([], self)).
  { intros H1 H2. apply quiet_tick.
    - intros stop' E. rewrite Hs in E. injection E as <-. exact H1.
    - intros target' E. rewrite Ht in E. injection E as <-. exact H2. }
  revert Hquiet. subst r. unfold check_position_risk. rewrite Hs.
  destruct (Qleb p stop) eqn:E1.
  - apply Qleb_le in E1.
    cbn [_trigger_stop_loss set_stops take_profit_orders]. rewrite Ht.
    assert (E2 : Qgeb p target = false) by (apply Qgeb_lt; lra).
    rewrite E2. unfold set_stops.
    cbn [fst snd app length stop_loss_orders take_profit_orders].
    rewrite lookup_delete_eq. intros Hquiet. split; [|split; [|split]].
    + intros _. repeat split. exact Ht.
    + intros H. exfalso. lra.
    + exact Hquiet.
    + lia.
  - apply Qleb_gt in E1. rewrite Ht.
    destruct (Qgeb p target) eqn:E2.
    + unfold _trigger_take_profit, set_stops.
      cbn [fst snd app length stop_loss_orders take_profit_orders].
      rewrite lookup_delete_eq. intros Hquiet. split; [|split; [|split]].
      * intros H. exfalso. lra.
      * intros _. repeat split. exact Hs.
      * exact Hquiet.
      * lia.
    + apply Qgeb_lt in E2. cbn [fst snd app length]. intros Hquiet.
      split; [|split; [|split]].
      * intros H. exfalso. lra.
      * intros H. exfalso. lra.
      * exact Hquiet.
      * lia.
Qed.

Lemma bracket_triggers_one_side_witness :
  let self := set_take_profit Scenario.armed Scenario.sym 50000 "LONG" in
  let r := check_position_risk self Scenario.sym 48000 in
  fst r = [StopLossTriggered Scenario.sym 48000] /\
  stop_loss_orders (snd r) !! Scenario.sym = None /\
  take_profit_orders (snd r) !! Scenario.sym = Some (50000 * (1 + 5 / 100)).
Proof.
  apply (proj1 (bracket_triggers_one_side
                  (set_take_profit Scenario.armed Scenario.sym 50000 "LONG")
                  Scenario.sym (50000 * (1 - 2 / 100)) (50000 * (1 + 5 / 100))
                  48000 eq_refl eq_refl ltac:(vm_compute; reflexivity))).
  vm_compute. discriminate.
Defined.

(** The stop of a short position is placed above the entry price, but the
    check is the one for a long position ([current_price <= stop_price]):
    armed with any side other than 'LONG', the stop is triggered by a tick
    at the entry price itself. *)
Theorem short_stop_triggers_at_entry self symbol entry_price side :
  side <> "LONG"%string -> 0 <= entry_price -> 0 <= stop_loss_pct self ->
  let armed := set_stop_loss self symbol entry_price side in
  stop_loss_orders armed !! symbol
    = Some (entry_price * (1 + stop_loss_pct self)) /\
  In (StopLossTriggered symbol entry_price)
     (fst (check_position_risk armed symbol entry_price)) /\
  stop_loss_orders (snd (check_position_risk armed symbol entry_price))
    !! symbol = None.
Proof.
  intros Hside He Hp armed.
  assert (Harm : stop_loss_orders armed !! symbol
                 = Some (entry_price * (1 + stop_loss_pct self))).
  { unfold armed, set_stop_loss. apply String.eqb_neq in Hside.
    rewrite Hside. cbn [set_stops stop_loss_orders]. apply lookup_insert_eq. }
  split; [exact Harm|].
  apply (tick_trigger armed symbol _ entry_price Harm).
  assert (H : 0 <= entry_price * stop_loss_pct self)
    by (apply Qmult_le_0_compat; assumption).
  lra.
Qed.

Lemma short_stop_triggers_at_entry_witness :
  In (StopLossTriggered Scenario.sym 50000)
     (fst (check_position_risk
             (set_stop_loss init Scenario.sym 50000 "SHORT")
             Scenario.sym 50000)).
Proof.
  apply (short_stop_triggers_at_entry init Scenario.sym 50000 "SHORT");
    [discriminate | vm_compute; discriminate | vm_compute; discriminate].
Defined.

End Brackets.

(** *** More on the portfolio manager *)

Section PortfolioBooks.
Import Num Valuation PortfolioManager.
Local Open Scope Q_scope.

Lemma get_total_value_mark self prices :
  get_total_value self prices
  = available_balance self
    + map_fold (mark PortfolioManager.quantity prices) 0 (positions self).
Proof. reflexivity. Qed.

Lemma get_total_value_of self prices symbol :
  get_total_value self prices ==
  available_balance self
  + (map_fold (mark PortfolioManager.quantity prices) 0
       (delete symbol (positions self))
     + mark PortfolioManager.quantity prices symbol
         (get_position self symbol) 0).
Proof.
  rewrite get_total_value_mark.
  rewrite (value_lookup PortfolioManager.quantity prices (positions self)
             symbol).
  unfold get_position. destruct (positions self !! symbol); reflexivity.
Qed.

Lemma value_after_buy b V q0 q p m C' C0 :
  C' == (q0 + q) * m -> C0 == q0 * m ->
  b - q * p + (V + C') == b + (V + C0) + q * (m - p).
Proof. intros -> ->. ring. Qed.

Lemma value_after_sell b V q0 q p m C' C0 :
  C' == (q0 - q) * m -> C0 == q0 * m ->
  b + q * p + (V + C') == b + (V + C0) + q * (p - m).
Proof. intros -> ->. ring. Qed.

(** [update_position] keeps no position short: with a quantity that is not
    negative, positions that were not negative are not negative afterwards,
    whatever the side string is. *)
Theorem portfolio_never_short self symbol side quantity price :
  (forall s, 0 <= PortfolioManager.quantity (get_position self s)) ->
  0 <= quantity ->
  forall s,
    0 <= PortfolioManager.quantity
           (get_position (snd (update_position self symbol side quantity price))
                         s).
Proof.
  intros Hall Hq s. pose proof (Hall symbol) as Hsym.
  unfold update_position.
  change (match positions self !! symbol with
          | Some p => p | None => mkEntry 0 0 end)
    with (get_position self symbol).
  destruct (String.eqb side "BUY");
    [|destruct (String.eqb side "SELL");
      [destruct (Qgeb _ quantity) eqn:Hge|]];
    cbn [snd]; unfold get_position at 1; cbn [positions];
    (destruct (decide (symbol = s)) as [<-|Hne];
     [rewrite lookup_insert_eq
     |rewrite lookup_insert_ne by exact Hne; apply (Hall s)]);
    cbn [PortfolioManager.quantity]; try exact Hsym.
  - lra.
  - apply Qgeb_ge in Hge. lra.
Qed.

Lemma portfolio_never_short_witness :
  0 <= PortfolioManager.quantity
         (get_position
            (snd (update_position (init 10000) Scenario.sym "SELL" 1 50000))
            Scenario.sym).
Proof.
  apply portfolio_never_short; [|vm_compute; discriminate].
  intros s. unfold get_position, init. cbn [positions].
  rewrite lookup_empty. apply Qle_refl.
Defined.

(** The portfolio manager charges no fee.  For a symbol marked at [mark], a
    BUY of [quantity] at [price] moves the total value by
    [quantity * (mark - price)] and an accepted SELL by
    [quantity * (price - mark)]; a refused SELL and any other side string
    move no amount, and the total value is as it was. *)
Theorem trade_moves_value_by_price_gap self symbol side quantity price mark
    prices :
  prices !! symbol = Some mark ->
  0 <= PortfolioManager.quantity (get_position self symbol) ->
  0 <= quantity ->
  let held := PortfolioManager.quantity (get_position self symbol) in
  let r := update_position self symbol side quantity price in
  (side = "BUY"%string ->
   get_total_value (snd r) prices
   == get_total_value self prices + quantity * (mark - price)) /\
  (side = "SELL"%string -> quantity <= held ->
   fst r = true /\
   get_total_value (snd r) prices
   == get_total_value self prices + quantity * (price - mark)) /\
  (side = "SELL"%string -> held < quantity ->
   fst r = false /\
   get_total_value (snd r) prices == get_total_value self prices) /\
  (side <> "BUY"%string -> side <> "SELL"%string ->
   get_total_value (snd r) prices == get_total_value self prices).
Proof.
  intros Hp Hq0 Hq held r. subst held r.
  pose proof (mark_priced PortfolioManager.quantity prices symbol
                (get_position self symbol) mark Hp Hq0) as Hold.
  assert (Hsame : get_total_value
                    (mkPortfolio (initial_balance self)
                       (available_balance self)
                       (<[symbol := get_position self symbol]>
                          (positions self))
                       (trade_history self) (balance_history self)) prices
                  == get_total_value self prices).
  { rewrite (get_total_value_of self prices symbol).
    rewrite get_total_value_mark. cbn [available_balance positions].
    rewrite (value_insert PortfolioManager.quantity prices (positions self)).
    reflexivity. }
  assert (Hsame' : forall history,
            get_total_value
              (mkPortfolio (initial_balance self) (available_balance self)
                 (<[symbol := get_position self symbol]> (positions self))
                 history (balance_history self)) prices
            == get_total_value self prices) by (intros; exact Hsame).
  unfold update_position.
  change (match positions self !! symbol with
          | Some p => p | None => mkEntry 0 0 end)
    with (get_position self symbol).
  split; [|split; [|split]].
  - intros ->. cbn [String.eqb Ascii.eqb Bool.eqb andb snd].
    rewrite (get_total_value_of self prices symbol).
    rewrite get_total_value_mark. cbn [available_balance positions].
    rewrite (value_insert PortfolioManager.quantity prices (positions self)).
    apply (value_after_buy _ _ (PortfolioManager.quantity
                                  (get_position self symbol)));
      [|exact Hold].
    apply (mark_priced PortfolioManager.quantity prices symbol
             (mkEntry _ _) mark Hp).
    cbn [PortfolioManager.quantity]. lra.
  - intros -> Hle. cbn [String.eqb Ascii.eqb Bool.eqb andb].
    pose proof Hle as Hge. apply Qgeb_ge in Hge. rewrite Hge.
    cbn [fst snd]. split; [reflexivity|].
    rewrite (get_total_value_of self prices symbol).
    rewrite get_total_value_mark. cbn [available_balance positions].
    rewrite (value_insert PortfolioManager.quantity prices (positions self)).
    apply (value_after_sell _ _ (PortfolioManager.quantity
                                   (get_position self symbol)));
      [|exact Hold].
    apply (mark_priced PortfolioManager.quantity prices symbol
             (mkEntry _ _) mark Hp).
    cbn [PortfolioManager.quantity]. lra.
  - intros -> Hlt. cbn [String.eqb Ascii.eqb Bool.eqb andb].
    apply Qgeb_lt in Hlt. rewrite Hlt. cbn [fst snd].
    split; [reflexivity | apply Hsame'].
  - intros Hb Hs. apply String.eqb_neq in Hb, Hs. rewrite Hb, Hs.
    cbn [snd]. apply Hsame'.
Qed.

Lemma trade_moves_value_by_price_gap_witness :
  get_total_value
    (snd (update_position (init 10000) Scenario.sym "BUY" 0.1 49000))
    (<[Scenario.sym := 50000]> ∅)
  == get_total_value (init 10000) (<[Scenario.sym := 50000]> ∅)
     + 0.1 * (50000 - 49000).
Proof.
  assert (H0 : 0 <= PortfolioManager.quantity
                     (get_position (init 10000) Scenario.sym))
    by (vm_compute; discriminate).
  assert (Hq : 0 <= 0.1) by (vm_compute; discriminate).
  pose proof (trade_moves_value_by_price_gap (init 10000) Scenario.sym "BUY"
                0.1 49000 50000 (<[Scenario.sym := 50000]> ∅)
                (lookup_insert_eq _ _ _) H0 Hq) as (Hbuy & _).
  exact (Hbuy eq_refl).
Defined.

(** A BUY followed by a SELL of the same quantity is never refused, and the
    pair moves the available balance by the quantity times the distance
    between the two prices; the two records are added to the history. *)
Theorem buy_then_sell_realizes_gap self symbol quantity buy_price sell_price :
  0 <= PortfolioManager.quantity (get_position self symbol) ->
  let bought := snd (update_position self symbol "BUY" quantity buy_price) in
  let r := update_position bought symbol "SELL" quantity sell_price in
  fst r = true /\
  available_balance (snd r)
  == available_balance self + quantity * (sell_price - buy_price) /\
  trade_history (snd r) =
    trade_history self
    ++ [mkRecord symbol "BUY" quantity buy_price (quantity * buy_price);
        mkRecord symbol "SELL" quantity sell_price (quantity * sell_price)].
Proof.
  intros Hq0 bought r. subst r bought. unfold update_position.
  cbn [String.eqb Ascii.eqb Bool.eqb andb snd positions].
  rewrite lookup_insert_eq.
  change (match positions self !! symbol with
          | Some p => p | None => mkEntry 0 0 end)
    with (get_position self symbol).
  cbn [PortfolioManager.quantity].
  assert (Hge : Qgeb (PortfolioManager.quantity (get_position self symbol)
                      + quantity) quantity = true)
    by (apply Qgeb_ge; lra).
  rewrite Hge. cbn [fst snd available_balance trade_history positions].
  split; [reflexivity|]. split; [ring|].
  rewrite <- app_assoc. reflexivity.
Qed.

Lemma buy_then_sell_realizes_gap_witness :
  let bought :=
    snd (update_position (init 10000) Scenario.sym "BUY" 0.1 50000) in
  available_balance (snd (update_position bought Scenario.sym "SELL" 0.1 51000))
  == available_balance (init 10000) + 0.1 * (51000 - 50000).
Proof.
  apply (buy_then_sell_realizes_gap (init 10000) Scenario.sym 0.1 50000 51000).
  vm_compute. discriminate.
Defined.

Lemma no_profitable_trades self history :
  List.filter (fun trade => is_sell trade
                            && Qgtb (_calculate_trade_pnl self trade) 0)
              history = [].
Proof.
  induction history as [|trade rest IH]; [reflexivity|].
  cbn [List.filter]. rewrite IH.
  unfold _calculate_trade_pnl. rewrite andb_false_r. reflexivity.
Qed.

(** The summary never reports a win: [_calculate_trade_pnl] is 0 for every
    trade, so [win_rate] is 0 whatever the trade history holds; and the
    summary fails exactly when the initial balance is 0. *)
Theorem summary_win_rate_zero self prices :
  (initial_balance self == 0 -> get_portfolio_summary self prices = None) /\
  match get_portfolio_summary self prices with
  | Some summary =>
      ~ initial_balance self == 0 /\
      sum_win_rate summary == 0 /\
      sum_total_trades summary
        = length (List.filter is_sell (trade_history self)) /\
      sum_total_pnl summary
        == get_total_value self prices - initial_balance self /\
      sum_total_return_pct summary
        == sum_total_pnl summary / initial_balance self * 100
  | None => initial_balance self == 0
  end.
Proof.
  unfold get_portfolio_summary.
  destruct (Qeq_bool (initial_balance self) 0) eqn:E.
  - split; [reflexivity | apply Qeq_bool_iff, E].
  - apply Qeq_bool_neq in E. split; [intros E0; contradiction|].
    cbn [sum_win_rate sum_total_trades sum_total_pnl sum_total_return_pct].
    rewrite no_profitable_trades. cbn [length Z.of_nat inject_Z].
    split; [exact E|]. split; [|repeat split; reflexivity].
    unfold Qdiv. ring.
Qed.

Lemma summary_win_rate_zero_witness :
  get_portfolio_summary (init 0) ∅ = None.
Proof.
  apply (proj1 (summary_win_rate_zero (init 0) ∅)). reflexivity.
Defined.

End PortfolioBooks.

(** *** More on the signal generators *)

Section SignalShape.
Import Num Float Pandas TradingStrategy.
Local Open Scope Q_scope.

(** [add_signal] records the signal as the last one, appends it to the
    history and keeps the last 1000 entries: the new history is the end of
    the old one followed by the signal, and it is never longer than 1000. *)
Theorem add_signal_keeps_latest base signal :
  last_signal (add_signal base signal) = Some signal /\
  (length (signals_history (add_signal base signal)) <= 1000)%nat /\
  (exists dropped,
     signals_history base ++ [signal]
     = dropped ++ signals_history (add_signal base signal)) /\
  last (signals_history (add_signal base signal)) = Some signal /\
  ((length (signals_history base) < 1000)%nat ->
   signals_history (add_signal base signal)
   = signals_history base ++ [signal]).
Proof.
  split; [reflexivity|]. split; [apply add_signal_length|].
  unfold add_signal. cbn [signals_history].
  set (history := signals_history base ++ [signal]).
  assert (Hlen : length history = S (length (signals_history base)))
    by (unfold history; rewrite length_app; cbn; lia).
  destruct (Nat.ltb_spec 1000 (length history)) as [Hlong|Hshort].
  - split; [exists (take (length history - 1000) history);
            symmetry; apply take_drop|].
    split; [|intros H; lia].
    unfold history at 2. rewrite drop_app_le by lia. apply last_snoc.
  - split; [exists []; reflexivity|].
    split; [unfold history; apply last_snoc | reflexivity].
Qed.

Ltac open_bind :=
  match goal with
  | |- context [mbind _ ?x] =>
      destruct x eqn:?; cbn [mbind option_bind]; [|discriminate]
  end.

Lemma fmin_at_most_one a :
  a <> NaN -> fle (fmin a (Fin 1)) (Fin 1) = true.
Proof.
  intros Ha. unfold fmin. destruct a as [q| | |]; cbn [flt]; try reflexivity.
  - destruct (Qltb 1 q) eqn:E; [reflexivity|].
    apply Qltb_ge in E. cbn [fle]. apply Qleb_le, E.
  - contradiction.
Qed.

Lemma flt_not_nan_r a b : flt a b = true -> b <> NaN.
Proof. intros H ->. destruct a; discriminate H. Qed.

Lemma flt_not_nan_l a b : flt a b = true -> a <> NaN.
Proof. intros H ->. discriminate H. Qed.

Lemma fmul_pos_not_nan a q : a <> NaN -> 0 < q -> fmul a (Fin q) <> NaN.
Proof.
  intros Ha Hq. destruct a as [x| | |]; cbn [fmul]; try discriminate.
  - unfold inf_of_sign. pose proof Hq as Hb. apply Qgtb_gt in Hb.
    rewrite Hb. discriminate.
  - unfold inf_of_sign.
    assert (H1 : Qgtb (- q) 0 = false) by (apply Qgtb_le; lra).
    assert (H2 : Qltb (- q) 0 = true) by (apply Qltb_lt; lra).
    rewrite H1, H2. discriminate.
  - contradiction.
Qed.

Lemma dual_ma_signal_shape self data signal cross :
  dual_ma_signal self data = Some (signal, cross) ->
  buy_or_sell_at_close data signal /\ fle (strength signal) (Fin 1) = true.
Proof.
  unfold dual_ma_signal. repeat open_bind.
  match goal with
  | |- (if ?c then _ else _) = _ -> _ => destruct c eqn:C1
  end.
  - intros [= <- <-]. apply andb_true_iff in C1. destruct C1 as [_ C1].
    split.
    + split; [left; reflexivity|]. cbn [price]. eauto.
    + cbn [strength]. apply fmin_at_most_one, fmul_pos_not_nan; [|reflexivity].
      apply (flt_not_nan_r _ _ C1).
  - match goal with
    | |- (if ?c then _ else _) = _ -> _ => destruct c eqn:C2; [|discriminate]
    end.
    intros [= <- <-]. apply andb_true_iff in C2. destruct C2 as [_ C2].
    split.
    + split; [right; reflexivity|]. cbn [price]. eauto.
    + cbn [strength]. apply fmin_at_most_one, fmul_pos_not_nan; [|reflexivity].
      apply (flt_not_nan_r _ _ C2).
Qed.

Lemma fsub_fin_gt a o : flt a (Fin o) = true ->
  fsub (Fin o) a = PInf \/ exists d, fsub (Fin o) a = Fin d /\ 0 < d.
Proof.
  destruct a as [r| | |]; cbn; try discriminate.
  - intros H. apply Qltb_lt in H. right. eexists. split; [reflexivity|]. lra.
  - intros _. left. reflexivity.
Qed.

Lemma fsub_gt_fin a o : flt (Fin o) a = true ->
  fsub a (Fin o) = PInf \/ exists d, fsub a (Fin o) = Fin d /\ 0 < d.
Proof.
  destruct a as [r| | |]; cbn; try discriminate.
  - intros H. apply Qltb_lt in H. right. eexists. split; [reflexivity|]. lra.
  - intros _. left. reflexivity.
Qed.

Lemma fdiv_pos_not_nan n d :
  n = PInf \/ (exists x, n = Fin x /\ 0 < x) -> fdiv n (Fin d) <> NaN.
Proof.
  intros [->|(x & -> & Hx)]; cbn [fdiv].
  - destruct (Qltb d 0); discriminate.
  - destruct (Qeq_bool d 0); [|discriminate].
    unfold inf_of_sign. apply Qgtb_gt in Hx. rewrite Hx. discriminate.
Qed.

Lemma rsi_signal_shape self data signal :
  rsi_signal self data = Some signal ->
  buy_or_sell_at_close data signal /\ fle (strength signal) (Fin 1) = true.
Proof.
  unfold rsi_signal. repeat open_bind.
  match goal with
  | |- (if ?c then _ else _) = _ -> _ => destruct c eqn:C1
  end.
  - intros [= <-]. apply andb_true_iff in C1. destruct C1 as [_ C1].
    split.
    + split; [left; reflexivity|]. cbn [price]. eauto.
    + cbn [strength]. apply fmin_at_most_one, fdiv_pos_not_nan.
      apply fsub_fin_gt, C1.
  - match goal with
    | |- (if ?c then _ else _) = _ -> _ => destruct c eqn:C2; [|discriminate]
    end.
    intros [= <-]. apply andb_true_iff in C2. destruct C2 as [_ C2].
    split.
    + split; [right; reflexivity|]. cbn [price]. eauto.
    + cbn [strength]. apply fmin_at_most_one, fdiv_pos_not_nan.
      apply fsub_gt_fin, C2.
Qed.

Lemma shape_same_outside data data1 signal :
  same_outside_indicators data data1 ->
  buy_or_sell_at_close data1 signal -> buy_or_sell_at_close data signal.
Proof.
  intros [_ Hcols] [Hty (close & Hclose & Hlast)]. split; [exact Hty|].
  exists close. split; [|exact Hlast].
  rewrite <- Hclose. symmetry. apply Hcols.
  apply not_indicator_required. rewrite !elem_of_cons. tauto.
Qed.

Lemma macd_signal_shape self data signal :
  macd_signal_of self data = Some signal -> buy_or_sell_at_close data signal.
Proof.
  unfold macd_signal_of. repeat open_bind.
  match goal with
  | |- (if ?c then _ else _) = _ -> _ => destruct c eqn:C1
  end.
  - intros [= <-]. split; [left; reflexivity|]. cbn [price]. eauto.
  - match goal with
    | |- (if ?c then _ else _) = _ -> _ => destruct c eqn:C2; [|discriminate]
    end.
    intros [= <-]. split; [right; reflexivity|]. cbn [price]. eauto.
Qed.

(** Every signal a generator emits is a BUY or a SELL, never a HOLD, and its
    price is the last close of the frame it was computed from. *)
Theorem emitted_signal_shape self data :
  match fst (fst (generate_signal self data)) with
  | Some signal => buy_or_sell_at_close data signal
  | None => True
  end.
Proof.
  destruct self as [s|s|s]; cbn [generate_signal].
  - unfold dual_ma_generate_signal.
    destruct (negb (validate_data data) || _); [exact I|].
    destruct (dual_ma_signal s data) as [[signal cross]|] eqn:E; [|exact I].
    apply (dual_ma_signal_shape s data signal cross E).
  - unfold rsi_generate_signal.
    destruct (negb (validate_data data) || _); [exact I|].
    destruct (rsi_prepare s data) as [data1|] eqn:Hprep; [|exact I].
    destruct (rsi_signal s data1) as [signal|] eqn:E; [|exact I].
    cbn [fst]. apply (shape_same_outside data data1).
    + apply (rsi_prepare_same_outside s data data1 Hprep).
    + apply (rsi_signal_shape s data1 signal E).
  - unfold macd_generate_signal.
    destruct (negb (validate_data data) || _); [exact I|].
    destruct (macd_prepare s data) as [data1|] eqn:Hprep; [|exact I].
    destruct (macd_signal_of s data1) as [signal|] eqn:E; [|exact I].
    cbn [fst]. apply (shape_same_outside data data1).
    + apply (macd_prepare_same_outside s data data1 Hprep).
    + apply (macd_signal_shape s data1 signal E).
Qed.

Lemma ewm_from_finite a : forall series w old_wt,
  0 <= 1 - a -> 0 <= old_wt ->
  Forall (fun x => is_finite x = true) series ->
  Forall (fun x => is_finite x = true) (ewm_from a (Fin w) old_wt true series).
Proof.
  induction series as [|x rest IH]; intros w old_wt Ha Hd Hall;
    cbn [ewm_from]; [constructor|].
  inversion Hall as [|? ? Hx Hrest]; subst.
  destruct x as [v| | |]; try discriminate Hx.
  cbn [is_observation orb fadd fmul fdiv feq].
  assert (Hpos : 0 < old_wt * (1 - a) + 1).
  { assert (0 <= old_wt * (1 - a)) by (apply Qmult_le_0_compat; assumption).
    lra. }
  assert (Hnz : Qeq_bool (old_wt * (1 - a) + 1) 0 = false).
  { destruct (Qeq_bool _ 0) eqn:E; [|reflexivity].
    apply Qeq_bool_iff in E. rewrite E in Hpos. exfalso.
    revert Hpos. apply Qlt_irrefl. }
  rewrite Hnz.
  destruct (Qeq_bool w v);
    (constructor; [reflexivity|]); (apply IH; [exact Ha | lra | exact Hrest]).
Qed.

Lemma ewm_mean_finite span series result :
  ewm_mean span series = Some result ->
  Forall (fun x => is_finite x = true) series ->
  Forall (fun x => is_finite x = true) result.
Proof.
  unfold ewm_mean. destruct (Nat.ltb_spec span 1); [discriminate|].
  destruct series as [|x rest]; intros [= <-] Hall; [constructor|].
  inversion Hall as [|? ? Hx Hrest]; subst.
  destruct x as [v| | |]; try discriminate Hx. cbn [is_observation].
  constructor; [reflexivity|].
  apply ewm_from_finite; [|lra | exact Hrest].
  assert (Hs : 1 <= inject_Z (Z.of_nat span)).
  { change 1 with (inject_Z 1). rewrite <- Zle_Qle. lia. }
  assert (Hd : 0 < inject_Z (Z.of_nat span) + 1) by lra.
  apply (Qmult_le_r _ _ _ Hd). field_simplify; [lra|].
  intros E. rewrite E in Hd. revert Hd. apply Qlt_irrefl.
Qed.

Lemma zip_with_fsub_finite xs : forall ys,
  Forall (fun x => is_finite x = true) xs ->
  Forall (fun x => is_finite x = true) ys ->
  Forall (fun x => is_finite x = true) (zip_with fsub xs ys).
Proof.
  induction xs as [|x xs IH]; intros [|y ys] Hx Hy; cbn [zip_with];
    try constructor.
  - inversion Hx; inversion Hy; subst.
    destruct x, y; try discriminate. reflexivity.
  - inversion Hx; inversion Hy; subst. apply IH; assumption.
Qed.

Lemma calculate_macd_finite self close macd sig hist :
  _calculate_macd self close = Some (macd, sig, hist) ->
  Forall (fun x => is_finite x = true) close ->
  Forall (fun x => is_finite x = true) sig /\
  Forall (fun x => is_finite x = true) hist.
Proof.
  unfold _calculate_macd. intros H Hclose.
  destruct (ewm_mean (fast_period self) close) as [fast|] eqn:Hf;
    [|discriminate].
  destruct (ewm_mean (slow_period self) close) as [slow|] eqn:Hs;
    [|discriminate].
  cbn [mbind option_bind] in H.
  destruct (ewm_mean (signal_period self) (zip_with fsub fast slow))
    as [sg|] eqn:Hg; [|discriminate].
  cbn [mbind option_bind] in H. injection H as <- <- <-.
  pose proof (ewm_mean_finite _ _ _ Hf Hclose) as Ffast.
  pose proof (ewm_mean_finite _ _ _ Hs Hclose) as Fslow.
  pose proof (zip_with_fsub_finite _ _ Ffast Fslow) as Fmacd.
  pose proof (ewm_mean_finite _ _ _ Hg Fmacd) as Fsig.
  split; [exact Fsig | apply zip_with_fsub_finite; assumption].
Qed.

Lemma iloc_back_finite k series x :
  Forall (fun x => is_finite x = true) series ->
  iloc_back k series = Some x -> is_finite x = true.
Proof.
  intros Hall. unfold iloc_back. destruct (_ <? _)%nat; [discriminate|].
  intros H. rewrite Forall_lookup in Hall. exact (Hall _ _ H).
Qed.

Lemma macd_strength h s :
  is_finite h = true -> is_finite s = true ->
  flt (Fin 0) h = true \/ flt h (Fin 0) = true ->
  fle (fmin (fmul (fdiv (fabs h) (fabs s)) (Fin 2)) (Fin 1)) (Fin 1) = true.
Proof.
  intros Hh Hs Hnz. destruct h as [x| | |]; try discriminate Hh.
  destruct s as [y| | |]; try discriminate Hs.
  apply fmin_at_most_one, fmul_pos_not_nan; [|reflexivity].
  apply fdiv_pos_not_nan. right. exists (Qabs x). split; [reflexivity|].
  cbn [flt] in Hnz.
  destruct Hnz as [H|H]; apply Qltb_lt in H.
  - rewrite Qabs_pos by lra. exact H.
  - rewrite Qabs_neg by lra. lra.
Qed.

Lemma macd_signal_strength self data signal :
  macd_signal_of self data = Some signal ->
  (forall sig, columns data !! "macd_signal"%string = Some sig ->
               Forall (fun x => is_finite x = true) sig) ->
  (forall hist, columns data !! "macd_histogram"%string = Some hist ->
                Forall (fun x => is_finite x = true) hist) ->
  fle (strength signal) (Fin 1) = true.
Proof.
  unfold macd_signal_of. intros H Hsig Hhist. revert H. repeat open_bind.
  match goal with
  | Hs : forall sig, Some ?sg = Some sig -> _,
    H2 : iloc_back 1 ?sg = Some ?s,
    Hh : forall hist, Some ?hs = Some hist -> _,
    H4 : iloc_back 1 ?hs = Some ?h |- _ =>
      pose proof (iloc_back_finite _ _ _ (Hs _ eq_refl) H2) as Fs;
      pose proof (iloc_back_finite _ _ _ (Hh _ eq_refl) H4) as Fh
  end.
  match goal with
  | |- (if ?c then _ else _) = _ -> _ => destruct c eqn:C1
  end.
  - intros [= <-]. apply andb_true_iff in C1. destruct C1 as [_ C1].
    cbn [strength]. apply macd_strength; auto.
  - match goal with
    | |- (if ?c then _ else _) = _ -> _ => destruct c eqn:C2; [|discriminate]
    end.
    intros [= <-]. apply andb_true_iff in C2. destruct C2 as [_ C2].
    cbn [strength]. apply macd_strength; auto.
Qed.

(** The strength of an emitted signal is at most 1 and is a number: for
    DualMA and RSI on every frame, for MACD when it computes its columns
    itself from closes that are all finite. *)
Theorem signal_strength_at_most_one self data :
  match self with
  | MACD _ =>
      columns data !! "macd"%string = None /\
      forall close, columns data !! "close"%string = Some close ->
                    Forall (fun x => is_finite x = true) close
  | _ => True
  end ->
  match fst (fst (generate_signal self data)) with
  | Some signal => fle (strength signal) (Fin 1) = true
  | None => True
  end.
Proof.
  destruct self as [s|s|s]; cbn [generate_signal].
  - intros _. unfold dual_ma_generate_signal.
    destruct (negb (validate_data data) || _); [exact I|].
    destruct (dual_ma_signal s data) as [[signal cross]|] eqn:E; [|exact I].
    apply (dual_ma_signal_shape s data signal cross E).
  - intros _. unfold rsi_generate_signal.
    destruct (negb (validate_data data) || _); [exact I|].
    destruct (rsi_prepare s data) as [data1|] eqn:Hprep; [|exact I].
    destruct (rsi_signal s data1) as [signal|] eqn:E; [|exact I].
    apply (rsi_signal_shape s data1 signal E).
  - intros [Hnone Hfin]. unfold macd_generate_signal.
    destruct (negb (validate_data data) || _); [exact I|].
    destruct (macd_prepare s data) as [data1|] eqn:Hprep; [|exact I].
    destruct (macd_signal_of s data1) as [signal|] eqn:E; [|exact I].
    cbn [fst]. apply (macd_signal_strength s data1 signal E);
      revert Hprep; unfold macd_prepare; rewrite Hnone;
      (destruct (columns data !! "close"%string) as [close|] eqn:Hclose;
       [|discriminate]); cbn [mbind option_bind];
      (destruct (_calculate_macd s close) as [[[macd sg] hs]|] eqn:Hcalc;
       [|discriminate]); cbn [mbind option_bind]; intros [= <-];
      destruct (calculate_macd_finite s close macd sg hs Hcalc
                  (Hfin close eq_refl)) as [Fsig Fhist];
      cbn [set_column columns].
    + rewrite lookup_insert_ne by discriminate. rewrite lookup_insert_eq.
      intros sig [= <-]. exact Fsig.
    + rewrite lookup_insert_eq. intros hist [= <-]. exact Fhist.
Qed.

Lemma signal_strength_at_most_one_witness :
  match fst (fst (generate_signal (MACD Scenario.macd_fast_long)
                                  (Scenario.frame [4; 4; 2]))) with
  | Some signal => fle (strength signal) (Fin 1) = true
  | None => True
  end.
Proof.
  apply (signal_strength_at_most_one (MACD Scenario.macd_fast_long)
           (Scenario.frame [4; 4; 2])).
  split; [vm_compute; reflexivity|].
  intros close H. vm_compute in H. injection H as <-.
  repeat constructor.
Defined.

End SignalShape.

(** *** The combined strategy and the strategy manager *)

Section Combined.
Import Num Float Pandas TradingStrategy StrategyManager.
Local Open Scope Q_scope.

Lemma same_outside_trans d1 d2 d3 :
  same_outside_indicators d1 d2 -> same_outside_indicators d2 d3 ->
  same_outside_indicators d1 d3.
Proof.
  intros [R12 C12] [R23 C23]. split; [congruence|].
  intros name Hn. rewrite C23, C12 by exact Hn. reflexivity.
Qed.

Lemma generate_signal_frame s data :
  same_outside_indicators data (snd (TradingStrategy.generate_signal s data)).
Proof.
  destruct s as [s|s|s]; cbn [TradingStrategy.generate_signal].
  - destruct (dual_ma_generate_signal s data). apply same_outside_refl.
  - pose proof (rsi_generate_signal_effects s data) as H.
    destruct (rsi_generate_signal s data) as [[r s'] data']. apply H.
  - pose proof (macd_generate_signal_effects s data) as H.
    destruct (macd_generate_signal s data) as [[r s'] data']. apply H.
Qed.

Lemma call_generator_frame store r data :
  same_outside_indicators data (snd (call_generator store r data)) /\
  length (snd (fst (call_generator store r data))) = length store.
Proof.
  unfold call_generator. destruct (store !! r) as [s|].
  - pose proof (generate_signal_frame s data) as H.
    destruct (TradingStrategy.generate_signal s data) as [[sig s'] data'].
    split; [exact H | apply length_insert].
  - split; [apply same_outside_refl | reflexivity].
Qed.

Lemma collect_signals_frame weights children :
  forall i store data collected,
    same_outside_indicators data
      (snd (collect_signals weights i children store data collected)) /\
    length (snd (fst (collect_signals weights i children store data
                                      collected)))
      = length store.
Proof.
  induction children as [|r rest IH]; intros i store data collected;
    cbn [collect_signals].
  - split; [apply same_outside_refl | reflexivity].
  - pose proof (call_generator_frame store r data) as [Hf Hl].
    destruct (call_generator store r data) as [[sig store'] data'].
    cbn [fst snd] in Hf, Hl.
    destruct sig as [s|].
    + destruct (weights !! i) as [w|].
      * destruct (IH (S i) store' data' (collected ++ [(s, w)])) as [Hf' Hl'].
        split; [eapply same_outside_trans; eassumption | congruence].
      * split; assumption.
    + destruct (IH (S i) store' data' collected) as [Hf' Hl'].
      split; [eapply same_outside_trans; eassumption | congruence].
Qed.

Lemma final_signal_shape buy sell current_price n signal :
  final_signal buy sell current_price n = Some signal ->
  (signal_type signal = "BUY"%string \/ signal_type signal = "SELL"%string) /\
  price signal = current_price /\
  fgt (strength signal) (Fin 0.5) = true.
Proof.
  unfold final_signal.
  destruct (fgt buy sell && fgt buy (Fin 0.5)) eqn:C1.
  - intros [= <-]. apply andb_true_iff in C1. cbn. tauto.
  - destruct (fgt sell buy && fgt sell (Fin 0.5)) eqn:C2; [|discriminate].
    intros [= <-]. apply andb_true_iff in C2. cbn. tauto.
Qed.

(** The combined strategy emits only a BUY or a SELL whose strength, the
    weighted strength of that side, exceeds 0.5, priced at the last close;
    it records the signal in its own history and otherwise stays as it
    was.  Whatever it returns, its generators have been run on the caller's
    frame, which keeps its rows and every column that is not an indicator
    column, and no generator is added to or removed from the store. *)
Theorem combined_signal_effects self store data :
  let '(result, self', store', data') :=
    combined_generate_signal self store data in
  match result with
  | Some signal =>
      buy_or_sell_at_close data signal /\
      fgt (strength signal) (Fin 0.5) = true /\
      cmb_base self' = add_signal (cmb_base self) signal
  | None => self' = self
  end /\
  cmb_strategies self' = cmb_strategies self /\
  cmb_weights self' = cmb_weights self /\
  same_outside_indicators data data' /\
  length store' = length store.
Proof.
  unfold combined_generate_signal.
  destruct (negb (validate_data data)).
  { repeat split. }
  pose proof (collect_signals_frame (cmb_weights self) (cmb_strategies self)
                0 store data []) as [Hf Hl].
  destruct (collect_signals _ _ _ _ _ _) as [[collected store'] data'].
  cbn [fst snd] in Hf, Hl.
  match goal with
  | |- context [match ?r with Some _ => _ | None => _ end] =>
      destruct r as [signal|] eqn:Hres
  end;
    [|split; [reflexivity|]; split; [reflexivity|]; split; [reflexivity|];
      split; assumption].
  split;
    [|split; [reflexivity|]; split; [reflexivity|]; split; assumption].
  destruct collected as [collected|]; [|discriminate Hres].
  cbn [mbind option_bind] in Hres.
  destruct collected as [|c cs]; [discriminate Hres|].
  destruct (weigh_signals (c :: cs)) as [[buy sell]|]; [|discriminate Hres].
  cbn [mbind option_bind] in Hres.
  destruct (columns data' !! "close"%string) as [close|] eqn:Hclose;
    [|discriminate Hres].
  cbn [mbind option_bind] in Hres.
  destruct (iloc_back 1 close) as [cp|] eqn:Hcp; [|discriminate Hres].
  cbn [mbind option_bind] in Hres.
  apply final_signal_shape in Hres. destruct Hres as (Hty & Hprice & Hstr).
  split; [|split; [exact Hstr | reflexivity]].
  apply (shape_same_outside data data' signal Hf).
  split; [exact Hty|]. exists close. rewrite Hprice. auto.
Qed.

Lemma Qltb_compat b a a' : a == a' -> Qltb b a = Qltb b a'.
Proof.
  intros E. destruct (Qltb b a') eqn:H.
  - apply Qltb_lt. apply Qltb_lt in H. rewrite E. exact H.
  - apply Qltb_ge. apply Qltb_ge in H. rewrite E. exact H.
Qed.

Lemma fgt_unit_weight x y q :
  q == 1 -> fgt (fadd (Fin 0) (fmul x (Fin q))) y = fgt x y.
Proof.
  intros Hq. unfold fgt.
  assert (Hpos : Qgtb q 0 = true) by (apply Qgtb_gt; rewrite Hq; reflexivity).
  assert (Hneg1 : Qgtb (- q) 0 = false)
    by (apply Qgtb_le; rewrite Hq; discriminate).
  assert (Hneg2 : Qltb (- q) 0 = true)
    by (apply Qltb_lt; rewrite Hq; reflexivity).
  destruct x as [a| | |]; cbn [fmul fadd]; unfold inf_of_sign;
    rewrite ?Hpos, ?Hneg1, ?Hneg2; try reflexivity.
  destruct y as [b| | |]; cbn [flt]; try reflexivity.
  apply Qltb_compat. rewrite Hq. ring.
Qed.

Lemma flt_half_pos x : flt (Fin 0.5) x = true -> flt (Fin 0) x = true.
Proof.
  destruct x as [a| | |]; cbn [flt]; try discriminate; try reflexivity.
  intros H. apply Qltb_lt in H. apply Qltb_lt. lra.
Qed.

Lemma flt_zero_half : flt (Fin 0.5) (Fin 0) = false.
Proof. reflexivity. Qed.

(** The weights are shared out among the signals that were emitted, not
    among all strategies: when one generator alone emits, its signal counts
    with its full strength whatever its weight (other than 0) is, and the
    combined strategy passes it on exactly when that strength exceeds
    0.5. *)
Theorem lone_signal_counts_in_full signal weight current_price n :
  ~ weight == 0 ->
  signal_type signal = "BUY"%string \/ signal_type signal = "SELL"%string ->
  exists buy sell,
    weigh_signals [(signal, weight)] = Some (buy, sell) /\
    match final_signal buy sell current_price n with
    | Some final =>
        signal_type final = signal_type signal /\
        fgt (strength signal) (Fin 0.5) = true
    | None => fgt (strength signal) (Fin 0.5) = false
    end.
Proof.
  intros Hw Hty. unfold weigh_signals. cbn [map snd foldr fold_left fst].
  assert (Hnz : Qeq_bool (weight + 0) 0 = false).
  { destruct (Qeq_bool (weight + 0) 0) eqn:E; [|reflexivity].
    apply Qeq_bool_iff in E. exfalso. apply Hw. rewrite <- E. ring. }
  rewrite Hnz.
  assert (Hq : weight / (weight + 0) == 1) by (field; intros E; apply Hw; lra).
  destruct Hty as [Hty|Hty]; rewrite Hty;
    cbn [String.eqb Ascii.eqb Bool.eqb andb fst snd];
    eexists; eexists; (split; [reflexivity|]); unfold final_signal.
  - rewrite !(fgt_unit_weight _ _ _ Hq).
    destruct (fgt (strength signal) (Fin 0.5)) eqn:Hs.
    + unfold fgt in *. rewrite (flt_half_pos _ Hs). cbn [andb signal_type].
      split; reflexivity.
    + rewrite andb_false_r. unfold fgt at 2. rewrite flt_zero_half.
      rewrite andb_false_r. reflexivity.
  - rewrite !(fgt_unit_weight _ _ _ Hq).
    destruct (fgt (strength signal) (Fin 0.5)) eqn:Hs.
    + unfold fgt at 2. rewrite flt_zero_half, andb_false_r.
      unfold fgt in *. rewrite (flt_half_pos _ Hs). cbn [andb signal_type].
      split; reflexivity.
    + unfold fgt at 2. rewrite flt_zero_half, !andb_false_r. reflexivity.
Qed.

Lemma lone_signal_counts_in_full_witness :
  exists buy sell,
    weigh_signals [(mkSignal "BUY" (Fin 0.8) (Fin 2) [], 0.2)]
      = Some (buy, sell) /\
    match final_signal buy sell (Fin 2) 1 with
    | Some final =>
        signal_type final = "BUY"%string /\
        fgt (Fin 0.8) (Fin 0.5) = true
    | None => fgt (Fin 0.8) (Fin 0.5) = false
    end.
Proof.
  apply (lone_signal_counts_in_full (mkSignal "BUY" (Fin 0.8) (Fin 2) []) 0.2
           (Fin 2) 1); [vm_compute; discriminate | left; reflexivity].
Defined.

Lemma close_same_outside data data' :
  same_outside_indicators data data' ->
  columns data' !! "close"%string = columns data !! "close"%string.
Proof.
  intros [_ H]. apply H, not_indicator_required.
  rewrite !elem_of_cons. tauto.
Qed.

Lemma dual_ma_frame_independent s data data' :
  same_outside_indicators data data' ->
  dual_ma_generate_signal s data' = dual_ma_generate_signal s data.
Proof.
  intros H. unfold dual_ma_generate_signal, dual_ma_signal.
  rewrite (validate_data_same_outside data data' H),
    (close_same_outside data data' H).
  destruct H as [-> _]. reflexivity.
Qed.

Lemma dual_ma_rerun s data data' :
  same_outside_indicators data data' ->
  let '(r, s1) := dual_ma_generate_signal s data in
  let '(r', s2) := dual_ma_generate_signal s1 data' in
  r' = r /\ dma_base s2 = recorded_twice r (dma_base s).
Proof.
  intros H.
  pose proof (dual_ma_generate_signal_effects s data) as H1.
  destruct (dual_ma_generate_signal s data) as [r s1].
  destruct H1 as (_ & Hb1 & Hagain).
  rewrite (dual_ma_frame_independent s1 data data' H).
  pose proof (dual_ma_generate_signal_effects s1 data) as H2.
  destruct (dual_ma_generate_signal s1 data) as [r' s2].
  destruct H2 as (_ & Hb2 & _). cbn [fst] in Hagain. subst r'.
  split; [reflexivity|]. rewrite Hb2, Hb1. destruct r; reflexivity.
Qed.

Lemma rsi_signal_frame s d1 d2 :
  rows d2 = rows d1 ->
  columns d2 !! "rsi"%string = columns d1 !! "rsi"%string ->
  columns d2 !! "close"%string = columns d1 !! "close"%string ->
  rsi_signal s d2 = rsi_signal s d1.
Proof. intros Hr Hc Hl. unfold rsi_signal. rewrite Hr, Hc, Hl. reflexivity. Qed.

Lemma rsi_frame_independent s d1 d2 :
  same_outside_indicators d1 d2 ->
  columns d2 !! "rsi"%string = columns d1 !! "rsi"%string ->
  snd (rsi_generate_signal s d1) = d1 ->
  rsi_generate_signal s d2 = (fst (rsi_generate_signal s d1), d2).
Proof.
  intros H Hrsi. pose proof (close_same_outside d1 d2 H) as Hclose.
  assert (Hsig : rsi_signal s d2 = rsi_signal s d1)
    by (apply rsi_signal_frame; [apply H | assumption ..]).
  unfold rsi_generate_signal.
  rewrite (validate_data_same_outside d1 d2 H). destruct H as [Hrows _].
  rewrite Hrows.
  destruct (negb (validate_data d1) || (rows d1 <? period s + 1)%nat);
    [reflexivity|].
  unfold rsi_prepare. rewrite Hrsi, Hclose.
  destruct (columns d1 !! "rsi"%string) as [rsi|] eqn:E1.
  - rewrite Hsig. destruct (rsi_signal s d1); reflexivity.
  - destruct (columns d1 !! "close"%string) as [close|]; [|reflexivity].
    cbn [mbind option_bind].
    destruct (rsi_signal s (set_column d1 "rsi" _)); cbn [snd]; intros Hs;
      apply (f_equal (fun d => columns d !! "rsi"%string)) in Hs;
      cbn [set_column columns] in Hs; rewrite lookup_insert_eq, E1 in Hs;
      discriminate Hs.
Qed.

Lemma rsi_rerun s data d2 :
  let '(r, s1, d1) := rsi_generate_signal s data in
  same_outside_indicators d1 d2 ->
  columns d2 !! "rsi"%string = columns d1 !! "rsi"%string ->
  let '(r', s2, d2') := rsi_generate_signal s1 d2 in
  r' = r /\ rsi_base s2 = recorded_twice r (rsi_base s) /\ d2' = d2.
Proof.
  pose proof (rsi_generate_signal_effects s data) as H1.
  destruct (rsi_generate_signal s data) as [[r s1] d1].
  destruct H1 as (_ & _ & Hb1 & Hagain & Hframe).
  intros H Hrsi.
  rewrite (rsi_frame_independent s1 d1 d2 H Hrsi Hframe).
  pose proof (rsi_generate_signal_effects s1 d1) as H2.
  destruct (rsi_generate_signal s1 d1) as [[r' s2] d1'].
  destruct H2 as (_ & _ & Hb2 & _). cbn [fst snd] in *. subst r'.
  split; [reflexivity|]. split; [|reflexivity].
  rewrite Hb2, Hb1. destruct r; reflexivity.
Qed.

Lemma macd_keeps_rsi s data :
  columns (snd (macd_generate_signal s data)) !! "rsi"%string
  = columns data !! "rsi"%string.
Proof.
  unfold macd_generate_signal.
  destruct (negb (validate_data data) || _); [reflexivity|].
  unfold macd_prepare.
  destruct (columns data !! "macd"%string).
  - destruct (macd_signal_of s data); reflexivity.
  - destruct (columns data !! "close"%string) as [close|]; [|reflexivity].
    cbn [mbind option_bind].
    destruct (_calculate_macd s close) as [[[macd sg] hs]|]; [|reflexivity].
    cbn [mbind option_bind].
    destruct (macd_signal_of s _); cbn [snd set_column columns];
      rewrite !lookup_insert_ne by discriminate; reflexivity.
Qed.

Lemma macd_rerun s data :
  let '(r, s1, d1) := macd_generate_signal s data in
  let '(r', s2, d1') := macd_generate_signal s1 d1 in
  r' = r /\ macd_base s2 = recorded_twice r (macd_base s) /\ d1' = d1.
Proof.
  pose proof (macd_generate_signal_effects s data) as H1.
  destruct (macd_generate_signal s data) as [[r s1] d1].
  destruct H1 as (_ & _ & Hb1 & Hagain & Hframe).
  pose proof (macd_generate_signal_effects s1 d1) as H2.
  destruct (macd_generate_signal s1 d1) as [[r' s2] d1'].
  destruct H2 as (_ & _ & Hb2 & _). cbn [fst snd] in *. subst r' d1'.
  split; [reflexivity|]. split; [|reflexivity].
  rewrite Hb2, Hb1. destruct r; reflexivity.
Qed.

Lemma invalid_frame_no_signal s data :
  validate_data data = false ->
  TradingStrategy.generate_signal s data = (None, s, data).
Proof.
  intros H. destruct s as [s|s|s]; cbn [TradingStrategy.generate_signal];
    [unfold dual_ma_generate_signal | unfold rsi_generate_signal
    | unfold macd_generate_signal]; rewrite H; reflexivity.
Qed.

Lemma call_generator_at store i s data :
  store !! i = Some s ->
  call_generator store i data =
  (fst (fst (TradingStrategy.generate_signal s data)),
   <[i := snd (fst (TradingStrategy.generate_signal s data))]> store,
   snd (TradingStrategy.generate_signal s data)).
Proof.
  intros H. unfold call_generator. rewrite H.
  destruct (TradingStrategy.generate_signal s data) as [[sig s'] data'].
  reflexivity.
Qed.

Lemma collect_three w0 w1 w2 d1 rs1 m1 f r0 d2 r1 rs2 r2 m2 :
  dual_ma_generate_signal d1 f = (r0, d2) ->
  rsi_generate_signal rs1 f = (r1, rs2, f) ->
  macd_generate_signal m1 f = (r2, m2, f) ->
  exists collected,
    collect_signals [w0; w1; w2] 0 [0; 1; 2]%nat
                    [DualMA d1; RSI rs1; MACD m1] f []
    = (Some collected, [DualMA d2; RSI rs2; MACD m2], f).
Proof.
  intros E0 E1 E2.
  assert (S0 : call_generator [DualMA d1; RSI rs1; MACD m1] 0 f
               = (r0, [DualMA d2; RSI rs1; MACD m1], f)).
  { rewrite (call_generator_at _ 0 (DualMA d1)) by reflexivity.
    cbn [TradingStrategy.generate_signal]. rewrite E0. reflexivity. }
  assert (S1 : call_generator [DualMA d2; RSI rs1; MACD m1] 1 f
               = (r1, [DualMA d2; RSI rs2; MACD m1], f)).
  { rewrite (call_generator_at _ 1 (RSI rs1)) by reflexivity.
    cbn [TradingStrategy.generate_signal]. rewrite E1. reflexivity. }
  assert (S2 : call_generator [DualMA d2; RSI rs2; MACD m1] 2 f
               = (r2, [DualMA d2; RSI rs2; MACD m2], f)).
  { rewrite (call_generator_at _ 2 (MACD m1)) by reflexivity.
    cbn [TradingStrategy.generate_signal]. rewrite E2. reflexivity. }
  unfold collect_signals. rewrite S0.
  destruct r0; cbn [lookup list_lookup]; rewrite S1;
    destruct r1; cbn [lookup list_lookup]; rewrite S2;
    destruct r2; cbn [lookup list_lookup]; eexists; reflexivity.
Qed.

(** [get_all_signals] on a manager laid out as [__init__] leaves it (the
    three generators, and the combined strategy over the same three
    objects): every generator is run twice on the caller's frame, once under
    its own name and once inside the combined strategy, and returns the same
    signal both times, so a generator that emits records its signal twice in
    its history.  The frame keeps its rows and every column that is not an
    indicator column. *)
Theorem get_all_signals_runs_generators_twice d r m c active data :
  cmb_strategies c = [0; 1; 2]%nat -> length (cmb_weights c) = 3%nat ->
  let self :=
    mkManager [DualMA d; RSI r; MACD m] [c] (strategies init) active in
  exists r0 r1 r2 rc d' r' m' c' data',
    get_all_signals self data
    = ([("dual_ma", r0); ("rsi", r1); ("macd", r2); ("combined", rc)]%string,
       mkManager [DualMA d'; RSI r'; MACD m'] [c'] (strategies init) active,
       data') /\
    dma_base d' = recorded_twice r0 (dma_base d) /\
    rsi_base r' = recorded_twice r1 (rsi_base r) /\
    macd_base m' = recorded_twice r2 (macd_base m) /\
    same_outside_indicators data data'.
Proof.
  intros Hch Hw self. subst self.
  destruct (cmb_weights c) as [|w0 [|w1 [|w2 [|? ?]]]] eqn:Ew;
    try discriminate Hw. clear Hw.
  unfold get_all_signals.
  cbn [strategies init all_signals call generators combined active_strategy].
  pose proof (fun d2 => dual_ma_rerun d data d2) as Hd.
  pose proof (fun d2 => rsi_rerun r data d2) as Hr.
  rewrite (call_generator_at _ 0 (DualMA d)) by reflexivity.
  cbn [TradingStrategy.generate_signal].
  destruct (dual_ma_generate_signal d data) as [r0 d1] eqn:E0.
  cbn [fst snd insert list_insert generators combined strategies
       active_strategy].
  rewrite (call_generator_at _ 1 (RSI r)) by reflexivity.
  cbn [TradingStrategy.generate_signal].
  destruct (rsi_generate_signal r data) as [[r1 rs1] f1] eqn:E1.
  pose proof (rsi_generate_signal_effects r data) as Hf1. rewrite E1 in Hf1.
  destruct Hf1 as (Hf1 & _).
  cbn [fst snd insert list_insert generators combined strategies
       active_strategy].
  rewrite (call_generator_at _ 2 (MACD m)) by reflexivity.
  cbn [TradingStrategy.generate_signal].
  pose proof (macd_rerun m f1) as Hm.
  pose proof (macd_keeps_rsi m f1) as Hkeep.
  pose proof (macd_generate_signal_effects m f1) as Hf2.
  destruct (macd_generate_signal m f1) as [[r2 m1] f2] eqn:E2.
  destruct Hf2 as (Hf2 & _). cbn [snd] in Hkeep.
  cbn [fst snd insert list_insert generators combined strategies
       active_strategy lookup list_lookup].
  pose proof (same_outside_trans _ _ _ Hf1 Hf2) as Hf02.
  specialize (Hd f2 Hf02). specialize (Hr f2 Hf2 Hkeep).
  unfold combined_generate_signal.
  destruct (validate_data f2) eqn:Hval; cbn [negb].
  - destruct (dual_ma_generate_signal d1 f2) as [r0' d2] eqn:E0'.
    destruct (rsi_generate_signal rs1 f2) as [[r1' rs2] f2'] eqn:E1'.
    destruct (macd_generate_signal m1 f2) as [[r2' m2] f2''] eqn:E2'.
    destruct Hd as [-> Hd]. destruct Hr as (-> & Hr & ->).
    destruct Hm as (-> & Hm & ->).
    destruct (collect_three w0 w1 w2 d1 rs1 m1 f2 r0 d2 r1 rs2 r2 m2
                E0' E1' E2') as [collected Hc].
    rewrite Hch, Ew, Hc.
    match goal with
    | |- context [match ?x with Some _ => _ | None => _ end] =>
        destruct x as [signal|]
    end; cbn [insert list_insert];
      exists r0, r1, r2; eexists; exists d2, rs2, m2; eexists; exists f2;
      (split; [reflexivity|]); auto.
  - assert (Hv0 : validate_data data = false).
    { rewrite <- (validate_data_same_outside data f2 Hf02). exact Hval. }
    assert (Hv1 : validate_data f1 = false).
    { rewrite <- (validate_data_same_outside f1 f2 Hf2). exact Hval. }
    unfold dual_ma_generate_signal in E0. rewrite Hv0 in E0.
    injection E0 as <- <-.
    unfold rsi_generate_signal in E1. rewrite Hv0 in E1.
    injection E1 as <- <- <-.
    unfold macd_generate_signal in E2. rewrite Hv0 in E2.
    injection E2 as <- <- <-.
    cbn [insert list_insert].
    exists None, None, None, None, d, r, m, c, data.
    split; [reflexivity|]. repeat split.
Qed.

Lemma get_all_signals_runs_generators_twice_witness :
  exists r0 r1 r2 rc d' r' m' c' data',
    get_all_signals init (Scenario.frame [1; 2; 1])
    = ([("dual_ma", r0); ("rsi", r1); ("macd", r2); ("combined", rc)]%string,
       mkManager [DualMA d'; RSI r'; MACD m'] [c'] (strategies init)
                 (Some (Generator 0)),
       data') /\
    dma_base d' = recorded_twice r0 (new_Base "DualMA") /\
    rsi_base r' = recorded_twice r1 (new_Base "RSI") /\
    macd_base m' = recorded_twice r2 (new_Base "MACD") /\
    same_outside_indicators (Scenario.frame [1; 2; 1]) data'.
Proof.
  apply (get_all_signals_runs_generators_twice
           (mkDualMA (new_Base "DualMA") 10 30 0.1 None)
           (mkRSI (new_Base "RSI") 14 70 30)
           (mkMACD (new_Base "MACD") 12 26 9)
           (mkCombined (new_Base "CombinedStrategy") [0; 1; 2]%nat
                       [0.5; 0.3; 0.2])
           (Some (Generator 0)) (Scenario.frame [1; 2; 1]));
    reflexivity.
Defined.

End Combined.
